(** * cpinutil.py: a shallow embedding of the CPIN generator

    The script [cpinutil.py] reads a command line, consults a topology file
    and the reference tables of [cpin_data], and prints a [&CNSTPH] namelist
    on standard output.  It is a Python 2 script whose whole body runs at top
    level; its only function is [addOn].

    The embedding follows the script from top to bottom.  Everything the
    script prints and every way it can stop is kept: the two output streams
    are lists of printed lines, [sys.exit()] calls are named after the
    validation that triggers them, and an exception nobody catches ends the
    run with that exception. *)

From Stdlib Require Import ZArith List String Ascii Bool Lia PrimFloat.
From Stdlib Require Import DecimalString Sorted.
Import ListNotations.

Set Warnings "-inexact-float".

Open Scope string_scope.
Open Scope list_scope.
Open Scope Z_scope.

(** Python's [+] on strings. *)
Infix "+++" := String.append (right associativity, at level 60).

(** ** Python builtins used by the script *)

Module Py.

(** Exceptions the script can meet. *)
Inductive exn := IndexError | ValueError | TypeError | NameError.

(** [len]. *)
Definition len {A} (l : list A) : Z := Z.of_nat (List.length l).

(** [l[i]]: a negative index counts from the end of the list; an index
    outside [-len .. len-1] raises IndexError. *)
Definition index {A} (l : list A) (i : Z) : option A :=
  if (0 <=? i) && (i <? len l) then nth_error l (Z.to_nat i)
  else if (- len l <=? i) && (i <? 0) then nth_error l (Z.to_nat (len l + i))
  else None.

(** [s.startswith(p)]. *)
Definition startswith (s p : string) : bool := String.prefix p s.

(** [a in b] for two strings: [a] occurs somewhere in [b]. *)
Fixpoint contains (a b : string) : bool :=
  String.prefix a b ||
  match b with
  | EmptyString => false
  | String _ b' => contains a b'
  end.

(** The operands of the [in] operator as the script uses it: the left one
    is a string or a float, the right one always a string.  Python 2
    refuses a left operand that is not a string. *)
Inductive obj := Str (s : string) | Float (f : float).

Definition is_in (x : obj) (s : string) : exn + bool :=
  match x with
  | Str a => inr (contains a s)
  | Float _ => inl TypeError
  end.

(** [string.replace(s, old, '')]: every occurrence of [old], found from
    left to right without overlap, is taken out.  [skip] counts the
    characters of a match still to be dropped. *)
Fixpoint remove_from (old : string) (skip : nat) (s : string) : string :=
  match s with
  | EmptyString => EmptyString
  | String c s' =>
      match skip with
      | S k => remove_from old k s'
      | O => if String.prefix old s
             then remove_from old (Nat.pred (String.length old)) s'
             else String c (remove_from old 0 s')
      end
  end.

Definition remove (s old : string) : string :=
  match old with
  | EmptyString => s
  | _ => remove_from old 0 s
  end.

(** [string.replace] with the arguments it gets in the script; a float
    where a string is expected is a TypeError. *)
Definition replace (s : string) (old : obj) : exn + string :=
  match old with
  | Str o => inr (remove s o)
  | Float _ => inl TypeError
  end.

(** Whitespace in the sense of [str.strip()] and [str.split()]. *)
Definition isspace (c : ascii) : bool :=
  let n := nat_of_ascii c in
  (n =? 32)%nat || ((9 <=? n)%nat && (n <=? 13)%nat).

Fixpoint lstrip (s : string) : string :=
  match s with
  | EmptyString => EmptyString
  | String c s' => if isspace c then lstrip s' else s
  end.

Fixpoint rstrip (s : string) : string :=
  match s with
  | EmptyString => EmptyString
  | String c s' =>
      match rstrip s' with
      | EmptyString => if isspace c then EmptyString else String c EmptyString
      | r => String c r
      end
  end.

Definition strip (s : string) : string := rstrip (lstrip s).

(** [s.split(",")]: the pieces between commas, empty ones included. *)
Fixpoint split_comma (s : string) : list string :=
  match s with
  | EmptyString => [EmptyString]
  | String c s' =>
      if Ascii.eqb c "," then EmptyString :: split_comma s'
      else match split_comma s' with
           | p :: ps => String c p :: ps
           | [] => [String c EmptyString]
           end
  end.

(** [s.split()]: the maximal runs of non-blank characters.  [cur] is the
    run being read, in reverse. *)
Fixpoint split_ws (cur : list ascii) (s : string) : list string :=
  let flush := match cur with
               | [] => []
               | _ => [string_of_list_ascii (rev cur)]
               end in
  match s with
  | EmptyString => flush
  | String c s' =>
      if isspace c then flush ++ split_ws [] s'
      else split_ws (c :: cur) s'
  end.

Definition split (s : string) : list string := split_ws [] s.

(** [str(n)] for an integer. *)
Definition str (n : Z) : string := NilZero.string_of_int (Z.to_int n).

(** [int(s)]: blanks around the number are passed over; what is left must
    be an optional sign and at least one decimal digit, or else ValueError. *)
Definition digit (c : ascii) : option Z :=
  let n := nat_of_ascii c in
  if (48 <=? n)%nat && (n <=? 57)%nat then Some (Z.of_nat n - 48) else None.

Fixpoint digits (s : string) (acc : Z) : option Z :=
  match s with
  | EmptyString => Some acc
  | String c s' =>
      match digit c with
      | Some d => digits s' (10 * acc + d)
      | None => None
      end
  end.

Definition unsigned (s : string) : option Z :=
  match s with
  | EmptyString => None
  | _ => digits s 0
  end.

Definition int (s : string) : option Z :=
  match strip s with
  | String "-" s' => option_map Z.opp (unsigned s')
  | String "+" s' => unsigned s'
  | s' => unsigned s'
  end.

End Py.

(** ** Runs: two output streams and the ways a run stops *)

(** The [sys.exit()] calls of the script, by the check each one follows. *)
Inductive exit_site :=
| ExitResname        (* line 73: -resname after -notresname *)
| ExitNotresname     (* line 91: -notresname after -resname *)
| ExitResnum         (* line 108: -resnum after -notresnum *)
| ExitNotresnum      (* line 125: -notresnum after -resnum *)
| ExitNoFile         (* line 153: fileexists(prmtop) == -1 *)
| ExitRadii          (* line 170: radius set is not mbondi2 *)
| ExitNoLabels       (* line 176: no residue labels or pointers *)
| ExitTooLarge       (* line 224: residue number above the topology size *)
| ExitNotTitratable  (* line 229: residue name not in titrate_residues *)
| ExitNoneSelected   (* line 244: nothing selected *)
| ExitStateCount     (* line 277: wrong number of -states values *)
| ExitLookup         (* line 305: cpin_data.getData returned -1 *)
| ExitStateRange.    (* line 349: state index out of range *)

Inductive stop :=
| SysExit (site : exit_site)   (* sys.exit() *)
| Usage                        (* cpin_utilities.printusage() *)
| Uncaught (e : Py.exn).       (* traceback *)

(** A computation either goes on with a value or stops; either way it has
    printed [out] on sys.stdout and [err] on sys.stderr, one entry per
    [print] statement.  The traceback Python writes for an uncaught
    exception is not kept in [err]. *)
Inductive W (A : Type) :=
| Done (out err : list string) (a : A)
| Abort (out err : list string) (why : stop).

Arguments Done {A} out err a.
Arguments Abort {A} out err why.

Definition ret {A} (a : A) : W A := Done [] [] a.

Definition bind {A B} (m : W A) (f : A -> W B) : W B :=
  match m with
  | Done out err a =>
      match f a with
      | Done out' err' b => Done (out ++ out') (err ++ err') b
      | Abort out' err' why => Abort (out ++ out') (err ++ err') why
      end
  | Abort out err why => Abort out err why
  end.

Notation "x <- m ;; k" := (bind m (fun x => k))
  (at level 61, m at next level, right associativity).
Notation "m ;; k" := (bind m (fun _ => k))
  (at level 61, right associativity).

Definition print_stdout (line : string) : W unit := Done [line] [] tt.
Definition print_stderr (line : string) : W unit := Done [] [line] tt.
Definition sys_exit {A} (site : exit_site) : W A := Abort [] [] (SysExit site).
Definition raise {A} (e : Py.exn) : W A := Abort [] [] (Uncaught e).

(** A Python expression that may raise. *)
Definition try {A} (r : Py.exn + A) : W A :=
  match r with
  | inl e => raise e
  | inr a => ret a
  end.

Definition get {A} (e : Py.exn) (o : option A) : W A :=
  match o with
  | Some a => ret a
  | None => raise e
  end.

(** [for a in l: b = f(b, a)]. *)
Fixpoint foldM {A B} (f : B -> A -> W B) (l : list A) (b : B) : W B :=
  match l with
  | [] => ret b
  | a :: l' => b' <- f b a ;; foldM f l' b'
  end.

Definition stdout {A} (r : W A) : list string :=
  match r with Done out _ _ | Abort out _ _ => out end.

Definition stderr {A} (r : W A) : list string :=
  match r with Done _ err _ | Abort _ err _ => err end.

(** The exit status the shell sees.  [sys.exit()] without an argument and
    falling off the end of the script both give 0; a traceback gives 1.
    What [printusage] does is not known here. *)
Definition exit_status {A} (r : W A) : option Z :=
  match r with
  | Done _ _ _ => Some 0
  | Abort _ _ (SysExit _) => Some 0
  | Abort _ _ (Uncaught _) => Some 1
  | Abort _ _ Usage => None
  end.

(** ** addOn (lines 11-18) *)

Definition addOn (line toadd : string) : W string :=
  if (80 <? String.length line + String.length toadd)%nat then
    print_stdout line ;;
    ret (" " +++ toadd)
  else
    ret (line +++ toadd).

(** ** What the script takes from outside

    The modules [cpin_utilities] and [cpin_data] and the builtin [float] are
    not part of the script.  A [world] gives their answers.  An entry of a
    state record of [cpin_data] is kept as the text [str] prints for it: the
    script only counts the entries and prints them. *)

Definition state_record := list string.

Inductive refdata :=
| MinusOne                              (* getData found nothing: -1 *)
| States (l : list state_record).       (* one record per protonation state *)

Record world := {
  fileexists : string -> Z;
  getallresinfo : string -> string -> list string;
  getbondiset : string -> string;
  getData : string -> Z -> refdata;
  py_float : string -> option float
}.

(** Modelled from the spec: [cpin_utilities.printusage()], which is not
    among the sources.  The specification puts usage printing, together
    with the process exit code, among the external collaborators; the call
    is taken to end the run, and nothing is said about what it prints or
    about its exit status. *)
Definition printusage {A} : W A := Abort [] [] Usage.

(** ** Global variables (lines 27-49) *)

Definition titratable := "AS4 GL4 HIP TYR LYS CYS".
Definition exp_pkas := "4.0 4.4 6.5 9.6 10.4 8.55".

(** The variables the command line can set.  [minpKa] and [maxpKa] are
    [None] while they hold their integer defaults -100 and 100. *)
Record settings := {
  prmtop : string;
  igb : string;
  ignore_warn : bool;
  system_name : string;
  minpKa : option string;
  maxpKa : option string;
  titrate_residues : string;
  resnums : list string;
  notresnums : list string;
  residue_states : list string;
  resname_spec : bool;
  nresname_spec : bool;
  resnum_spec : bool;
  nresnum_spec : bool
}.

Definition defaults : settings := {|
  prmtop := "prmtop";
  igb := " ";
  ignore_warn := false;
  system_name := "Unknown";
  minpKa := None;
  maxpKa := None;
  titrate_residues := titratable;
  resnums := [];
  notresnums := [];
  residue_states := [];
  resname_spec := false;
  nresname_spec := false;
  resnum_spec := false;
  nresnum_spec := false
|}.

Definition set_prmtop (v : string) (s : settings) : settings :=
  {| prmtop := v; igb := igb s; ignore_warn := ignore_warn s;
     system_name := system_name s; minpKa := minpKa s; maxpKa := maxpKa s;
     titrate_residues := titrate_residues s; resnums := resnums s;
     notresnums := notresnums s; residue_states := residue_states s;
     resname_spec := resname_spec s; nresname_spec := nresname_spec s;
     resnum_spec := resnum_spec s; nresnum_spec := nresnum_spec s |}.

Definition set_igb (v : string) (s : settings) : settings :=
  {| prmtop := prmtop s; igb := v; ignore_warn := ignore_warn s;
     system_name := system_name s; minpKa := minpKa s; maxpKa := maxpKa s;
     titrate_residues := titrate_residues s; resnums := resnums s;
     notresnums := notresnums s; residue_states := residue_states s;
     resname_spec := resname_spec s; nresname_spec := nresname_spec s;
     resnum_spec := resnum_spec s; nresnum_spec := nresnum_spec s |}.

Definition set_ignore_warn (s : settings) : settings :=
  {| prmtop := prmtop s; igb := igb s; ignore_warn := true;
     system_name := system_name s; minpKa := minpKa s; maxpKa := maxpKa s;
     titrate_residues := titrate_residues s; resnums := resnums s;
     notresnums := notresnums s; residue_states := residue_states s;
     resname_spec := resname_spec s; nresname_spec := nresname_spec s;
     resnum_spec := resnum_spec s; nresnum_spec := nresnum_spec s |}.

Definition set_system_name (v : string) (s : settings) : settings :=
  {| prmtop := prmtop s; igb := igb s; ignore_warn := ignore_warn s;
     system_name := v; minpKa := minpKa s; maxpKa := maxpKa s;
     titrate_residues := titrate_residues s; resnums := resnums s;
     notresnums := notresnums s; residue_states := residue_states s;
     resname_spec := resname_spec s; nresname_spec := nresname_spec s;
     resnum_spec := resnum_spec s; nresnum_spec := nresnum_spec s |}.

Definition set_minpKa (v : string) (s : settings) : settings :=
  {| prmtop := prmtop s; igb := igb s; ignore_warn := ignore_warn s;
     system_name := system_name s; minpKa := Some v; maxpKa := maxpKa s;
     titrate_residues := titrate_residues s; resnums := resnums s;
     notresnums := notresnums s; residue_states := residue_states s;
     resname_spec := resname_spec s; nresname_spec := nresname_spec s;
     resnum_spec := resnum_spec s; nresnum_spec := nresnum_spec s |}.

Definition set_maxpKa (v : string) (s : settings) : settings :=
  {| prmtop := prmtop s; igb := igb s; ignore_warn := ignore_warn s;
     system_name := system_name s; minpKa := minpKa s; maxpKa := Some v;
     titrate_residues := titrate_residues s; resnums := resnums s;
     notresnums := notresnums s; residue_states := residue_states s;
     resname_spec := resname_spec s; nresname_spec := nresname_spec s;
     resnum_spec := resnum_spec s; nresnum_spec := nresnum_spec s |}.

(** [-resname]: [resname_spec = True] and a new [titrate_residues]. *)
Definition set_resname (v : string) (s : settings) : settings :=
  {| prmtop := prmtop s; igb := igb s; ignore_warn := ignore_warn s;
     system_name := system_name s; minpKa := minpKa s; maxpKa := maxpKa s;
     titrate_residues := v; resnums := resnums s;
     notresnums := notresnums s; residue_states := residue_states s;
     resname_spec := true; nresname_spec := nresname_spec s;
     resnum_spec := resnum_spec s; nresnum_spec := nresnum_spec s |}.

(** [-notresname]: [nresname_spec = True] and a new [titrate_residues]. *)
Definition set_notresname (v : string) (s : settings) : settings :=
  {| prmtop := prmtop s; igb := igb s; ignore_warn := ignore_warn s;
     system_name := system_name s; minpKa := minpKa s; maxpKa := maxpKa s;
     titrate_residues := v; resnums := resnums s;
     notresnums := notresnums s; residue_states := residue_states s;
     resname_spec := resname_spec s; nresname_spec := true;
     resnum_spec := resnum_spec s; nresnum_spec := nresnum_spec s |}.

(** [-resnum]: [resnum_spec = True] and a longer [resnums]. *)
Definition set_resnum (v : list string) (s : settings) : settings :=
  {| prmtop := prmtop s; igb := igb s; ignore_warn := ignore_warn s;
     system_name := system_name s; minpKa := minpKa s; maxpKa := maxpKa s;
     titrate_residues := titrate_residues s; resnums := v;
     notresnums := notresnums s; residue_states := residue_states s;
     resname_spec := resname_spec s; nresname_spec := nresname_spec s;
     resnum_spec := true; nresnum_spec := nresnum_spec s |}.

(** [-notresnum]: [nresnum_spec = True] and a longer [notresnums]. *)
Definition set_notresnum (v : list string) (s : settings) : settings :=
  {| prmtop := prmtop s; igb := igb s; ignore_warn := ignore_warn s;
     system_name := system_name s; minpKa := minpKa s; maxpKa := maxpKa s;
     titrate_residues := titrate_residues s; resnums := resnums s;
     notresnums := v; residue_states := residue_states s;
     resname_spec := resname_spec s; nresname_spec := nresname_spec s;
     resnum_spec := resnum_spec s; nresnum_spec := true |}.

Definition set_residue_states (v : list string) (s : settings) : settings :=
  {| prmtop := prmtop s; igb := igb s; ignore_warn := ignore_warn s;
     system_name := system_name s; minpKa := minpKa s; maxpKa := maxpKa s;
     titrate_residues := titrate_residues s; resnums := resnums s;
     notresnums := notresnums s; residue_states := v;
     resname_spec := resname_spec s; nresname_spec := nresname_spec s;
     resnum_spec := resnum_spec s; nresnum_spec := nresnum_spec s |}.

(** ** The command line (lines 21-25 and 52-150) *)

(** The first two tests of the script.  [argv] is the whole of [sys.argv],
    the script's own name first. *)
Definition check_usage (argv : list string) : W unit :=
  if Py.len argv <? 3 then printusage
  else
    a1 <- get Py.IndexError (Py.index argv 1) ;;
    if Py.startswith a1 "-h" || Py.startswith a1 "--h" then printusage
    else ret tt.

(** [sys.argv[x+1]], where [rest] is what follows [sys.argv[x]].  The
    IndexError of a missing value is the one the script catches (lines
    148-150). *)
Definition next_arg (rest : list string) : W string :=
  match rest with
  | v :: _ => ret v
  | [] => print_stderr "Error: Command line error!" ;; printusage
  end.

(** The pieces of one argument that the list-valued flags keep: split at
    commas, stripped, empty pieces left out. *)
Definition pieces (a : string) : list string :=
  filter (fun p => negb (String.length p =? 0)%nat)
         (map Py.strip (Py.split_comma a)).

(** The [while] loop shared by the list-valued flags: the pieces of the
    arguments that follow, up to the first argument that starts with "-". *)
Fixpoint values (rest : list string) : list string :=
  match rest with
  | [] => []
  | a :: rest' =>
      if Py.startswith a "-" then [] else pieces a ++ values rest'
  end.

Definition conflict_names :=
  "Error: You cannot specify -notresname and -resname simultaneously!".
Definition conflict_nums :=
  "Error: You cannot specify -notresnum and -resnum simultaneously!".

(** The strings the loop reacts to. *)
Definition is_flag (a : string) : bool :=
  String.eqb a "-p" || String.eqb a "-igb" || String.eqb a "-system" ||
  String.eqb a "-minpKa" || String.eqb a "-maxpKa" ||
  String.eqb a "--ignore-warnings" || String.eqb a "-resname" ||
  String.eqb a "-notresname" || String.eqb a "-resnum" ||
  String.eqb a "-notresnum" || String.eqb a "-states".

(** One turn of the [for] loop at [sys.argv[x] = a].  The loop variable is
    rebound from [range] at every turn, so the [x += 1] of the inner loops
    does not make the outer loop skip anything: every argument gets its
    turn, whether or not an earlier flag has read it as a value. *)
Definition argument (a : string) (rest : list string) (s : settings)
  : W settings :=
  if String.eqb a "-p" then
    v <- next_arg rest ;; ret (set_prmtop v s)
  else if String.eqb a "-igb" then
    v <- next_arg rest ;; ret (set_igb v s)
  else if String.eqb a "-system" then
    v <- next_arg rest ;; ret (set_system_name v s)
  else if String.eqb a "-minpKa" then
    v <- next_arg rest ;; ret (set_minpKa v s)
  else if String.eqb a "-maxpKa" then
    v <- next_arg rest ;; ret (set_maxpKa v s)
  else if String.eqb a "--ignore-warnings" then
    ret (set_ignore_warn s)
  else if String.eqb a "-resname" then
    if nresname_spec s then
      print_stderr conflict_names ;; sys_exit ExitResname
    else
      ret (set_resname
             (fold_left (fun t p => t +++ p +++ " ") (values rest) "") s)
  else if String.eqb a "-notresname" then
    if resname_spec s then
      print_stderr conflict_names ;; sys_exit ExitNotresname
    else
      ret (set_notresname
             (fold_left Py.remove (values rest) (titrate_residues s)) s)
  else if String.eqb a "-resnum" then
    if nresnum_spec s then
      print_stderr conflict_nums ;; sys_exit ExitResnum
    else
      ret (set_resnum (resnums s ++ values rest) s)
  else if String.eqb a "-notresnum" then
    if resnum_spec s then
      print_stderr conflict_nums ;; sys_exit ExitNotresnum
    else
      ret (set_notresnum (notresnums s ++ values rest) s)
  else if String.eqb a "-states" then
    ret (set_residue_states (residue_states s ++ values rest) s)
  else
    ret s.

(** The [for] loop over [sys.argv[1:]]. *)
Fixpoint read_arguments (args : list string) (s : settings) : W settings :=
  match args with
  | [] => ret s
  | a :: rest => s' <- argument a rest s ;; read_arguments rest s'
  end.

(** ** Checks on the topology and conversions (lines 152-196) *)

Definition mbondi2 := "H(N)-modified Bondi radii (mbondi2)".

Definition igb_warning :=
  "Warning: igb value not specified. igb = 5 used as default. " +++
  "Be sure to use this value for your constant pH simulations!".

(** Lines 154-158. *)
Definition default_igb (s : settings) : W string :=
  if String.eqb (igb s) " " then
    (if ignore_warn s then ret tt else print_stderr igb_warning) ;;
    ret "5"
  else ret (igb s).

(** Lines 164-170. *)
Definition check_radii (s : settings) (radius_set : string) : W unit :=
  if ignore_warn s then ret tt
  else if negb (String.eqb radius_set mbondi2) then
    print_stderr ("Error: mbondi2 radius set should be used for constant " +++
                  "pH simulations. All reference energies were calculated") ;;
    print_stderr ("       using these radii! Set --ignore-warnings to ignore " +++
                  "this warning.") ;;
    sys_exit ExitRadii
  else ret tt.

(** Lines 173-176. *)
Definition check_labels (s : settings)
  (prmtop_residues prmtop_indices : list string) : W unit :=
  if (Py.len prmtop_residues =? 0) || (Py.len prmtop_indices =? 0) then
    print_stderr ("Error: Could not find residue labels or pointers in " +++
                  prmtop s +++ "!") ;;
    print_stderr "       Check your prmtop file to make sure it is valid." ;;
    sys_exit ExitNoLabels
  else ret tt.

(** The variables after lines 181-193. *)
Record numbers := {
  resnums_int : list Z;
  notresnums_int : list Z;
  residue_states_int : list Z;
  igb_int : Z;
  maxpKa_float : float;
  minpKa_float : float
}.

(** [int] on every element of a list, in place. *)
Fixpoint ints (l : list string) : option (list Z) :=
  match l with
  | [] => Some []
  | a :: l' =>
      match Py.int a, ints l' with
      | Some n, Some ns => Some (n :: ns)
      | _, _ => None
      end
  end.

(** [float(maxpKa)] and [float(minpKa)]; the defaults are integers. *)
Definition to_float (w : world) (default : float) (v : option string)
  : option float :=
  match v with
  | None => Some default
  | Some a => py_float w a
  end.

(** The [try] block of lines 181-193.  [notresnums] is converted only when
    [resnums] is empty; were both non-empty, the entries of [notresnums]
    would stay strings, which are equal to no integer and so exclude
    nothing. *)
Definition conversions (w : world) (s : settings) (igb : string)
  : option numbers :=
  match ints (resnums s), ints (notresnums s), ints (residue_states s),
        Py.int igb, to_float w 100 (maxpKa s), to_float w (-100) (minpKa s)
  with
  | Some rs, nrs, Some sts, Some g, Some hi, Some lo =>
      match resnums s, nrs with
      | [], Some ns =>
          Some {| resnums_int := rs; notresnums_int := ns;
                  residue_states_int := sts; igb_int := g;
                  maxpKa_float := hi; minpKa_float := lo |}
      | [], None => None
      | _ :: _, _ =>
          Some {| resnums_int := rs; notresnums_int := [];
                  residue_states_int := sts; igb_int := g;
                  maxpKa_float := hi; minpKa_float := lo |}
      end
  | _, _, _, _, _, _ => None
  end.

(** Lines 181-196.  The handler of ValueError calls [utils.printusage()],
    and no [utils] exists in the script: NameError. *)
Definition convert (w : world) (s : settings) (igb : string) : W numbers :=
  match conversions w s igb with
  | Some n => ret n
  | None =>
      print_stderr
        "Error: Make sure you have the right data types for the right arguments!" ;;
      raise Py.NameError
  end.

(** ** The pKa filter (lines 198-209) *)

(** [titrate_name_holder] and [titrate_pka_holder] once the loop has
    converted them; the floats are those of the literals in [exp_pkas]. *)
Definition titrate_name_holder : list string := Py.split titratable.
Definition titrate_pka_holder : list float :=
  [4.0; 4.4; 6.5; 9.6; 10.4; 8.55]%float.

(** The loop of lines 203-209.  The membership test of line 208 and the
    replacement of line 209 are given [titrate_pka_holder[x]], a float. *)
Fixpoint pKa_filter (pkas : list float) (minpKa maxpKa : float)
  (titrate_residues : string) : W string :=
  match pkas with
  | [] => ret titrate_residues
  | pka :: pkas' =>
      if (pka <? minpKa)%float || (maxpKa <? pka)%float then
        found <- try (Py.is_in (Py.Float pka) titrate_residues) ;;
        if found : bool then
          t <- try (Py.replace titrate_residues (Py.Float pka)) ;;
          pKa_filter pkas' minpKa maxpKa (Py.strip t)
        else pKa_filter pkas' minpKa maxpKa titrate_residues
      else pKa_filter pkas' minpKa maxpKa titrate_residues
  end.

(** ** Selection of the residues (lines 219-252) *)

(** Lines 221-231: one of the residue numbers given with [-resnum]. *)
Definition select_number (prmtop : string) (prmtop_residues : list string)
  (titrate_residues : string) (titrated_residue_nums : list Z) (n : Z)
  : W (list Z) :=
  if Py.len prmtop_residues <? n then
    print_stderr "Error: You specified a residue greater than the number of " ;;
    print_stderr ("       residues in the topology file " +++ prmtop) ;;
    sys_exit ExitTooLarge
  else
    name <- get Py.IndexError (Py.index prmtop_residues (n - 1)) ;;
    if negb (Py.contains name titrate_residues) then
      print_stderr
        ("Error: Residue " +++ Py.str n +++ " is a " +++ name +++
         ". This is not in the list of titratable residues!") ;;
      sys_exit ExitNotTitratable
    else ret (titrated_residue_nums ++ [n]).

(** Lines 219-231. *)
Definition select_listed (prmtop : string) (prmtop_residues : list string)
  (titrate_residues : string) (resnums : list Z) : W (list Z) :=
  foldM (select_number prmtop prmtop_residues titrate_residues) resnums [].

(** Lines 235-238: every residue whose name passes the [in] test; [x] is
    the number of residues already passed. *)
Fixpoint select_matching (prmtop_residues : list string) (x : Z)
  (titrate_residues : string) : list Z :=
  match prmtop_residues with
  | [] => []
  | name :: rest =>
      if Py.contains name titrate_residues
      then (x + 1) :: select_matching rest (x + 1) titrate_residues
      else select_matching rest (x + 1) titrate_residues
  end.

(** Lines 249-252: [pop] the first entry equal to [n], if any. *)
Fixpoint pop_first (n : Z) (l : list Z) : list Z :=
  match l with
  | [] => []
  | m :: l' => if n =? m then l' else m :: pop_first n l'
  end.

(** Lines 219-252: selection, the test for an empty selection, and only
    then the removal of the [-notresnum] numbers. *)
Definition selector (prmtop : string) (prmtop_residues : list string)
  (titrate_residues : string) (resnums notresnums : list Z) : W (list Z) :=
  titrated_residue_nums <-
    (if negb (Py.len resnums =? 0)
     then select_listed prmtop prmtop_residues titrate_residues resnums
     else ret (select_matching prmtop_residues 0 titrate_residues)) ;;
  (if Py.len titrated_residue_nums =? 0 then
     print_stderr "Error: No titratable residues conform to your criteria!" ;;
     sys_exit ExitNoneSelected
   else ret tt) ;;
  ret (fold_left (fun l n => pop_first n l) notresnums titrated_residue_nums).

(** ** Names and initial states (lines 258-281) *)

(** One turn of the loop of lines 258-269. *)
Definition add_name (titrated_residue_names : list string) (name : string)
  : list string :=
  match titrated_residue_names with
  | [] => [name]
  | _ =>
      if existsb (fun n => String.eqb n name) titrated_residue_names
      then titrated_residue_names
      else titrated_residue_names ++ [name]
  end.

Definition name_of (prmtop_residues : list string)
  (titrated_residue_names : list string) (n : Z) : W (list string) :=
  name <- get Py.IndexError (Py.index prmtop_residues (n - 1)) ;;
  ret (add_name titrated_residue_names name).

Definition residue_names (prmtop_residues : list string)
  (titrated_residue_nums : list Z) : W (list string) :=
  foldM (name_of prmtop_residues) titrated_residue_nums [].

(** Lines 274-281. *)
Definition initial_states (residue_states titrated_residue_nums : list Z)
  : W (list Z) :=
  if negb (Py.len residue_states =? 0) &&
     negb (Py.len residue_states =? Py.len titrated_residue_nums) then
    print_stderr
      ("Error: You specified " +++ Py.str (Py.len residue_states) +++
       " states for " +++ Py.str (Py.len titrated_residue_nums) +++
       " titrated residues!") ;;
    sys_exit ExitStateCount
  else if Py.len residue_states =? 0 then
    ret (map (fun _ => 0) titrated_residue_nums)
  else ret residue_states.

(** ** The namelist (lines 286-409) *)

(** [resdata[y]] next to [titrated_residue_names[y]]: the two lists have
    the same length and are always read at the same index. *)
Definition block := (string * list state_record)%type.

(** A field that grows token by token: [addOn] for each token, then the
    [print] of what is left. *)
Definition add_tokens (line : string) (tokens : list string) : W string :=
  foldM addOn tokens line.

Definition field (header : string) (tokens : list string) : W unit :=
  line <- add_tokens header tokens ;;
  print_stdout line.

(** The tokens of one printed line, glued together. *)
Definition join (tokens : list string) : string :=
  fold_right String.append "" tokens.

(** A continuation line keeps to 80 characters unless it holds a single
    token that cannot fit behind the leading blank. *)
Definition chunk_ok (c : list string) : Prop :=
  (String.length (" " +++ join c) <= 80)%nat \/
  exists t, c = [t] /\ (80 <= String.length t)%nat.

(** Lines 298-312.  The loop stops at the first name [getData] knows
    nothing about; what it leaves behind is [resdata] with every entry a
    list of state records. *)
Definition charges (curdata : list state_record) : list string :=
  flat_map (fun rec => map (fun c => c +++ ",") (skipn 2 rec)) curdata.

Definition chrgdat_block (acc : string * list block) (d : string * refdata)
  : W (string * list block) :=
  match snd d with
  | MinusOne =>
      print_stderr "Error: Couldn't get data from cpin_data.py!" ;;
      sys_exit ExitLookup
  | States curdata =>
      line <- add_tokens (fst acc) (charges curdata) ;;
      ret (line, snd acc ++ [(fst d, curdata)])
  end.

Definition chrgdat (resdata : list (string * refdata)) : W (list block) :=
  r <- foldM chrgdat_block resdata (" CHRGDAT=", []) ;;
  print_stdout (fst r) ;;
  ret (snd r).

(** Lines 316-325. *)
Definition protcnt (resdata : list block) : W unit :=
  line <- foldM (fun line rec =>
                   p <- get Py.IndexError (Py.index rec 1) ;;
                   addOn line (p +++ ","))
                (flat_map snd resdata) " PROTCNT=" ;;
  print_stdout line.

(** Lines 329-337. *)
Definition resname_header := " RESNAME='System: Unknown',".

Definition resname_token (prmtop_residues : list string) (line : string)
  (n : Z) : W string :=
  name <- get Py.IndexError (Py.index prmtop_residues (n - 1)) ;;
  addOn line ("'Residue: " +++ name +++ " " +++ Py.str n +++ "',").

Definition resname (prmtop_residues : list string)
  (titrated_residue_nums : list Z) : W unit :=
  line <- foldM (resname_token prmtop_residues) titrated_residue_nums
                resname_header ;;
  print_stdout line.

(** Lines 344-349: the state of one residue against the block of its
    name. *)
Fixpoint check_state (name : string) (state : Z) (resdata : list block)
  : W unit :=
  match resdata with
  | [] => ret tt
  | (n, curdata) :: resdata' =>
      (if String.eqb name n && ((state <? 0) || (Py.len curdata <=? state))
       then
         print_stderr
           ("Error: Residue states must range from 0 to num_states - 1 " +++
            "for each residue!") ;;
         sys_exit ExitStateRange
       else ret tt) ;;
      check_state name state resdata'
  end.

(** Lines 341-353.  [occurrences] pairs [titrated_residue_nums[x]] with
    [residue_states[x]]; lines 274-281 give the two lists one length. *)
Definition resstate (prmtop_residues : list string)
  (occurrences : list (Z * Z)) (resdata : list block) : W unit :=
  line <- foldM (fun line (o : Z * Z) =>
                   name <- get Py.IndexError
                             (Py.index prmtop_residues (fst o - 1)) ;;
                   check_state name (snd o) resdata ;;
                   addOn line (Py.str (snd o) +++ ","))
                occurrences " RESSTATE=" ;;
  print_stdout line.

(** Lines 366-375: the walk over the names up to the residue's own.  The
    result is [startchrg], [startst] and, when the name is met, [natm] and
    [nst]. *)
Fixpoint locate (name : string) (resdata : list block) (startchrg startst : Z)
  : W (Z * Z * option (Z * Z)) :=
  match resdata with
  | [] => ret (startchrg, startst, None)
  | (n, curdata) :: resdata' =>
      rec0 <- get Py.IndexError (Py.index curdata 0) ;;
      if String.eqb name n then
        ret (startchrg, startst, Some (Py.len rec0 - 2, Py.len curdata))
      else
        locate name resdata'
               (startchrg + (Py.len rec0 - 2) * Py.len curdata)
               (startst + Py.len curdata)
  end.

Definition stateinf_token (x : Z) (key value : string) : string :=
  "STATEINF(" +++ Py.str x +++ ")%" +++ key +++ "=" +++ value +++ ", ".

(** Lines 359-383 for the residue at position [x].  [natm] and [nst] keep
    the values of an earlier turn when the walk does not set them; [sizes]
    carries them from turn to turn, [None] while they are unbound. *)
Definition stateinf_entry (prmtop_residues prmtop_indices : list string)
  (resdata : list block) (x n : Z) (line : string) (sizes : option (Z * Z))
  : W (string * option (Z * Z)) :=
  holder <- get Py.IndexError (Py.index prmtop_indices (n - 1)) ;;
  line <- addOn line (stateinf_token x "FIRST_ATOM" holder) ;;
  name <- get Py.IndexError (Py.index prmtop_residues (n - 1)) ;;
  found <- locate name resdata 0 0 ;;
  let '(startchrg, startst, set) := found in
  let sizes := match set with Some v => Some v | None => sizes end in
  line <- addOn line (stateinf_token x "FIRST_CHARGE" (Py.str startchrg)) ;;
  line <- addOn line (stateinf_token x "FIRST_STATE" (Py.str startst)) ;;
  v <- get Py.NameError sizes ;;
  line <- addOn line (stateinf_token x "NUM_ATOMS" (Py.str (fst v))) ;;
  line <- addOn line (stateinf_token x "NUM_STATES" (Py.str (snd v))) ;;
  ret (line, sizes).

(** Lines 357-386. *)
Fixpoint stateinf_loop (prmtop_residues prmtop_indices : list string)
  (resdata : list block) (x : Z) (nums : list Z) (line : string)
  (sizes : option (Z * Z)) : W string :=
  match nums with
  | [] => ret line
  | n :: nums' =>
      r <- stateinf_entry prmtop_residues prmtop_indices resdata x n line sizes ;;
      stateinf_loop prmtop_residues prmtop_indices resdata (x + 1) nums'
                    (fst r) (snd r)
  end.

Definition stateinf (prmtop_residues prmtop_indices : list string)
  (resdata : list block) (titrated_residue_nums : list Z) : W unit :=
  line <- stateinf_loop prmtop_residues prmtop_indices resdata 0
                        titrated_residue_nums " " None ;;
  print_stdout line.

(** Lines 390-397. *)
Definition statene (resdata : list block) : W unit :=
  line <- foldM (fun line rec =>
                   e <- get Py.IndexError (Py.index rec 0) ;;
                   addOn line (e +++ ","))
                (flat_map snd resdata) " STATENE=" ;;
  print_stdout line.

(** Lines 286-409. *)
Definition namelist (w : world) (igb : Z)
  (prmtop_residues prmtop_indices : list string)
  (titrated_residue_nums : list Z) (titrated_residue_names : list string)
  (residue_states : list Z) : W unit :=
  print_stdout "&CNSTPH" ;;
  resdata <- chrgdat (map (fun name => (name, getData w name igb))
                          titrated_residue_names) ;;
  protcnt resdata ;;
  resname prmtop_residues titrated_residue_nums ;;
  resstate prmtop_residues (combine titrated_residue_nums residue_states)
           resdata ;;
  stateinf prmtop_residues prmtop_indices resdata titrated_residue_nums ;;
  statene resdata ;;
  print_stdout (" TRESCNT=" +++ Py.str (Py.len titrated_residue_nums) +++ ",") ;;
  print_stdout "/" ;;
  print_stderr "CPin created!".

(** ** The script *)

(** Lines 152-409, with the variables as the command line left them. *)
Definition body (w : world) (s : settings) : W unit :=
  (if fileexists w (prmtop s) =? -1 then sys_exit ExitNoFile else ret tt) ;;
  igb <- default_igb s ;;
  let prmtop_residues := getallresinfo w (prmtop s) "RESIDUE_LABEL" in
  let prmtop_indices := getallresinfo w (prmtop s) "RESIDUE_POINTER" in
  check_radii s (getbondiset w (prmtop s)) ;;
  check_labels s prmtop_residues prmtop_indices ;;
  n <- convert w s igb ;;
  titrate_residues <- pKa_filter titrate_pka_holder (minpKa_float n)
                                 (maxpKa_float n) (titrate_residues s) ;;
  titrated_residue_nums <- selector (prmtop s) prmtop_residues titrate_residues
                                    (resnums_int n) (notresnums_int n) ;;
  titrated_residue_names <- residue_names prmtop_residues titrated_residue_nums ;;
  residue_states <- initial_states (residue_states_int n) titrated_residue_nums ;;
  namelist w (igb_int n) prmtop_residues prmtop_indices titrated_residue_nums
           titrated_residue_names residue_states.

(** The whole run on the command line [argv]. *)
Definition cpinutil (w : world) (argv : list string) : W unit :=
  check_usage argv ;;
  s <- read_arguments (tl argv) defaults ;;
  body w s.

(** ** The offsets in the words of the specification

    [num_atoms] and [num_states] of the block of one name, and the two sums
    over the blocks of the names that come earlier in the deduplicated
    list. *)

Definition num_states (b : block) : Z := Py.len (snd b).

Definition num_atoms (b : block) : Z :=
  match snd b with
  | rec0 :: _ => Py.len rec0 - 2
  | [] => 0
  end.

Definition first_charge (earlier : list block) : Z :=
  fold_right (fun b total => num_atoms b * num_states b + total) 0 earlier.

Definition first_state (earlier : list block) : Z :=
  fold_right (fun b total => num_states b + total) 0 earlier.

(** Reference data the script can print without an IndexError: at least one
    state, and in every state record at least an energy and a proton
    count. *)
Definition well_formed (states : list state_record) : Prop :=
  states <> [] /\ Forall (fun rec => (2 <= List.length rec)%nat) states.

(** [m] goes through without a word on stderr, and its value satisfies
    [Q]. *)
Definition returns {A} (Q : A -> Prop) (m : W A) : Prop :=
  exists out a, m = Done out [] a /\ Q a.

(** ** How runs are judged

    [blank] lines start with a blank, [error_line]s with "Error: ".  A
    computation is [sound] for a set [L] of lines, a set [S] of exits and a
    set [I] of values when it prints only lines of [L] on stdout, ends in
    [I] if it goes through, and, if it stops at a [sys.exit()], stops at
    one of [S] that has an error message before it (line 153 excepted,
    which leaves the message to [fileexists]). *)

Definition blank (line : string) : Prop := Py.startswith line " " = true.

Definition error_line (line : string) : Prop :=
  Py.startswith line "Error: " = true.

Definition reported (err : list string) (site : exit_site) : Prop :=
  site = ExitNoFile \/ Exists error_line err.

Definition sound {A} (L : string -> Prop) (S : exit_site -> Prop)
  (I : A -> Prop) (m : W A) : Prop :=
  Forall L (stdout m) /\
  match m with
  | Done _ _ a => I a
  | Abort _ err (SysExit site) => S site /\ reported err site
  | Abort _ _ _ => True
  end.

(** The exits that come before the namelist is begun. *)
Definition early (site : exit_site) : Prop :=
  site <> ExitLookup /\ site <> ExitStateRange.

Definition nothing (line : string) : Prop := False.
Definition anything {A} (a : A) : Prop := True.

(** What can be said of a whole run: the success message comes last on
    stderr; a [sys.exit()] has its error message; and the two exits of the
    namelist leave its first line on stdout, and never its last. *)
Definition verdict (r : W unit) : Prop :=
  match r with
  | Done _ err _ => exists e, err = e ++ ["CPin created!"]
  | Abort out err (SysExit site) =>
      reported err site /\
      (site = ExitLookup \/ site = ExitStateRange ->
       (exists rest, out = "&CNSTPH" :: rest) /\ ~ In "/" out)
  | Abort _ _ _ => True
  end.

(** The same for what follows the first line of the namelist. *)
Definition verdict_inside (r : W unit) : Prop :=
  match r with
  | Done _ err _ => exists e, err = e ++ ["CPin created!"]
  | Abort out err (SysExit site) => reported err site /\ Forall blank out
  | Abort _ _ _ => True
  end.

(** ** Settings up to the system name *)

Definition forget_system (s : settings) : settings := set_system_name "" s.

Definition W_map {A B} (g : A -> B) (m : W A) : W B :=
  match m with
  | Done out err a => Done out err (g a)
  | Abort out err why => Abort out err why
  end.

(** The first line a computation has printed, or else the line it holds. *)
Definition first_line (m : W string) : option string :=
  match stdout m, m with
  | l :: _, _ => Some l
  | [], Done _ _ line => Some line
  | [], Abort _ _ _ => None
  end.

(** ** A small topology to run the script on

    Four residues, ALA GLU AS4 TYR, with made-up reference data: three
    states of three atoms for AS4, two states of two atoms for TYR. *)

Module Sample.

Definition labels := ["ALA"; "GLU"; "AS4"; "TYR"].
Definition pointers := ["1"; "11"; "26"; "38"].

Definition as4 : list state_record :=
  [["0.0"; "0"; "-0.1"; "0.2"; "0.3"];
   ["1.5"; "1"; "-0.1"; "0.2"; "0.4"];
   ["1.5"; "1"; "-0.1"; "0.2"; "0.4"]].

Definition tyr : list state_record :=
  [["0.0"; "1"; "0.5"; "0.6"];
   ["-3.2"; "0"; "0.7"; "0.8"]].

(** [float] on the two literals the examples pass on the command line. *)
Definition float_of (a : string) : option float :=
  if String.eqb a "5.0" then Some 5.0%float
  else if String.eqb a "11.0" then Some 11.0%float
  else None.

(** The topology, with the reference tables [tables]. *)
Definition topology (tables : string -> Z -> refdata) : world := {|
  fileexists := fun _ => 0;
  getallresinfo := fun _ flag =>
    if String.eqb flag "RESIDUE_LABEL" then labels else pointers;
  getbondiset := fun _ => mbondi2;
  getData := tables;
  py_float := float_of
|}.

(** The reference tables know AS4 and TYR. *)
Definition full : world :=
  topology (fun name _ =>
              if String.eqb name "AS4" then States as4
              else if String.eqb name "TYR" then States tyr
              else MinusOne).

(** The reference tables know AS4 only. *)
Definition no_tyr : world :=
  topology (fun name _ =>
              if String.eqb name "AS4" then States as4 else MinusOne).

(** A command line: the topology, igb 5, and [options]. *)
Definition command (options : list string) : list string :=
  ["cpinutil.py"; "-p"; "prmtop"; "-igb"; "5"] ++ options.

(** A token of exactly 80 characters. *)
Definition token80 :=
  "0.00000000000000000000000000000000000000000000000000000000000000000000000000001,".

End Sample.

(** ** What the argument loop keeps

    Of each pair of opposite flags at most one has been seen, and a list
    of numbers is empty as long as its flag has not been seen. *)
Definition exclusive (s : settings) : Prop :=
  resname_spec s && nresname_spec s = false /\
  resnum_spec s && nresnum_spec s = false /\
  (resnum_spec s = false -> resnums s = []) /\
  (nresnum_spec s = false -> notresnums s = []).

(** The flags that take the next argument as their value. *)
Definition takes_value (a : string) : bool :=
  String.eqb a "-p" || String.eqb a "-igb" || String.eqb a "-system" ||
  String.eqb a "-minpKa" || String.eqb a "-maxpKa".

(** ** A pKa between two bounds, as line 207 compares them *)
Definition within (minpKa maxpKa pka : float) : bool :=
  negb ((pka <? minpKa)%float || (maxpKa <? pka)%float).

(** ** The shape of what a run leaves on stdout

    Inside the namelist a run can only stop at the two exits of lines 305
    and 349 or on an exception.  A step of the namelist is [tidy] when, if
    it goes through, it has printed blank-led lines only and nothing on
    stderr.  [closes count] describes the rest of the namelist from some
    point on: it ends with the TRESCNT line for [count] and the line "/". *)

Definition stops_inside (why : stop) : Prop :=
  why = SysExit ExitLookup \/ why = SysExit ExitStateRange \/
  exists e, why = Uncaught e.

Definition tidy {A} (I : A -> Prop) (m : W A) : Prop :=
  match m with
  | Done out err a => Forall blank out /\ err = [] /\ I a
  | Abort _ _ why => stops_inside why
  end.

Definition trescnt (count : Z) : string :=
  " TRESCNT=" +++ Py.str count +++ ",".

Definition closes (count : Z) (r : W unit) : Prop :=
  match r with
  | Done out err _ =>
      exists mid, out = mid ++ [trescnt count; "/"] /\
                  Forall blank mid /\ err = ["CPin created!"]
  | Abort _ _ why => stops_inside why
  end.

Definition stdout_shape (r : W unit) : Prop :=
  match r with
  | Done out _ _ =>
      exists mid count,
        out = "&CNSTPH" :: mid ++ [trescnt count; "/"] /\
        Forall blank mid /\ 0 <= count
  | Abort out _ (SysExit ExitLookup)
  | Abort out _ (SysExit ExitStateRange) =>
      exists rest, out = "&CNSTPH" :: rest
  | Abort out _ (SysExit _)
  | Abort out _ Usage => out = []
  | Abort out _ (Uncaught _) => out = [] \/ exists rest, out = "&CNSTPH" :: rest
  end.

(** ** Lines and reference data of moderate length *)

Definition short (line : string) : Prop := (String.length line <= 80)%nat.

(** Every entry of every state record prints in at most 78 characters. *)
Definition short_data (states : list state_record) : Prop :=
  Forall (Forall (fun c => (String.length c <= 78)%nat)) states.

(** * running_titration_curve.py: the reader of pH statistics files

    The class [pHStatFile] reads a file line by line and picks the lines
    its three regular expressions match.  The file is the list of the
    lines [readline()] has yet to return; [readline()] returns the empty
    string at the end of the file.  The regular expressions belong to the
    module [re]: a [patterns] gives, for each of them, what the code takes
    from a match. *)

Module Titration.

Record patterns := {
  (* cumulativere.match(line): is there a match *)
  cumulativere : string -> bool;
  (* solvphre.match(line): float(groups()[0]) *)
  solvphre : string -> option float;
  (* reslinere.match(line): groups()[0], int(groups()[1]), float(groups()[4]) *)
  reslinere : string -> option (string * Z * float)
}.

(** [get_pH] (lines 49-56), with the file it leaves behind.  The function
    returns None when the loop runs out of lines. *)
Fixpoint get_pH (re : patterns) (f : list string)
  : option float * list string :=
  match f with
  | [] => (None, [])
  | rawline :: f' =>
      if String.eqb rawline "" then (None, f')
      else match solvphre re rawline with
           | Some pH => (Some pH, f')
           | None => get_pH re f'
           end
  end.

(** The two loops of [get_next_residue]: the outer one looks for a residue
    line, the inner one, entered at a blank line, for the next CUMULATIVE
    header. *)
Inductive loop := Outer | Inner.

(** [get_next_residue] (lines 70-93), from the [readline()] that precedes
    the test of either loop.  The result is the tuple of a residue line, or
    None for (None, None, None), with the file left behind. *)
Fixpoint next_residue (re : patterns) (at_loop : loop) (f : list string)
  : option (string * Z * float) * list string :=
  match f with
  | [] => (None, [])
  | rawline :: f' =>
      if String.eqb rawline "" then (None, f')
      else
        match at_loop with
        | Inner =>
            if cumulativere re rawline then next_residue re Outer f'
            else next_residue re Inner f'
        | Outer =>
            match reslinere re rawline with
            | Some residue => (Some residue, f')
            | None =>
                if String.eqb (Py.strip rawline) "" then
                  if cumulativere re rawline then next_residue re Outer f'
                  else next_residue re Inner f'
                else next_residue re Outer f'
            end
        end
  end.

Definition get_next_residue (re : patterns) (f : list string)
  : option (string * Z * float) * list string :=
  next_residue re Outer f.

(** ['%s_%d' % (resname, resnum)]; with (None, None) the [%d] raises
    TypeError. *)
Definition label (residue : option (string * Z * float)) : Py.exn + string :=
  match residue with
  | Some (resname, resnum, _) => inr (resname +++ "_" +++ Py.str resnum)
  | None => inl Py.TypeError
  end.

(** The loop of [titrating_residues] (lines 65-67), at its test.  [fuel]
    bounds the number of turns; None says the bound was too low. *)
Fixpoint titrating_loop (re : patterns) (fuel : nat)
  (list_of_residues : list string) (residue : option (string * Z * float))
  (f : list string) : option (Py.exn + list string) :=
  match fuel with
  | O => None
  | S fuel' =>
      match label residue with
      | inl e => Some (inl e)
      | inr l =>
          if existsb (String.eqb l) list_of_residues
          then Some (inr list_of_residues)
          else
            let (residue', f') := get_next_residue re f in
            titrating_loop re fuel' (list_of_residues ++ [l]) residue' f'
      end
  end.

(** [titrating_residues] (lines 58-68).  Every turn of the loop but the
    last reads at least one line, so two turns more than the file has
    lines are enough. *)
Definition titrating_residues (re : patterns) (f : list string)
  : option (Py.exn + list string) :=
  let (residue, f') := get_next_residue re f in
  titrating_loop re (2 + List.length f) [] residue f'.

(** A line as [readline()] returns it before the end of the file. *)
Definition is_line (l : string) : Prop := l <> "".

(** A sample of patterns: a header is a line that starts with "=", a
    residue line is "R" followed by the digits of its number, the pH is on
    lines that start with "p". *)
Definition toy : patterns := {|
  cumulativere := fun l => Py.startswith l "=";
  solvphre := fun l => if Py.startswith l "p" then Some 7.0%float else None;
  reslinere := fun l =>
    match l with
    | String "R" digits =>
        match Py.int digits with
        | Some n => Some ("R", n, 0.5%float)
        | None => None
        end
    | _ => None
    end
|}.

Definition newline : string := String (ascii_of_nat 10) "".

End Titration.

(** ** A residue number that can be selected: within the topology, with a
    name that passes the [in] test *)
Definition selectable (prmtop_residues : list string)
  (titrate_residues : string) (n : Z) : Prop :=
  1 <= n <= Py.len prmtop_residues /\
  exists name, nth_error prmtop_residues (Z.to_nat (n - 1)) = Some name /\
               Py.contains name titrate_residues = true.

(** The token of RESNAME for residue [n] (lines 332-334). *)
Definition residue_token (prmtop_residues : list string) (n : Z) : string :=
  "'Residue: " +++ nth (Z.to_nat (n - 1)) prmtop_residues "" +++ " " +++
  Py.str n +++ "',".

(** ** What the selector hands back

    [subsequence l l']: [l] is [l'] with some of its entries left out, the
    others in their order. *)
Inductive subsequence {A} : list A -> list A -> Prop :=
| sub_nil : subsequence [] []
| sub_skip a l l' : subsequence l l' -> subsequence l (a :: l')
| sub_keep a l l' : subsequence l l' -> subsequence (a :: l) (a :: l').

(** A residue name that is as long as a name can be: it is not empty, holds
    no blank, and none of the active names is longer. *)
Definition full_name (titrate_residues name : string) : Prop :=
  name <> "" /\
  Forall (fun c => Py.isspace c = false) (list_ascii_of_string name) /\
  Forall (fun t => (String.length t <= String.length name)%nat)
         (Py.split titrate_residues).

(** ** The STATEINF group in the words of the specification

    The five tokens of the residue at position [x] of the selection:
    its first atom, the two offsets as sums over the blocks [earlier] of the
    names that come before its own, and the sizes of its own block [b]. *)
Definition stateinf_record (x : Z) (first_atom : string)
  (earlier : list block) (b : block) : list string :=
  ["STATEINF(" +++ Py.str x +++ ")%FIRST_ATOM=" +++ first_atom +++ ", ";
   "STATEINF(" +++ Py.str x +++ ")%FIRST_CHARGE=" +++
     Py.str (first_charge earlier) +++ ", ";
   "STATEINF(" +++ Py.str x +++ ")%FIRST_STATE=" +++
     Py.str (first_state earlier) +++ ", ";
   "STATEINF(" +++ Py.str x +++ ")%NUM_ATOMS=" +++ Py.str (num_atoms b) +++ ", ";
   "STATEINF(" +++ Py.str x +++ ")%NUM_STATES=" +++ Py.str (num_states b) +++ ", "].

(** The table of the whole selection [nums], from position [x] on: one
    record per selected residue, in the order of the selection.  The
    residue's name is the [k]-th of [names], its block the [k]-th of
    [resdata], and the blocks before are the first [k]. *)
Inductive stateinf_table (residues indices names : list string)
  (resdata : list block) : Z -> list Z -> list (list string) -> Prop :=
| table_end x : stateinf_table residues indices names resdata x [] []
| table_entry x n nums records k name first_atom b :
    Py.index residues (n - 1) = Some name ->
    Py.index indices (n - 1) = Some first_atom ->
    nth_error names k = Some name ->
    nth_error resdata k = Some b ->
    stateinf_table residues indices names resdata (x + 1) nums records ->
    stateinf_table residues indices names resdata x (n :: nums)
      (stateinf_record x first_atom (firstn k resdata) b :: records).

(** ** The validation failures of the script

    What lines 160-161 read from the topology, and igb as line 158 leaves
    it. *)
Definition residue_labels (w : world) (s : settings) : list string :=
  getallresinfo w (prmtop s) "RESIDUE_LABEL".

Definition residue_pointers (w : world) (s : settings) : list string :=
  getallresinfo w (prmtop s) "RESIDUE_POINTER".

Definition igb_of (s : settings) : string :=
  if String.eqb (igb s) " " then "5" else igb s.

(** The command line gets past lines 21-25 and the argument loop leaves the
    variables as [s]. *)
Definition reads (argv : list string) (s : settings) : Prop :=
  check_usage argv = ret tt /\ read_arguments (tl argv) defaults = ret s.

(** The run has come through the checks of lines 152-176: the topology
    file is there, its radius set is accepted, it has residue records. *)
Definition admitted (w : world) (argv : list string) (s : settings) : Prop :=
  reads argv s /\
  fileexists w (prmtop s) <> -1 /\
  (ignore_warn s = true \/ getbondiset w (prmtop s) = mbondi2) /\
  residue_labels w s <> [] /\ residue_pointers w s <> [].

(** It has also come through lines 181-209: the values are numbers, [n],
    and every built-in pKa lies within the bounds. *)
Definition prepared (w : world) (argv : list string) (s : settings)
  (n : numbers) : Prop :=
  admitted w argv s /\
  conversions w s (igb_of s) = Some n /\
  forallb (within (minpKa_float n) (maxpKa_float n)) titrate_pka_holder = true.

(** It has also come through lines 219-269, with the selection [nums] and
    the names [names]. *)
Definition chosen (w : world) (argv : list string) (s : settings)
  (n : numbers) (nums : list Z) (names : list string) : Prop :=
  prepared w argv s n /\
  selector (prmtop s) (residue_labels w s) (titrate_residues s)
           (resnums_int n) (notresnums_int n) = ret nums /\
  residue_names (residue_labels w s) nums = ret names.

(** [failure w argv site lines]: on the command line [argv] and in the
    world [w], the check before the [sys.exit()] of [site] is the first one
    that fails; [lines] is the message the script prints for it. *)
Inductive failure (w : world) (argv : list string)
  : exit_site -> list string -> Prop :=
| resname_after_notresname before after :
    check_usage argv = ret tt ->
    tl argv = before ++ "-resname" :: after ->
    In "-notresname" before -> ~ In "-resname" before ->
    ~ (In "-resnum" before /\ In "-notresnum" before) ->
    failure w argv ExitResname
      ["Error: You cannot specify -notresname and -resname simultaneously!"]
| notresname_after_resname before after :
    check_usage argv = ret tt ->
    tl argv = before ++ "-notresname" :: after ->
    In "-resname" before -> ~ In "-notresname" before ->
    ~ (In "-resnum" before /\ In "-notresnum" before) ->
    failure w argv ExitNotresname
      ["Error: You cannot specify -notresname and -resname simultaneously!"]
| resnum_after_notresnum before after :
    check_usage argv = ret tt ->
    tl argv = before ++ "-resnum" :: after ->
    In "-notresnum" before -> ~ In "-resnum" before ->
    ~ (In "-resname" before /\ In "-notresname" before) ->
    failure w argv ExitResnum
      ["Error: You cannot specify -notresnum and -resnum simultaneously!"]
| notresnum_after_resnum before after :
    check_usage argv = ret tt ->
    tl argv = before ++ "-notresnum" :: after ->
    In "-resnum" before -> ~ In "-notresnum" before ->
    ~ (In "-resname" before /\ In "-notresname" before) ->
    failure w argv ExitNotresnum
      ["Error: You cannot specify -notresnum and -resnum simultaneously!"]
| topology_missing s :
    reads argv s ->
    fileexists w (prmtop s) = -1 ->
    failure w argv ExitNoFile []
| radii_mismatch s :
    reads argv s ->
    fileexists w (prmtop s) <> -1 ->
    ignore_warn s = false ->
    getbondiset w (prmtop s) <> mbondi2 ->
    failure w argv ExitRadii
      ["Error: mbondi2 radius set should be used for constant pH simulations. All reference energies were calculated";
       "       using these radii! Set --ignore-warnings to ignore this warning."]
| records_missing s :
    reads argv s ->
    fileexists w (prmtop s) <> -1 ->
    ignore_warn s = true \/ getbondiset w (prmtop s) = mbondi2 ->
    residue_labels w s = [] \/ residue_pointers w s = [] ->
    failure w argv ExitNoLabels
      ["Error: Could not find residue labels or pointers in " +++ prmtop s +++ "!";
       "       Check your prmtop file to make sure it is valid."]
| number_too_large s n before m after :
    prepared w argv s n ->
    resnums_int n = before ++ m :: after ->
    Forall (selectable (residue_labels w s) (titrate_residues s)) before ->
    Py.len (residue_labels w s) < m ->
    failure w argv ExitTooLarge
      ["Error: You specified a residue greater than the number of ";
       "       residues in the topology file " +++ prmtop s]
| name_not_titratable s n before m after name :
    prepared w argv s n ->
    resnums_int n = before ++ m :: after ->
    Forall (selectable (residue_labels w s) (titrate_residues s)) before ->
    m <= Py.len (residue_labels w s) ->
    Py.index (residue_labels w s) (m - 1) = Some name ->
    Py.contains name (titrate_residues s) = false ->
    failure w argv ExitNotTitratable
      ["Error: Residue " +++ Py.str m +++ " is a " +++ name +++
       ". This is not in the list of titratable residues!"]
| nothing_selected s n :
    prepared w argv s n ->
    resnums_int n = [] ->
    Forall (fun name => Py.contains name (titrate_residues s) = false)
           (residue_labels w s) ->
    failure w argv ExitNoneSelected
      ["Error: No titratable residues conform to your criteria!"]
| states_miscounted s n nums names :
    chosen w argv s n nums names ->
    residue_states_int n <> [] ->
    List.length (residue_states_int n) <> List.length nums ->
    failure w argv ExitStateCount
      ["Error: You specified " +++ Py.str (Py.len (residue_states_int n)) +++
       " states for " +++ Py.str (Py.len nums) +++ " titrated residues!"]
| name_unknown s n nums names states before name after blocks :
    chosen w argv s n nums names ->
    initial_states (residue_states_int n) nums = ret states ->
    names = before ++ name :: after ->
    map (fun name => (name, getData w name (igb_int n))) before =
      map (fun b : block => (fst b, States (snd b))) blocks ->
    getData w name (igb_int n) = MinusOne ->
    failure w argv ExitLookup
      ["Error: Couldn't get data from cpin_data.py!"]
| state_out_of_range s n nums names states resdata before m st after name d :
    chosen w argv s n nums names ->
    initial_states (residue_states_int n) nums = ret states ->
    map (fun name => (name, getData w name (igb_int n))) names =
      map (fun b : block => (fst b, States (snd b))) resdata ->
    Forall (fun b : block => well_formed (snd b)) resdata ->
    combine nums states = before ++ (m, st) :: after ->
    Forall (fun o : Z * Z =>
              exists name d,
                Py.index (residue_labels w s) (fst o - 1) = Some name /\
                In (name, d) resdata /\ 0 <= snd o < Py.len d) before ->
    Py.index (residue_labels w s) (m - 1) = Some name ->
    In (name, d) resdata ->
    st < 0 \/ Py.len d <= st ->
    failure w argv ExitStateRange
      ["Error: Residue states must range from 0 to num_states - 1 for each residue!"].

(** A computation that ends at the [sys.exit()] of [site], the lines
    [lines] being the last it has printed on stderr. *)
Definition stops {A} (site : exit_site) (lines : list string) (m : W A) : Prop :=
  exists out e, m = Abort out (e ++ lines) (SysExit site).

(** An argument of the command line among those already read. *)
Definition seen (flag : string) (args : list string) : bool :=
  existsb (String.eqb flag) args.

(** No flag among [args] meets its opposite, neither in [s] nor earlier in
    [args]. *)
Definition unopposed (s : settings) (args : list string) : Prop :=
  (seen "-resname" args = true ->
   nresname_spec s = false /\ seen "-notresname" args = false) /\
  (seen "-notresname" args = true ->
   resname_spec s = false /\ seen "-resname" args = false) /\
  (seen "-resnum" args = true ->
   nresnum_spec s = false /\ seen "-notresnum" args = false) /\
  (seen "-notresnum" args = true ->
   resnum_spec s = false /\ seen "-resnum" args = false).

(** ** Topologies the script turns down *)

Module Faulty.

(** No file of that name. *)
Definition no_file : world := {|
  fileexists := fun _ => -1;
  getallresinfo := getallresinfo Sample.full;
  getbondiset := getbondiset Sample.full;
  getData := getData Sample.full;
  py_float := Sample.float_of
|}.

(** Another radius set than mbondi2. *)
Definition bondi : world := {|
  fileexists := fun _ => 0;
  getallresinfo := getallresinfo Sample.full;
  getbondiset := fun _ => "Bondi radii (bondi)";
  getData := getData Sample.full;
  py_float := Sample.float_of
|}.

(** No residue labels, no residue pointers. *)
Definition no_records : world := {|
  fileexists := fun _ => 0;
  getallresinfo := fun _ _ => [];
  getbondiset := getbondiset Sample.full;
  getData := getData Sample.full;
  py_float := Sample.float_of
|}.

End Faulty.

(** * Properties *)

(** ** Sequencing *)

Lemma bind_ret {A B} (a : A) (f : A -> W B) : bind (ret a) f = f a.
Proof. unfold ret, bind. destruct (f a); reflexivity. Qed.

Lemma bind_Done {A B} out err (a : A) (f : A -> W B) :
  bind (Done out err a) f =
  match f a with
  | Done out' err' b => Done (out ++ out') (err ++ err') b
  | Abort out' err' why => Abort (out ++ out') (err ++ err') why
  end.
Proof. reflexivity. Qed.

Lemma bind_assoc {A B C} (m : W A) (f : A -> W B) (g : B -> W C) :
  bind (bind m f) g = bind m (fun a => bind (f a) g).
Proof.
  destruct m as [o e a|]; simpl; [|reflexivity].
  destruct (f a) as [o' e' b|]; simpl; [|reflexivity].
  destruct (g b); simpl; now rewrite !app_assoc.
Qed.

Lemma bind_ext {A B} (m : W A) (f g : A -> W B) :
  (forall a, f a = g a) -> bind m f = bind m g.
Proof. intros H. destruct m; simpl; [now rewrite H | reflexivity]. Qed.

(** ** Line wrapping (addOn) *)

Lemma append_assoc (a b c : string) : (a +++ b) +++ c = a +++ b +++ c.
Proof. induction a; simpl; congruence. Qed.

Lemma append_empty_r (a : string) : a +++ "" = a.
Proof. induction a; simpl; congruence. Qed.

Lemma length_append (a b : string) :
  String.length (a +++ b) = (String.length a + String.length b)%nat.
Proof. induction a; simpl; congruence. Qed.

Lemma join_app (l1 l2 : list string) : join (l1 ++ l2) = join l1 +++ join l2.
Proof.
  induction l1 as [|t l1 IH]; simpl; [reflexivity|].
  now rewrite IH, append_assoc.
Qed.

Lemma join_single (t : string) : join [t] = t.
Proof. apply append_empty_r. Qed.

Lemma addOn_fits line toadd :
  (String.length line + String.length toadd <= 80)%nat ->
  addOn line toadd = ret (line +++ toadd).
Proof.
  intros H. unfold addOn.
  now destruct (Nat.ltb_spec 80 (String.length line + String.length toadd)); [lia|].
Qed.

Lemma addOn_wraps line toadd :
  (80 < String.length line + String.length toadd)%nat ->
  addOn line toadd = Done [line] [] (" " +++ toadd).
Proof.
  intros H. unfold addOn.
  now destruct (Nat.ltb_spec 80 (String.length line + String.length toadd)); [|lia].
Qed.

Lemma add_tokens_cons line t ts :
  add_tokens line (t :: ts) = (l <- addOn line t ;; add_tokens l ts).
Proof. reflexivity. Qed.

(** What [add_tokens] does to the line [pfx +++ join cur]: the tokens are
    cut into [first], which stays on the current line, and the groups of
    [rest], one per further line. *)
Lemma add_tokens_chunks (tokens : list string) :
  forall pfx cur,
  exists first rest printed final,
    add_tokens (pfx +++ join cur) tokens = Done printed [] final /\
    printed ++ [final] =
      (pfx +++ join (cur ++ first)) :: map (fun c => " " +++ join c) rest /\
    tokens = first ++ List.concat rest /\
    Forall (fun c => c <> []) rest /\
    (first <> [] -> (String.length (pfx +++ join (cur ++ first)) <= 80)%nat) /\
    Forall chunk_ok rest.
Proof.
  induction tokens as [|t ts IH]; intros pfx cur.
  - exists [], [], [], (pfx +++ join cur). rewrite app_nil_r.
    refine (conj eq_refl (conj eq_refl (conj eq_refl (conj _ (conj _ _)))));
      auto.
    intros H; now elim H.
  - rewrite add_tokens_cons.
    destruct (Nat.le_gt_cases (String.length (pfx +++ join cur) + String.length t) 80)
      as [Hfit|Hfit].
    + (* the token goes behind the others *)
      rewrite (addOn_fits _ _ Hfit), bind_ret.
      destruct (IH pfx (cur ++ [t]))
        as (f' & r' & p' & l' & Hrun & Hlines & Hts & Hne & Hlen & Hok).
      rewrite join_app, join_single, <- append_assoc in Hrun.
      rewrite <- app_assoc in Hlines, Hlen. simpl in Hlines, Hlen.
      exists (t :: f'), r', p', l'.
      refine (conj Hrun (conj Hlines (conj _ (conj Hne (conj _ Hok))))).
      * simpl. now rewrite Hts.
      * intros _. destruct f' as [|t' f'].
        -- rewrite join_app, join_single, <- append_assoc, length_append. lia.
        -- apply Hlen. discriminate.
    + (* the token opens a new line *)
      rewrite (addOn_wraps _ _ Hfit), bind_Done.
      destruct (IH " " [t])
        as (f' & r' & p' & l' & Hrun & Hlines & Hts & Hne & Hlen & Hok).
      rewrite join_single in Hrun. rewrite Hrun.
      exists [], ((t :: f') :: r'), ((pfx +++ join cur) :: p'), l'.
      refine (conj eq_refl (conj _ (conj _ (conj _ (conj _ _))))).
      * simpl in Hlines |- *. now rewrite app_nil_r, Hlines.
      * simpl. now rewrite Hts.
      * constructor; [discriminate | exact Hne].
      * intros H; now elim H.
      * constructor; [|exact Hok].
        destruct f' as [|t' f'].
        -- unfold chunk_ok. rewrite join_single.
           destruct (Nat.le_gt_cases 80 (String.length t)) as [Hl|Hl].
           ++ right. now exists t.
           ++ left. simpl. lia.
        -- left. apply Hlen. discriminate.
Qed.

(** C7, as amended.  The lines printed for a field are the tokens in their
    order, cut between tokens only: the first line is the header followed
    by whole tokens, every further line is one blank followed by at least
    one whole token.  With a header of at most 80 characters the first line
    has at most 80 characters, and so has every further line except one
    that holds a single token of 80 characters or more. *)
Theorem field_wraps_between_tokens (header : string) (tokens : list string) :
  (String.length header <= 80)%nat ->
  exists first rest,
    tokens = first ++ List.concat rest /\
    Forall (fun c => c <> []) rest /\
    field header tokens =
      Done ((header +++ join first) :: map (fun c => " " +++ join c) rest)
           [] tt /\
    (String.length (header +++ join first) <= 80)%nat /\
    Forall chunk_ok rest.
Proof.
  intros Hheader.
  destruct (add_tokens_chunks tokens header [])
    as (first & rest & printed & final & Hrun & Hlines & Htokens & Hne & Hlen & Hok).
  simpl in Hrun, Hlines, Hlen. rewrite append_empty_r in Hrun.
  exists first, rest.
  refine (conj Htokens (conj Hne (conj _ (conj _ Hok)))).
  - unfold field. rewrite Hrun. simpl. now rewrite Hlines.
  - destruct first as [|t first].
    + simpl. now rewrite append_empty_r.
    + apply Hlen. discriminate.
Qed.

Lemma field_wraps_between_tokens_witness :
  exists first rest,
    ["1.0,"; "2.0,"] = first ++ List.concat rest /\
    Forall (fun c => c <> []) rest /\
    field " CHRGDAT=" ["1.0,"; "2.0,"] =
      Done ((" CHRGDAT=" +++ join first) :: map (fun c => " " +++ join c) rest)
           [] tt /\
    (String.length (" CHRGDAT=" +++ join first) <= 80)%nat /\
    Forall chunk_ok rest.
Proof.
  apply (field_wraps_between_tokens " CHRGDAT=" ["1.0,"; "2.0,"]).
  simpl. lia.
Defined.

(** When no token has more than 79 characters, no line has more than 80. *)
Corollary field_lines_within_80 (header : string) (tokens : list string) :
  (String.length header <= 80)%nat ->
  Forall (fun t => (String.length t <= 79)%nat) tokens ->
  Forall (fun l => (String.length l <= 80)%nat) (stdout (field header tokens)).
Proof.
  intros Hheader Hshort.
  destruct (add_tokens_chunks tokens header [])
    as (first & rest & printed & final & Hrun & Hlines & Htokens & _ & Hlen & Hok).
  simpl in Hrun, Hlines, Hlen. rewrite append_empty_r in Hrun.
  unfold field. rewrite Hrun. simpl. rewrite Hlines.
  constructor.
  - destruct first as [|t first].
    + simpl. now rewrite append_empty_r.
    + apply Hlen. discriminate.
  - apply Forall_forall. intros l Hl.
    apply in_map_iff in Hl. destruct Hl as (c & <- & Hc).
    rewrite Forall_forall in Hok, Hshort.
    destruct (Hok c Hc) as [H | (t & -> & Ht)]; [exact H|].
    assert (In t tokens) as Hin.
    { rewrite Htokens. apply in_or_app. right.
      apply in_concat. exists [t]. split; [exact Hc | now left]. }
    specialize (Hshort t Hin). simpl in Hshort. lia.
Qed.

(** The fields of the script are such fields.  A loop that gets one token
    per item and hands it to [addOn] prints what [field] prints for the
    tokens, as long as every token can be got. *)
Lemma token_loop_is_field {A B} e (o : A -> option B) (value : A -> B)
  (token : A -> B -> string) items :
  (forall a, In a items -> o a = Some (value a)) ->
  forall header,
    foldM (fun line a => v <- get e (o a) ;; addOn line (token a v))
          items header
    = add_tokens header (map (fun a => token a (value a)) items).
Proof.
  induction items as [|a items IH]; intros Hvalue header; [reflexivity|].
  cbn [foldM map]. rewrite add_tokens_cons.
  rewrite (Hvalue a (or_introl eq_refl)). cbn [get]. rewrite bind_ret.
  apply bind_ext. intros line. apply IH.
  intros a' Ha'. apply Hvalue. now right.
Qed.

Lemma index_1_nth (rec : state_record) :
  (2 <= List.length rec)%nat -> Py.index rec 1 = Some (nth 1 rec "").
Proof.
  destruct rec as [|e [|p rec]]; simpl; try lia. intros _.
  unfold Py.index, Py.len. simpl List.length.
  now destruct (Z.ltb_spec 1 (Z.of_nat (S (S (List.length rec))))); [|lia].
Qed.

(** PROTCNT, on records that have a proton count, is the field of the
    proton counts. *)
Lemma protcnt_is_field resdata :
  Forall (fun rec => (2 <= List.length rec)%nat) (flat_map snd resdata) ->
  protcnt resdata =
  field " PROTCNT=" (map (fun rec => nth 1 rec "" +++ ",") (flat_map snd resdata)).
Proof.
  intros Hrec. unfold protcnt, field.
  rewrite (token_loop_is_field Py.IndexError (fun rec => Py.index rec 1)
             (fun rec => nth 1 rec "") (fun _ p => p +++ ",")); [reflexivity|].
  intros rec Hin. rewrite Forall_forall in Hrec. now apply index_1_nth, Hrec.
Qed.

(** C7 as stated fails: a token of exactly 80 characters, not longer than
    80, is printed behind the blank of a continuation line, which makes a
    line of 81 characters. *)
Lemma token_of_80_makes_line_of_81 :
  String.length Sample.token80 = 80%nat /\
  field " CHRGDAT=" [Sample.token80] =
    Done [" CHRGDAT="; " " +++ Sample.token80] [] tt /\
  String.length (" " +++ Sample.token80) = 81%nat.
Proof. repeat split. Qed.

(** ** The pKa filter *)

(** The built-in names next to their reference pKa values, as lines 28-29
    and 200-201 pair them. *)
Lemma built_in_pKas :
  combine (Py.split titratable) (Py.split exp_pkas) =
  [("AS4", "4.0"); ("GL4", "4.4"); ("HIP", "6.5");
   ("TYR", "9.6"); ("LYS", "10.4"); ("CYS", "8.55")] /\
  titrate_name_holder = ["AS4"; "GL4"; "HIP"; "TYR"; "LYS"; "CYS"] /\
  List.length titrate_pka_holder = List.length titrate_name_holder.
Proof. repeat split. Qed.

(** The filter never takes a name out: it hands [titrate_residues] back
    untouched, or stops on the TypeError of line 208. *)
Lemma pKa_filter_all_or_nothing pkas lo hi titrate_residues :
  pKa_filter pkas lo hi titrate_residues = ret titrate_residues \/
  pKa_filter pkas lo hi titrate_residues = raise Py.TypeError.
Proof.
  induction pkas as [|pka pkas IH]; simpl; [now left|].
  destruct ((pka <? lo)%float || (hi <? pka)%float); [now right | exact IH].
Qed.

(** C1.  With the bounds 5.0 and 11.0 the filter meets AS4's 4.0 first,
    asks whether the float 4.0 is [in] the string of names, and the run
    ends there with a TypeError: AS4 and GL4 are not removed. *)
Theorem pKa_range_5_11_is_a_TypeError :
  pKa_filter titrate_pka_holder 5.0 11.0 titratable = raise Py.TypeError /\
  cpinutil Sample.full
    (Sample.command ["-minpKa"; "5.0"; "-maxpKa"; "11.0"])
  = Abort [] [] (Uncaught Py.TypeError).
Proof. split; reflexivity. Qed.

(** ** Selection *)

(** C3.  The residue number 0 is below 1; line 221 only looks at the upper
    end, [prmtop_residues[-1]] is the last residue, TYR, and 0 is
    selected. *)
Theorem resnum_0_is_selected :
  selector "prmtop" Sample.labels titratable [0] [] = Done [] [] [0] /\
  exists out,
    cpinutil Sample.full (Sample.command ["-resnum"; "0"])
    = Done out ["CPin created!"] tt /\
    In " RESNAME='System: Unknown','Residue: TYR 0'," out.
Proof.
  split; [reflexivity|].
  eexists. split; [reflexivity|]. simpl. tauto.
Qed.

(** C4.  With [-notresnum 3,4] the selection holds residues 3 and 4 when
    line 242 tests it, and nothing once lines 248-252 have run; the script
    goes on and prints a namelist for no residue at all. *)
Theorem notresnum_can_empty_the_selection :
  selector "prmtop" Sample.labels titratable [] [3; 4] = Done [] [] [] /\
  cpinutil Sample.full (Sample.command ["-notresnum"; "3,4"])
  = Done ["&CNSTPH"; " CHRGDAT="; " PROTCNT="; " RESNAME='System: Unknown',";
          " RESSTATE="; " "; " STATENE="; " TRESCNT=0,"; "/"]
         ["CPin created!"] tt.
Proof. split; reflexivity. Qed.

Lemma bind_Done_inv {A B} (m : W A) (f : A -> W B) out err b :
  bind m f = Done out err b ->
  exists o1 e1 a o2 e2,
    m = Done o1 e1 a /\ f a = Done o2 e2 b /\
    out = o1 ++ o2 /\ err = e1 ++ e2.
Proof.
  destruct m as [o1 e1 a|]; simpl; [|discriminate].
  destruct (f a) as [o2 e2 b'|] eqn:Hf; [|discriminate].
  intros H. injection H as <- <- <-.
  now exists o1, e1, a, o2, e2.
Qed.

Lemma len_cons {A} (a : A) (l : list A) : Py.len (a :: l) = Py.len l + 1.
Proof. unfold Py.len. simpl List.length. lia. Qed.

Lemma len_nonneg {A} (l : list A) : 0 <= Py.len l.
Proof. unfold Py.len. lia. Qed.

(** Within [1 .. len], [l[n-1]] is the [n]-th entry. *)
Lemma index_in_range {A} (l : list A) (n : Z) :
  1 <= n <= Py.len l ->
  Py.index l (n - 1) = nth_error l (Z.to_nat (n - 1)).
Proof.
  intros H. unfold Py.index.
  destruct (Z.leb_spec 0 (n - 1)); [|lia].
  now destruct (Z.ltb_spec (n - 1) (Py.len l)); [|lia].
Qed.

(** The scan of lines 235-238 selects in ascending order, from residues
    whose names pass the [in] test. *)
Lemma select_matching_spec titrate residues :
  forall x,
    StronglySorted Z.lt (select_matching residues x titrate) /\
    forall n, In n (select_matching residues x titrate) ->
      x < n <= x + Py.len residues /\
      exists name, nth_error residues (Z.to_nat (n - 1 - x)) = Some name /\
                   Py.contains name titrate = true.
Proof.
  induction residues as [|r residues IH]; intros x; simpl.
  - split; [constructor | intros n []].
  - destruct (IH (x + 1)) as [Hsorted Hin].
    assert (forall n, In n (select_matching residues (x + 1) titrate) ->
              x < n <= x + Py.len (r :: residues) /\
              exists name,
                nth_error (r :: residues) (Z.to_nat (n - 1 - x)) = Some name /\
                Py.contains name titrate = true) as Hrest.
    { intros n Hn. destruct (Hin n Hn) as [Hrange (name & Hnth & Hname)].
      rewrite len_cons. split; [lia|]. exists name. split; [|exact Hname].
      replace (Z.to_nat (n - 1 - x)) with (S (Z.to_nat (n - 1 - (x + 1)))) by lia.
      exact Hnth. }
    destruct (Py.contains r titrate) eqn:Hr; [|now split].
    split.
    + constructor; [exact Hsorted|].
      apply Forall_forall. intros n Hn. destruct (Hin n Hn). lia.
    + intros n [<- | Hn]; [|now apply Hrest].
      rewrite len_cons. pose proof (len_nonneg residues).
      split; [lia|]. exists r.
      replace (x + 1 - 1 - x) with 0 by lia. now split.
Qed.

Lemma pop_first_incl m l n : In n (pop_first m l) -> In n l.
Proof.
  induction l as [|a l IH]; simpl; [tauto|].
  destruct (m =? a); simpl; tauto.
Qed.

Lemma pop_first_sorted m l :
  StronglySorted Z.lt l -> StronglySorted Z.lt (pop_first m l).
Proof.
  induction 1 as [|a l Hl IH Ha]; simpl; [constructor|].
  destruct (m =? a); [exact Hl|].
  constructor; [exact IH|].
  rewrite Forall_forall in *. intros n Hn. apply Ha.
  now apply pop_first_incl with m.
Qed.

Lemma pop_all_incl notresnums : forall l n,
  In n (fold_left (fun l n => pop_first n l) notresnums l) -> In n l.
Proof.
  induction notresnums as [|m ms IH]; simpl; [tauto|].
  intros l n H. apply pop_first_incl with m. now apply IH.
Qed.

Lemma pop_all_sorted notresnums : forall l,
  StronglySorted Z.lt l ->
  StronglySorted Z.lt (fold_left (fun l n => pop_first n l) notresnums l).
Proof.
  induction notresnums as [|m ms IH]; simpl; [tauto|].
  intros l H. apply IH. now apply pop_first_sorted.
Qed.

Lemma sorted_NoDup l : StronglySorted Z.lt l -> NoDup l.
Proof.
  induction 1 as [|a l Hl IH Ha]; constructor; [|exact IH].
  intros Hin. rewrite Forall_forall in Ha. specialize (Ha a Hin). lia.
Qed.

(** Lines 219-231 hand back the numbers of [-resnum] as they were given,
    provided each of them passes the two tests. *)
Lemma select_listed_spec prmtop residues titrate resnums :
  forall acc out err nums,
    foldM (select_number prmtop residues titrate) resnums acc
      = Done out err nums ->
    nums = acc ++ resnums /\
    forall n, In n resnums ->
      exists name, Py.index residues (n - 1) = Some name /\
                   Py.contains name titrate = true.
Proof.
  induction resnums as [|n resnums IH]; intros acc out err nums; simpl.
  - intros H. injection H as _ _ <-. rewrite app_nil_r. split; [reflexivity | intros n []].
  - intros H. apply bind_Done_inv in H.
    destruct H as (o1 & e1 & acc' & o2 & e2 & Hstep & Hrest & _ & _).
    unfold select_number in Hstep.
    destruct (Py.len residues <? n); [discriminate|].
    destruct (Py.index residues (n - 1)) as [name|] eqn:Hname; [|discriminate].
    cbn [get] in Hstep. rewrite bind_ret in Hstep.
    destruct (Py.contains name titrate) eqn:Hin; [|discriminate].
    simpl in Hstep. injection Hstep as _ _ <-.
    destruct (IH _ _ _ _ Hrest) as [-> Hall].
    split; [now rewrite <- app_assoc|].
    intros m [<- | Hm]; [now exists name | now apply Hall].
Qed.

Lemma subsequence_refl {A} (l : list A) : subsequence l l.
Proof. induction l; constructor; assumption. Qed.

Lemma subsequence_trans {A} (l1 l2 l3 : list A) :
  subsequence l1 l2 -> subsequence l2 l3 -> subsequence l1 l3.
Proof.
  intros H12 H23. revert l1 H12.
  induction H23 as [|a l2 l3 _ IH|a l2 l3 _ IH]; intros l1 H12.
  - exact H12.
  - constructor. now apply IH.
  - inversion H12 as [|? ? ? H|? ? ? H]; subst.
    + apply sub_skip. now apply IH.
    + apply sub_keep. now apply IH.
Qed.

Lemma pop_first_subsequence m l : subsequence (pop_first m l) l.
Proof.
  induction l as [|a l IH]; simpl; [constructor|].
  destruct (m =? a).
  - apply sub_skip, subsequence_refl.
  - now apply sub_keep.
Qed.

Lemma pop_all_subsequence notresnums : forall l,
  subsequence (fold_left (fun l n => pop_first n l) notresnums l) l.
Proof.
  induction notresnums as [|m ms IH]; intros l; simpl.
  - apply subsequence_refl.
  - eapply subsequence_trans; [apply IH | apply pop_first_subsequence].
Qed.

Lemma pop_first_count m l n :
  count_occ Z.eq_dec (pop_first m l) n =
  (count_occ Z.eq_dec l n - (if Z.eq_dec m n then 1 else 0))%nat.
Proof.
  induction l as [|a l IH]; simpl; [reflexivity|].
  destruct (Z.eqb_spec m a) as [<- | Hma].
  - destruct (Z.eq_dec m n); lia.
  - simpl. rewrite IH.
    destruct (Z.eq_dec a n), (Z.eq_dec m n); try lia.
Qed.

Lemma pop_all_count notresnums : forall l n,
  count_occ Z.eq_dec (fold_left (fun l n => pop_first n l) notresnums l) n =
  (count_occ Z.eq_dec l n - count_occ Z.eq_dec notresnums n)%nat.
Proof.
  induction notresnums as [|m ms IH]; intros l n; simpl.
  - lia.
  - rewrite IH, pop_first_count. destruct (Z.eq_dec m n); lia.
Qed.

(** A full name that occurs in the string of names is one of the names. *)

Lemma prefix_split a : forall s,
  String.prefix a s = true -> exists rest, s = a +++ rest.
Proof.
  induction a as [|c a IH]; intros s H.
  - now exists s.
  - destruct s as [|c' s]; [discriminate H|]. simpl in H.
    destruct (Ascii.ascii_dec c c') as [<- | _]; [|discriminate H].
    destruct (IH s H) as (rest & ->). now exists rest.
Qed.

Lemma string_of_list_ascii_app l l' :
  string_of_list_ascii (l ++ l') =
  string_of_list_ascii l +++ string_of_list_ascii l'.
Proof. induction l as [|c l IH]; simpl; [reflexivity | now rewrite IH]. Qed.

Lemma length_string_of_list_ascii l :
  String.length (string_of_list_ascii l) = List.length l.
Proof. induction l as [|c l IH]; simpl; [reflexivity | now rewrite IH]. Qed.

Lemma split_ws_run a : forall cur rest,
  Forall (fun c => Py.isspace c = false) (list_ascii_of_string a) ->
  Py.split_ws cur (a +++ rest) =
  Py.split_ws (rev (list_ascii_of_string a) ++ cur) rest.
Proof.
  induction a as [|c a IH]; intros cur rest Ha; [reflexivity|].
  simpl in Ha. inversion Ha as [|? ? Hc Ha']. subst.
  cbn [String.append Py.split_ws]. rewrite Hc, (IH _ _ Ha').
  cbn [list_ascii_of_string rev]. now rewrite <- app_assoc.
Qed.

Lemma split_ws_head rest : forall acc,
  acc <> [] ->
  exists run ts,
    Py.split_ws acc rest = (string_of_list_ascii (rev acc) +++ run) :: ts.
Proof.
  induction rest as [|c rest IH]; intros acc Hacc.
  - exists "", []. destruct acc as [|a acc]; [now elim Hacc|].
    cbn [Py.split_ws]. now rewrite append_empty_r.
  - cbn [Py.split_ws]. destruct (Py.isspace c).
    + exists "", (Py.split_ws [] rest). destruct acc as [|a acc]; [now elim Hacc|].
      now rewrite append_empty_r.
    + destruct (IH (c :: acc)) as (run & ts & ->); [discriminate|].
      exists (String c run), ts. f_equal.
      cbn [rev]. rewrite string_of_list_ascii_app, append_assoc. reflexivity.
Qed.

Lemma whole_name name :
  name <> "" ->
  Forall (fun c => Py.isspace c = false) (list_ascii_of_string name) ->
  forall s cur,
    Forall (fun t => (String.length t <= String.length name)%nat)
           (Py.split_ws cur s) ->
    Py.contains name s = true ->
    In name (Py.split_ws cur s).
Proof.
  intros Hne Hname. induction s as [|c s IH]; intros cur Hlen Hin.
  - destruct name as [|c0 name]; [now elim Hne | discriminate Hin].
  - cbn [Py.contains] in Hin. apply orb_true_iff in Hin.
    destruct Hin as [Hpre | Hin].
    + destruct (prefix_split _ _ Hpre) as (rest & Hs).
      rewrite Hs in *. rewrite (split_ws_run _ _ _ Hname) in *.
      destruct (split_ws_head rest (rev (list_ascii_of_string name) ++ cur))
        as (run & ts & Heq).
      { destruct name as [|c0 name]; [now elim Hne|]. simpl.
        intros H. apply app_eq_nil in H. destruct H as [H _].
        apply app_eq_nil in H. destruct H as [_ H]. discriminate H. }
      rewrite Heq in *. left.
      inversion Hlen as [|? ? Ht _]. subst.
      rewrite rev_app_distr, rev_involutive, string_of_list_ascii_app,
        string_of_list_ascii_of_string in *.
      rewrite !length_append, length_string_of_list_ascii, length_rev in Ht.
      destruct cur as [|c1 cur]; [|simpl in Ht; lia].
      destruct run as [|c2 run]; [|simpl in Ht; lia].
      simpl. now rewrite append_empty_r.
    + cbn [Py.split_ws] in *. destruct (Py.isspace c) eqn:Hc.
      * apply Forall_app in Hlen. destruct Hlen as [_ Hlen].
        apply in_or_app. right. now apply IH.
      * now apply IH.
Qed.

(** C5, as amended.  Without [-resnum] the selector returns numbers in
    strictly ascending order, so none comes twice.  With [-resnum] it
    returns the numbers given, in the order given and as often as given,
    less one occurrence for every entry of [-notresnum] that meets one:
    what comes back is a subsequence of the numbers given and holds each
    number as often as it was given less as often as it was excluded.  And
    a returned residue whose name is a full name (not empty, free of
    blanks, no shorter than any active name) bears one of the active
    names. *)
Theorem selector_returns prmtop residues titrate resnums notresnums out err nums :
  selector prmtop residues titrate resnums notresnums = Done out err nums ->
  (resnums = [] -> StronglySorted Z.lt nums /\ NoDup nums) /\
  (resnums <> [] ->
     subsequence nums resnums /\
     (forall n, count_occ Z.eq_dec nums n =
                (count_occ Z.eq_dec resnums n -
                 count_occ Z.eq_dec notresnums n)%nat) /\
     (notresnums = [] -> nums = resnums)) /\
  (forall n, In n nums ->
     exists name, Py.index residues (n - 1) = Some name /\
                  (full_name titrate name -> In name (Py.split titrate))).
Proof.
  unfold selector. intros H.
  apply bind_Done_inv in H.
  destruct H as (o1 & e1 & chosen & o2 & e2 & Hsel & H & _ & _).
  apply bind_Done_inv in H.
  destruct H as (o3 & e3 & [] & o4 & e4 & _ & H & _ & _).
  injection H as _ _ <-.
  assert (forall n name,
            Py.index residues (n - 1) = Some name ->
            Py.contains name titrate = true ->
            exists name, Py.index residues (n - 1) = Some name /\
              (full_name titrate name -> In name (Py.split titrate))) as Hwhole.
  { intros n name Hidx Hin. exists name. split; [exact Hidx|].
    intros (Hne & Hchars & Hlen).
    now apply (whole_name name Hne Hchars titrate []). }
  destruct resnums as [|r resnums]; simpl in Hsel.
  - injection Hsel as _ _ <-.
    destruct (select_matching_spec titrate residues 0) as [Hsorted Hin].
    split; [|split].
    + intros _. pose proof (pop_all_sorted notresnums _ Hsorted) as Hs.
      split; [exact Hs | now apply sorted_NoDup].
    + intros Hne. now elim Hne.
    + intros n Hn. apply pop_all_incl in Hn.
      destruct (Hin n Hn) as [Hrange (name & Hnth & Hname)].
      apply (Hwhole n name); [|exact Hname].
      rewrite index_in_range by lia.
      now replace (n - 1) with (n - 1 - 0) by lia.
  - unfold select_listed in Hsel.
    apply select_listed_spec in Hsel. destruct Hsel as [-> Hall].
    cbn [app] in *.
    split; [|split].
    + discriminate.
    + intros _. split; [apply pop_all_subsequence|].
      split; [apply pop_all_count|]. now intros ->.
    + intros n Hn. apply pop_all_incl in Hn.
      destruct (Hall n Hn) as (name & Hidx & Hname).
      now apply (Hwhole n name).
Qed.

Lemma selector_returns_witness :
  (StronglySorted Z.lt [3; 4] /\ NoDup [3; 4]) /\
  (subsequence [3; 4] [4; 3; 4] /\
   (forall n, count_occ Z.eq_dec [3; 4] n =
              Nat.sub (count_occ Z.eq_dec [4; 3; 4] n)
                      (count_occ Z.eq_dec [4] n))) /\
  (exists name, Py.index Sample.labels (4 - 1) = Some name /\
                In name (Py.split titratable)).
Proof.
  destruct (selector_returns "prmtop" Sample.labels titratable [] []
              [] [] [3; 4] eq_refl) as (Hscan & _ & Hnames).
  destruct (selector_returns "prmtop" Sample.labels titratable [4; 3; 4] [4]
              [] [] [3; 4] eq_refl) as (_ & Hlisted & _).
  split; [now apply Hscan|]. split.
  - destruct Hlisted as (Hsub & Hcount & _); [discriminate|]. now split.
  - destruct (Hnames 4) as (name & Hidx & Hfull); [right; now left|].
    exists name. split; [exact Hidx|]. apply Hfull.
    change (Some "TYR" = Some name) in Hidx. injection Hidx as <-.
    split; [discriminate|]. split.
    + repeat constructor.
    + change (Forall (fun t => (String.length t <= 3)%nat)
                     ["AS4"; "GL4"; "HIP"; "TYR"; "LYS"; "CYS"]).
      repeat constructor.
Defined.

(** C5 as stated fails: [-resnum 3,3] selects residue 3 twice, as the
    numbers were given. *)
Lemma selector_keeps_duplicates :
  selector "prmtop" Sample.labels titratable [3; 3] [] = Done [] [] [3; 3] /\
  ~ NoDup [3; 3].
Proof.
  split; [reflexivity|].
  intros H. inversion H as [|? ? Hin _]. apply Hin. now left.
Qed.

(** Lines 226 and 237 test [in] against the string of names, whereas the
    comment of line 27 and the message of line 228 speak of a list of
    titratable residues: a residue called LY, which is none of the names,
    is selected for being a part of "LYS". *)
Lemma fragment_of_a_name_is_selected :
  selector "prmtop" ["LY"; "GLU"] titratable [] [] = Done [] [] [1] /\
  ~ In "LY" (Py.split titratable).
Proof.
  split; [reflexivity|].
  simpl. intros H. repeat (destruct H as [H|H]; [discriminate|]). exact H.
Qed.

(** ** Offsets (STATEINF) *)

Lemma index_0 {A} (a : A) (l : list A) : Py.index (a :: l) 0 = Some a.
Proof.
  unfold Py.index. rewrite len_cons. pose proof (len_nonneg l).
  now destruct (Z.ltb_spec 0 (Py.len l + 1)); [|lia].
Qed.

(** The walk of lines 368-375 stops at the block of [name] with the sums
    over the blocks before it. *)
Lemma locate_spec name b later earlier :
  forall startchrg startst,
    fst b = name ->
    ~ In name (map fst earlier) ->
    Forall (fun b => snd b <> []) (earlier ++ [b]) ->
    locate name (earlier ++ b :: later) startchrg startst =
    ret (startchrg + first_charge earlier, startst + first_state earlier,
         Some (num_atoms b, num_states b)).
Proof.
  induction earlier as [|[n d] earlier IH]; intros c s Hb Hnew Hdata.
  - destruct b as [n d]. simpl in Hb. subst n.
    inversion Hdata as [|? ? Hd _]. simpl in Hd.
    destruct d as [|rec0 d]; [now elim Hd|].
    cbn [app locate]. rewrite index_0. cbn [get]. rewrite bind_ret.
    rewrite String.eqb_refl. simpl first_charge. simpl first_state.
    unfold num_atoms, num_states. simpl snd. now rewrite !Z.add_0_r.
  - inversion Hdata as [|? ? Hd Hrest]. simpl in Hd.
    destruct d as [|rec0 d]; [now elim Hd|].
    cbn [app locate]. rewrite index_0. cbn [get]. rewrite bind_ret.
    destruct (String.eqb_spec name n) as [->|_].
    + elim Hnew. now left.
    + rewrite IH; auto.
      * change (first_charge ((n, rec0 :: d) :: earlier))
          with ((Py.len rec0 - 2) * Py.len (rec0 :: d) + first_charge earlier).
        change (first_state ((n, rec0 :: d) :: earlier))
          with (Py.len (rec0 :: d) + first_state earlier).
        f_equal. f_equal. f_equal; lia.
      * intros Hin. apply Hnew. now right.
Qed.

(** The deduplicated names are pairwise different (lines 258-269), and the
    blocks of [resdata] carry them in the same order (lines 292-305). *)
Lemma add_name_NoDup names name : NoDup names -> NoDup (add_name names name).
Proof.
  intros Hnames. unfold add_name. destruct names as [|n names].
  - constructor; [intros [] | constructor].
  - destruct (existsb (fun n0 => String.eqb n0 name) (n :: names)) eqn:Hex;
      [exact Hnames|].
    apply NoDup_app; [exact Hnames | constructor; [intros [] | constructor] |].
    intros m Hm [Heq | []]. subst m.
    assert (existsb (fun n0 => String.eqb n0 name) (n :: names) = true) as Hyes.
    { apply existsb_exists. exists name.
      split; [exact Hm | apply String.eqb_refl]. }
    congruence.
Qed.

Lemma residue_names_NoDup residues nums :
  forall acc out err names,
    NoDup acc ->
    foldM (name_of residues) nums acc = Done out err names ->
    NoDup names.
Proof.
  induction nums as [|n nums IH]; intros acc out err names Hacc; simpl.
  - intros H. now injection H as _ _ <-.
  - intros H. apply bind_Done_inv in H.
    destruct H as (o1 & e1 & acc' & o2 & e2 & Hstep & Hrest & _ & _).
    unfold name_of in Hstep.
    destruct (Py.index residues (n - 1)) as [name|]; [|discriminate].
    cbn [get] in Hstep. rewrite bind_ret in Hstep. injection Hstep as _ _ <-.
    apply (IH _ _ _ _ (add_name_NoDup acc name Hacc) Hrest).
Qed.

Lemma NoDup_names_earlier (earlier : list block) b later :
  NoDup (map fst (earlier ++ b :: later)) -> ~ In (fst b) (map fst earlier).
Proof.
  rewrite map_app. simpl. intros H Hin.
  apply NoDup_remove_2 in H. apply H. apply in_or_app. now left.
Qed.

Lemma chrgdat_names resdata out err blocks :
  chrgdat resdata = Done out err blocks -> map fst blocks = map fst resdata.
Proof.
  unfold chrgdat. intros H. apply bind_Done_inv in H.
  destruct H as (o1 & e1 & r & o2 & e2 & Hloop & Hprint & _ & _).
  apply bind_Done_inv in Hprint.
  destruct Hprint as (o3 & e3 & [] & o4 & e4 & _ & Hret & _ & _).
  injection Hret as _ _ <-.
  enough (forall line acc,
            foldM chrgdat_block resdata (line, acc) = Done o1 e1 r ->
            map fst (snd r) = map fst acc ++ map fst resdata) as Hall
    by apply (Hall _ _ Hloop).
  clear Hloop. revert o1 e1.
  induction resdata as [|[name d] resdata IH]; intros o1 e1 line acc; simpl.
  - intros H. injection H as _ _ <-. simpl. now rewrite app_nil_r.
  - intros H. apply bind_Done_inv in H.
    destruct H as (o5 & e5 & [l acc'] & o6 & e6 & Hstep & Hrest & _ & _).
    unfold chrgdat_block in Hstep. simpl in Hstep.
    destruct d as [|curdata]; [discriminate Hstep|].
    apply bind_Done_inv in Hstep.
    destruct Hstep as (o7 & e7 & l' & o8 & e8 & _ & Hret & _ & _).
    injection Hret as _ _ <- <-.
    rewrite (IH _ _ _ _ Hrest). rewrite map_app. simpl.
    now rewrite <- app_assoc.
Qed.

(** In a run, no name heads two blocks of [resdata]. *)
Lemma resdata_names_NoDup w igb residues nums o e names o' e' resdata :
  residue_names residues nums = Done o e names ->
  chrgdat (map (fun name => (name, getData w name igb)) names)
    = Done o' e' resdata ->
  map fst resdata = names /\ NoDup (map fst resdata).
Proof.
  intros Hnames Hdata. apply chrgdat_names in Hdata.
  rewrite map_map in Hdata. simpl in Hdata. rewrite map_id in Hdata.
  split; [exact Hdata|]. rewrite Hdata.
  apply (residue_names_NoDup residues nums [] o e names); [constructor|].
  exact Hnames.
Qed.

(** ** Runs that go through *)

Lemma returns_ret {A} (Q : A -> Prop) a : Q a -> returns Q (ret a).
Proof. intros H. now exists [], a. Qed.

Lemma returns_bind {A B} (P : A -> Prop) (Q : B -> Prop) m (f : A -> W B) :
  returns P m -> (forall a, P a -> returns Q (f a)) -> returns Q (bind m f).
Proof.
  intros (o & a & -> & Ha) Hf. destruct (Hf a Ha) as (o' & b & Hb & Hq).
  exists (o ++ o'), b. simpl. now rewrite Hb.
Qed.

Lemma returns_weaken {A} (P Q : A -> Prop) m :
  returns P m -> (forall a, P a -> Q a) -> returns Q m.
Proof. intros (o & a & -> & Ha) H. exists o, a. auto. Qed.

Lemma returns_foldM {A B} (I : B -> Prop) (f : B -> A -> W B) l :
  forall b,
    I b -> (forall b a, In a l -> I b -> returns I (f b a)) ->
    returns I (foldM f l b).
Proof.
  induction l as [|a l IH]; intros b Hb Hf; simpl.
  - now apply returns_ret.
  - apply returns_bind with I.
    + apply Hf; [now left | exact Hb].
    + intros b' Hb'. apply IH; [exact Hb'|].
      intros b0 a0 Hin. apply Hf. now right.
Qed.

Lemma returns_addOn line toadd : returns (fun _ => True) (addOn line toadd).
Proof.
  unfold addOn.
  destruct (80 <? String.length line + String.length toadd)%nat.
  - now exists [line], (" " +++ toadd).
  - now apply returns_ret.
Qed.

Lemma returns_print line : returns (fun _ => True) (print_stdout line).
Proof. now exists [line], tt. Qed.

Lemma returns_add_tokens line tokens :
  returns (fun _ => True) (add_tokens line tokens).
Proof.
  unfold add_tokens. apply returns_foldM; [exact I|].
  intros. apply returns_addOn.
Qed.

(** A run whose last words on stdout are [tail]. *)
Lemma returns_then_tail {A} (P : A -> Prop) m (f : A -> W unit) tail err :
  returns P m ->
  (forall a, P a -> exists out, f a = Done (out ++ tail) err tt) ->
  exists out, bind m f = Done (out ++ tail) err tt.
Proof.
  intros (o & a & -> & Ha) Hf. destruct (Hf a Ha) as (o' & Hb).
  exists (o ++ o'). simpl. now rewrite Hb, app_assoc.
Qed.

Lemma index_1 {A} (a b : A) (l : list A) : Py.index (a :: b :: l) 1 = Some b.
Proof.
  unfold Py.index. rewrite !len_cons. pose proof (len_nonneg l).
  now destruct (Z.ltb_spec 1 (Py.len l + 1 + 1)); [|lia].
Qed.

Lemma well_formed_records states :
  well_formed states ->
  forall rec, In rec states ->
    exists e p charges, rec = e :: p :: charges.
Proof.
  intros [_ Hall] rec Hin. rewrite Forall_forall in Hall.
  specialize (Hall rec Hin).
  destruct rec as [|e [|p charges]]; simpl in Hall; try lia.
  now exists e, p, charges.
Qed.

(** Lines 298-312 on blocks that are all there. *)
Lemma returns_chrgdat (blocks : list block) :
  returns (fun resdata => resdata = blocks)
          (chrgdat (map (fun b => (fst b, States (snd b))) blocks)).
Proof.
  unfold chrgdat.
  apply returns_bind with (fun r => snd r = blocks).
  - enough (forall done line,
              returns (fun r => snd r = done ++ blocks)
                (foldM chrgdat_block
                       (map (fun b => (fst b, States (snd b))) blocks)
                       (line, done))) as H by apply (H [] " CHRGDAT=").
    induction blocks as [|[n d] blocks IH]; intros done line; simpl.
    + apply returns_ret. simpl. now rewrite app_nil_r.
    + apply returns_bind with (fun r => snd r = done ++ [(n, d)]).
      * apply returns_bind with (fun _ => True); [apply returns_add_tokens|].
        intros l _. now apply returns_ret.
      * intros [l acc] Hacc. simpl in Hacc. subst acc.
        eapply returns_weaken; [apply IH|].
        intros r ->. now rewrite <- app_assoc.
  - intros r Hr. apply returns_bind with (fun _ => True); [apply returns_print|].
    intros _ _. now apply returns_ret.
Qed.

(** Lines 316-325 and 390-397 on well-formed data. *)
Lemma returns_protcnt resdata :
  Forall (fun b : block => well_formed (snd b)) resdata ->
  returns (fun _ => True) (protcnt resdata).
Proof.
  intros Hwf. unfold protcnt.
  apply returns_bind with (fun _ => True).
  - apply returns_foldM; [exact I|].
    intros line rec Hin _. apply in_flat_map in Hin.
    destruct Hin as (b & Hb & Hrec). rewrite Forall_forall in Hwf.
    destruct (well_formed_records _ (Hwf b Hb) rec Hrec) as (e & p & c & ->).
    rewrite index_1. cbn [get]. rewrite bind_ret. apply returns_addOn.
  - intros line _. apply returns_print.
Qed.

Lemma returns_statene resdata :
  Forall (fun b : block => well_formed (snd b)) resdata ->
  returns (fun _ => True) (statene resdata).
Proof.
  intros Hwf. unfold statene.
  apply returns_bind with (fun _ => True).
  - apply returns_foldM; [exact I|].
    intros line rec Hin _. apply in_flat_map in Hin.
    destruct Hin as (b & Hb & Hrec). rewrite Forall_forall in Hwf.
    destruct (well_formed_records _ (Hwf b Hb) rec Hrec) as (e & p & c & ->).
    rewrite index_0. cbn [get]. rewrite bind_ret. apply returns_addOn.
  - intros line _. apply returns_print.
Qed.

(** Lines 329-337 when every selected number has a label. *)
Lemma returns_resname residues nums :
  (forall n, In n nums -> exists name, Py.index residues (n - 1) = Some name) ->
  returns (fun _ => True) (resname residues nums).
Proof.
  intros Hnums. unfold resname.
  apply returns_bind with (fun _ => True).
  - apply returns_foldM; [exact I|].
    intros line n Hin _. unfold resname_token.
    destruct (Hnums n Hin) as (name & ->).
    cbn [get]. rewrite bind_ret. apply returns_addOn.
  - intros line _. apply returns_print.
Qed.

Lemma len_cons_pos {A} (a : A) (l : list A) : (Py.len (a :: l) <=? 0) = false.
Proof. rewrite len_cons. pose proof (len_nonneg l). apply Z.leb_gt. lia. Qed.

(** Lines 344-349: state 0 is in range for every name that has a state. *)
Lemma returns_check_state_0 name resdata :
  Forall (fun b : block => well_formed (snd b)) resdata ->
  returns (fun _ => True) (check_state name 0 resdata).
Proof.
  induction 1 as [|[n d] resdata [Hd _] _ IH]; simpl.
  - now apply returns_ret.
  - simpl in Hd. destruct d as [|rec0 d]; [now elim Hd|].
    rewrite len_cons_pos, andb_false_r. rewrite bind_ret. exact IH.
Qed.

(** Lines 341-353 when every residue starts in state 0. *)
Lemma returns_resstate residues nums resdata :
  (forall n, In n nums -> exists name, Py.index residues (n - 1) = Some name) ->
  Forall (fun b : block => well_formed (snd b)) resdata ->
  returns (fun _ => True)
          (resstate residues (combine nums (map (fun _ => 0) nums)) resdata).
Proof.
  intros Hnums Hwf. unfold resstate.
  apply returns_bind with (fun _ => True).
  - apply returns_foldM; [exact I|].
    intros line [n st] Hin _.
    assert (In n nums /\ st = 0) as [Hn ->].
    { split.
      - now apply in_combine_l in Hin.
      - apply in_combine_r in Hin. apply in_map_iff in Hin.
        now destruct Hin as (_ & <- & _). }
    destruct (Hnums n Hn) as (name & Hname). simpl fst. simpl snd.
    rewrite Hname. cbn [get]. rewrite bind_ret.
    apply returns_bind with (fun _ => True);
      [now apply returns_check_state_0 | intros; apply returns_addOn].
  - intros line _. apply returns_print.
Qed.

(** Lines 357-386 when every selected residue has a pointer and a block. *)
Lemma returns_stateinf residues indices resdata nums :
  (forall n, In n nums -> exists holder, Py.index indices (n - 1) = Some holder) ->
  (forall n, In n nums ->
     exists name earlier b later,
       Py.index residues (n - 1) = Some name /\
       resdata = earlier ++ b :: later /\ fst b = name /\
       ~ In name (map fst earlier) /\
       Forall (fun b => snd b <> []) (earlier ++ [b])) ->
  returns (fun _ => True) (stateinf residues indices resdata nums).
Proof.
  intros Hptr Hblock. unfold stateinf.
  apply returns_bind with (fun _ => True); [|intros; apply returns_print].
  generalize 0 at 1. generalize " ". generalize (@None (Z * Z)).
  induction nums as [|n nums IH]; intros sizes line x; simpl.
  - now apply returns_ret.
  - apply returns_bind with (fun _ => True).
    + unfold stateinf_entry.
      destruct (Hptr n (or_introl eq_refl)) as (holder & ->).
      destruct (Hblock n (or_introl eq_refl))
        as (name & earlier & b & later & -> & -> & Hb & Hnew & Hdata).
      cbn [get]. rewrite bind_ret.
      apply returns_bind with (fun _ => True); [apply returns_addOn|].
      intros l1 _. rewrite bind_ret.
      rewrite (locate_spec name b later earlier 0 0 Hb Hnew Hdata), bind_ret.
      apply returns_bind with (fun _ => True); [apply returns_addOn|].
      intros l2 _.
      apply returns_bind with (fun _ => True); [apply returns_addOn|].
      intros l3 _. cbn [get]. rewrite bind_ret.
      apply returns_bind with (fun _ => True); [apply returns_addOn|].
      intros l4 _.
      apply returns_bind with (fun _ => True); [apply returns_addOn|].
      intros l5 _. now apply returns_ret.
    + intros r _. apply IH.
      * intros m Hm. apply Hptr. now right.
      * intros m Hm. apply Hblock. now right.
Qed.

(** Lines 286-409 go through to the end on data that is all there, with
    every residue starting in state 0. *)
Lemma namelist_goes_through w igb residues indices nums names resdata :
  map (fun name => (name, getData w name igb)) names =
    map (fun b : block => (fst b, States (snd b))) resdata ->
  Forall (fun b : block => well_formed (snd b)) resdata ->
  (forall n, In n nums -> exists name, Py.index residues (n - 1) = Some name) ->
  (forall n, In n nums -> exists holder, Py.index indices (n - 1) = Some holder) ->
  (forall n, In n nums ->
     exists name earlier b later,
       Py.index residues (n - 1) = Some name /\
       resdata = earlier ++ b :: later /\ fst b = name /\
       ~ In name (map fst earlier) /\
       Forall (fun b => snd b <> []) (earlier ++ [b])) ->
  exists out,
    namelist w igb residues indices nums names (map (fun _ => 0) nums) =
    Done (out ++ [" TRESCNT=" +++ Py.str (Py.len nums) +++ ","; "/"])
         ["CPin created!"] tt.
Proof.
  intros Hdata Hwf Hlabel Hptr Hblock. unfold namelist. rewrite Hdata.
  apply returns_then_tail with (fun _ => True); [apply returns_print|].
  intros _ _.
  apply returns_then_tail with (fun r => r = resdata); [apply returns_chrgdat|].
  intros ? ->.
  apply returns_then_tail with (fun _ => True); [now apply returns_protcnt|].
  intros _ _.
  apply returns_then_tail with (fun _ => True); [now apply returns_resname|].
  intros _ _.
  apply returns_then_tail with (fun _ => True); [now apply returns_resstate|].
  intros _ _.
  apply returns_then_tail with (fun _ => True); [now apply returns_stateinf|].
  intros _ _.
  apply returns_then_tail with (fun _ => True); [now apply returns_statene|].
  intros _ _.
  now exists [].
Qed.

(** ** Scenario A *)

(** The default bounds -100 and 100 leave the names alone. *)
Lemma default_pKa_filter titrate_residues :
  pKa_filter titrate_pka_holder (-100) 100 titrate_residues = ret titrate_residues.
Proof. reflexivity. Qed.

(** C8.  On the topology ALA GLU AS4 TYR, with nothing but the topology
    and igb 5 on the command line, the selector returns the residue
    numbers 3 and 4, the deduplicated names are AS4 and TYR, and the run
    ends with the lines TRESCNT=2 and "/" whatever well-formed reference
    data the tables hold for the two names. *)
Theorem scenario_A w pointers as4 tyr :
  fileexists w "prmtop" <> -1 ->
  getbondiset w "prmtop" = mbondi2 ->
  getallresinfo w "prmtop" "RESIDUE_LABEL" = ["ALA"; "GLU"; "AS4"; "TYR"] ->
  getallresinfo w "prmtop" "RESIDUE_POINTER" = pointers ->
  List.length pointers = 4%nat ->
  getData w "AS4" 5 = States as4 -> well_formed as4 ->
  getData w "TYR" 5 = States tyr -> well_formed tyr ->
  selector "prmtop" ["ALA"; "GLU"; "AS4"; "TYR"] titratable [] []
    = Done [] [] [3; 4] /\
  residue_names ["ALA"; "GLU"; "AS4"; "TYR"] [3; 4]
    = Done [] [] ["AS4"; "TYR"] /\
  exists out,
    cpinutil w ["cpinutil.py"; "-p"; "prmtop"; "-igb"; "5"]
    = Done (out ++ [" TRESCNT=2,"; "/"]) ["CPin created!"] tt.
Proof.
  intros Hfile Hradii Hlabels Hpointers Hlen Has4 Hwf_as4 Htyr Hwf_tyr.
  split; [reflexivity|]. split; [reflexivity|].
  destruct pointers as [|p1 [|p2 [|p3 [|p4 [|]]]]]; try discriminate Hlen.
  unfold cpinutil.
  change (check_usage ["cpinutil.py"; "-p"; "prmtop"; "-igb"; "5"]) with (ret tt).
  rewrite bind_ret.
  change (read_arguments (tl ["cpinutil.py"; "-p"; "prmtop"; "-igb"; "5"]) defaults)
    with (ret (set_igb "5" (set_prmtop "prmtop" defaults))).
  rewrite bind_ret. unfold body.
  change (prmtop (set_igb "5" (set_prmtop "prmtop" defaults))) with "prmtop".
  apply Z.eqb_neq in Hfile. rewrite Hfile, Hradii, Hlabels, Hpointers.
  rewrite bind_ret.
  change (default_igb (set_igb "5" (set_prmtop "prmtop" defaults))) with (ret "5").
  rewrite bind_ret.
  change (check_radii (set_igb "5" (set_prmtop "prmtop" defaults)) mbondi2)
    with (ret tt).
  rewrite bind_ret.
  change (check_labels (set_igb "5" (set_prmtop "prmtop" defaults))
            ["ALA"; "GLU"; "AS4"; "TYR"] [p1; p2; p3; p4]) with (ret tt).
  rewrite bind_ret.
  change (convert w (set_igb "5" (set_prmtop "prmtop" defaults)) "5")
    with (ret {| resnums_int := []; notresnums_int := [];
                 residue_states_int := []; igb_int := 5;
                 maxpKa_float := 100; minpKa_float := -100 |}).
  rewrite bind_ret. cbn [minpKa_float maxpKa_float resnums_int notresnums_int
                         residue_states_int igb_int].
  rewrite default_pKa_filter, bind_ret.
  change (titrate_residues (set_igb "5" (set_prmtop "prmtop" defaults)))
    with titratable.
  change (selector "prmtop" ["ALA"; "GLU"; "AS4"; "TYR"] titratable [] [])
    with (ret [3; 4]).
  rewrite bind_ret.
  change (residue_names ["ALA"; "GLU"; "AS4"; "TYR"] [3; 4])
    with (ret ["AS4"; "TYR"]).
  rewrite bind_ret.
  change (initial_states [] [3; 4]) with (ret (map (fun _ : Z => 0) [3; 4])).
  rewrite bind_ret.
  apply (namelist_goes_through w 5 ["ALA"; "GLU"; "AS4"; "TYR"] [p1; p2; p3; p4]
           [3; 4] ["AS4"; "TYR"] [("AS4", as4); ("TYR", tyr)]).
  - simpl. now rewrite Has4, Htyr.
  - constructor; [exact Hwf_as4 | constructor; [exact Hwf_tyr | constructor]].
  - intros n [<- | [<- | []]]; eexists; reflexivity.
  - intros n [<- | [<- | []]]; eexists; reflexivity.
  - intros n [<- | [<- | []]].
    + exists "AS4", [], ("AS4", as4), [("TYR", tyr)].
      repeat split; try reflexivity.
      * intros [].
      * constructor; [apply Hwf_as4 | constructor].
    + exists "TYR", [("AS4", as4)], ("TYR", tyr), [].
      repeat split; try reflexivity.
      * simpl. intros [H | []]. discriminate H.
      * constructor; [apply Hwf_as4 | constructor; [apply Hwf_tyr | constructor]].
Qed.

Lemma scenario_A_witness :
  selector "prmtop" ["ALA"; "GLU"; "AS4"; "TYR"] titratable [] []
    = Done [] [] [3; 4] /\
  residue_names ["ALA"; "GLU"; "AS4"; "TYR"] [3; 4]
    = Done [] [] ["AS4"; "TYR"] /\
  exists out,
    cpinutil Sample.full ["cpinutil.py"; "-p"; "prmtop"; "-igb"; "5"]
    = Done (out ++ [" TRESCNT=2,"; "/"]) ["CPin created!"] tt.
Proof.
  apply (scenario_A Sample.full Sample.pointers Sample.as4 Sample.tyr).
  - discriminate.
  - reflexivity.
  - reflexivity.
  - reflexivity.
  - reflexivity.
  - reflexivity.
  - split; [discriminate | repeat constructor].
  - reflexivity.
  - split; [discriminate | repeat constructor].
Defined.

(** ** Every run, step by step *)

Lemma sound_ret {A} L S (I : A -> Prop) a : I a -> sound L S I (ret a).
Proof. intros H. split; [constructor | exact H]. Qed.

Lemma sound_bind {A B} L S (P : A -> Prop) (Q : B -> Prop) m (f : A -> W B) :
  sound L S P m -> (forall a, P a -> sound L S Q (f a)) ->
  sound L S Q (bind m f).
Proof.
  intros [Hout Hm] Hf. destruct m as [o e a | o e why]; simpl in *.
  - destruct (Hf a Hm) as [Hout' Hfa].
    destruct (f a) as [o' e' b | o' e' why]; simpl in *.
    + split; [now apply Forall_app | exact Hfa].
    + split; [now apply Forall_app|].
      destruct why as [site| |]; auto.
      destruct Hfa as [Hs [Hr | Hr]]; split; auto; [now left|].
      right. apply Exists_app. now right.
  - split; assumption.
Qed.

Lemma sound_then {A B} L S (Q : B -> Prop) (m : W A) (f : A -> W B) :
  sound L S anything m -> (forall a, sound L S Q (f a)) ->
  sound L S Q (bind m f).
Proof. intros Hm Hf. apply sound_bind with anything; auto. Qed.

Lemma sound_foldM {A B} L S (I : B -> Prop) (f : B -> A -> W B) l :
  forall b,
    I b -> (forall b a, I b -> sound L S I (f b a)) ->
    sound L S I (foldM f l b).
Proof.
  induction l as [|a l IH]; intros b Hb Hf; simpl.
  - now apply sound_ret.
  - apply sound_bind with I; [now apply Hf|].
    intros b' Hb'. now apply IH.
Qed.

Lemma sound_get {A} L S e (o : option A) : sound L S anything (get e o).
Proof. destruct o; split; simpl; auto; exact I. Qed.

Lemma sound_try {A} L S (r : Py.exn + A) : sound L S anything (try r).
Proof. destruct r; split; simpl; auto; exact I. Qed.

Lemma sound_raise {A} L S (I : A -> Prop) e : sound L S I (raise e).
Proof. split; simpl; auto. Qed.

Lemma sound_printusage {A} L S (I : A -> Prop) : sound L S I printusage.
Proof. split; simpl; auto. Qed.

Lemma sound_print_stderr L S line : sound L S anything (print_stderr line).
Proof. split; simpl; auto; exact I. Qed.

(** An error message, then [sys.exit()]. *)
Lemma sound_exit {A} L (S : exit_site -> Prop) (I : A -> Prop) line site :
  error_line line -> S site ->
  sound L S I (print_stderr line ;; sys_exit site).
Proof.
  intros Hline Hsite. split; simpl; [constructor|].
  split; [exact Hsite|]. right. now constructor.
Qed.

Lemma sound_exit2 {A} L (S : exit_site -> Prop) (I : A -> Prop) line line' site :
  error_line line -> S site ->
  sound L S I (print_stderr line ;; print_stderr line' ;; sys_exit site).
Proof.
  intros Hline Hsite. split; simpl; [constructor|].
  split; [exact Hsite|]. right. now constructor.
Qed.

Lemma blank_append line toadd : blank line -> blank (line +++ toadd).
Proof.
  unfold blank, Py.startswith.
  destruct line as [|c line]; [intros H; discriminate H|].
  cbn [String.append String.prefix].
  destruct (Ascii.ascii_dec " " c); [|intros H; discriminate H].
  intros _. now destruct (line +++ toadd).
Qed.

Lemma blank_continuation toadd : blank (" " +++ toadd).
Proof. unfold blank, Py.startswith. now destruct toadd. Qed.

Lemma sound_addOn S line toadd :
  blank line -> sound blank S blank (addOn line toadd).
Proof.
  intros Hline. unfold addOn.
  destruct (80 <? String.length line + String.length toadd)%nat.
  - split; simpl; [now constructor | apply blank_continuation].
  - apply sound_ret. now apply blank_append.
Qed.

Lemma sound_print_blank S line : blank line -> sound blank S anything (print_stdout line).
Proof. intros H. split; simpl; [now constructor | exact I]. Qed.

Lemma sound_add_tokens S line tokens :
  blank line -> sound blank S blank (add_tokens line tokens).
Proof.
  intros Hline. unfold add_tokens. apply sound_foldM; [exact Hline|].
  intros. now apply sound_addOn.
Qed.

(** *** Before the namelist *)

Create HintDb sound.

#[local] Hint Resolve sound_ret sound_get sound_try sound_raise
  sound_printusage sound_print_stderr : sound.
#[local] Hint Extern 1 (anything _) => exact I : sound.
#[local] Hint Extern 1 (early _) => (split; discriminate) : sound.
#[local] Hint Extern 1 (error_line _) => reflexivity : sound.

Lemma sound_check_usage argv : sound nothing early anything (check_usage argv).
Proof.
  unfold check_usage.
  destruct (Py.len argv <? 3); [apply sound_printusage|].
  apply sound_then; [apply sound_get|]. intros a1.
  destruct (Py.startswith a1 "-h" || Py.startswith a1 "--h"); auto with sound.
Qed.

Lemma sound_next_arg rest : sound nothing early anything (next_arg rest).
Proof.
  destruct rest; simpl; [split; simpl; auto | auto with sound].
Qed.

Lemma sound_argument a rest s :
  sound nothing early anything (argument a rest s).
Proof.
  unfold argument.
  repeat match goal with
         | |- sound _ _ _ (if String.eqb a ?flag then _ else _) =>
             destruct (String.eqb a flag)
         | |- sound _ _ _ (_ <- next_arg _ ;; ret _) =>
             apply sound_then; [apply sound_next_arg | intros; auto with sound]
         | |- sound _ _ _ (if ?b then print_stderr _ ;; sys_exit _ else ret _) =>
             destruct b; [apply sound_exit|]; auto with sound
         end; auto with sound.
Qed.

Lemma sound_read_arguments args :
  forall s, sound nothing early anything (read_arguments args s).
Proof.
  induction args as [|a rest IH]; intros s; simpl; [auto with sound|].
  apply sound_then; [apply sound_argument | exact IH].
Qed.

Lemma sound_default_igb s : sound nothing early anything (default_igb s).
Proof.
  unfold default_igb. destruct (String.eqb (igb s) " "); [|auto with sound].
  apply sound_then; [|auto with sound].
  destruct (ignore_warn s); auto with sound.
Qed.

Lemma sound_check_radii s radius_set :
  sound nothing early anything (check_radii s radius_set).
Proof.
  unfold check_radii. destruct (ignore_warn s); [auto with sound|].
  destruct (negb (String.eqb radius_set mbondi2)); [|auto with sound].
  apply sound_exit2; auto with sound.
Qed.

Lemma sound_check_labels s residues indices :
  sound nothing early anything (check_labels s residues indices).
Proof.
  unfold check_labels.
  destruct ((Py.len residues =? 0) || (Py.len indices =? 0)); [|auto with sound].
  apply sound_exit2; auto with sound.
Qed.

Lemma sound_convert w s igb : sound nothing early anything (convert w s igb).
Proof.
  unfold convert. destruct (conversions w s igb); [auto with sound|].
  apply sound_then; auto with sound.
Qed.

Lemma sound_pKa_filter pkas lo hi titrate :
  sound nothing early anything (pKa_filter pkas lo hi titrate).
Proof.
  destruct (pKa_filter_all_or_nothing pkas lo hi titrate) as [-> | ->];
    auto with sound.
Qed.

Lemma sound_selector prmtop residues titrate resnums notresnums :
  sound nothing early anything
        (selector prmtop residues titrate resnums notresnums).
Proof.
  unfold selector. apply sound_then.
  - destruct (negb (Py.len resnums =? 0)); [|auto with sound].
    unfold select_listed. apply sound_foldM; [exact I|].
    intros nums n _. unfold select_number.
    destruct (Py.len residues <? n); [apply sound_exit2; auto with sound|].
    apply sound_then; [apply sound_get|]. intros name.
    destruct (negb (Py.contains name titrate)); [|auto with sound].
    apply sound_exit; [reflexivity | auto with sound].
  - intros nums. apply sound_then; [|auto with sound].
    destruct (Py.len nums =? 0); [|auto with sound].
    apply sound_exit; auto with sound.
Qed.

Lemma sound_residue_names residues nums :
  sound nothing early anything (residue_names residues nums).
Proof.
  unfold residue_names. apply sound_foldM; [exact I|].
  intros names n _. unfold name_of.
  apply sound_then; [apply sound_get | auto with sound].
Qed.

Lemma sound_initial_states states nums :
  sound nothing early anything (initial_states states nums).
Proof.
  unfold initial_states.
  destruct (negb (Py.len states =? 0) &&
            negb (Py.len states =? Py.len nums)).
  - apply sound_exit; [reflexivity | auto with sound].
  - destruct (Py.len states =? 0); auto with sound.
Qed.

(** *** Inside the namelist *)

Lemma sound_chrgdat resdata :
  sound blank anything anything (chrgdat resdata).
Proof.
  unfold chrgdat.
  apply sound_bind with (fun r : string * list block => blank (fst r)).
  - apply sound_foldM; [reflexivity|].
    intros [line acc] [name d] Hline. unfold chrgdat_block. simpl in *.
    destruct d as [|curdata].
    + apply sound_exit; [reflexivity | exact I].
    + apply sound_bind with blank; [now apply sound_add_tokens|].
      intros l Hl. now apply sound_ret.
  - intros r Hr. apply sound_then; [now apply sound_print_blank|].
    intros _. now apply sound_ret.
Qed.

(** A loop that adds one token per item, where getting the token may
    raise or exit, and prints the line at the end. *)
Lemma sound_token_loop {A} (step : string -> A -> W string) items header :
  blank header ->
  (forall line a, blank line -> sound blank anything blank (step line a)) ->
  sound blank anything anything
        (line <- foldM step items header ;; print_stdout line).
Proof.
  intros Hheader Hstep.
  apply sound_bind with blank; [now apply sound_foldM|].
  intros line Hline. now apply sound_print_blank.
Qed.

Lemma sound_get_addOn {A} e (o : option A) (token : A -> string) line :
  blank line ->
  sound blank anything blank (a <- get e o ;; addOn line (token a)).
Proof.
  intros Hline. apply sound_then; [apply sound_get|].
  intros a. now apply sound_addOn.
Qed.

Lemma sound_protcnt resdata : sound blank anything anything (protcnt resdata).
Proof.
  apply sound_token_loop; [reflexivity|].
  intros line rec Hline.
  now apply (sound_get_addOn Py.IndexError (Py.index rec 1) (fun p => p +++ ",")).
Qed.

Lemma sound_statene resdata : sound blank anything anything (statene resdata).
Proof.
  apply sound_token_loop; [reflexivity|].
  intros line rec Hline.
  now apply (sound_get_addOn Py.IndexError (Py.index rec 0) (fun p => p +++ ",")).
Qed.

Lemma sound_resname residues nums :
  sound blank anything anything (resname residues nums).
Proof.
  apply sound_token_loop; [reflexivity|].
  intros line n Hline.
  now apply (sound_get_addOn Py.IndexError (Py.index residues (n - 1))
               (fun name => "'Residue: " +++ name +++ " " +++ Py.str n +++ "',")).
Qed.

Lemma sound_check_state name state resdata :
  sound blank anything anything (check_state name state resdata).
Proof.
  induction resdata as [|[n curdata] resdata IH]; simpl; [now apply sound_ret|].
  apply sound_then; [|intros; exact IH].
  destruct (String.eqb name n && ((state <? 0) || (Py.len curdata <=? state))).
  - apply sound_exit; [reflexivity | exact I].
  - now apply sound_ret.
Qed.

Lemma sound_resstate residues occurrences resdata :
  sound blank anything anything (resstate residues occurrences resdata).
Proof.
  apply sound_token_loop; [reflexivity|].
  intros line o Hline.
  apply sound_then; [apply sound_get|]. intros name.
  apply sound_then; [apply sound_check_state|]. intros _.
  now apply sound_addOn.
Qed.

Lemma sound_locate name resdata :
  forall startchrg startst,
    sound blank anything anything (locate name resdata startchrg startst).
Proof.
  induction resdata as [|[n curdata] resdata IH]; intros c s; simpl;
    [now apply sound_ret|].
  apply sound_then; [apply sound_get|]. intros rec0.
  destruct (String.eqb name n); [now apply sound_ret | apply IH].
Qed.

Lemma sound_stateinf_entry residues indices resdata x n line sizes :
  blank line ->
  sound blank anything (fun r => blank (fst r))
        (stateinf_entry residues indices resdata x n line sizes).
Proof.
  intros Hline. unfold stateinf_entry.
  apply sound_then; [apply sound_get|]. intros holder.
  apply sound_bind with blank; [now apply sound_addOn|]. intros l1 Hl1.
  apply sound_then; [apply sound_get|]. intros name.
  apply sound_then; [apply sound_locate|]. intros [[startchrg startst] set].
  apply sound_bind with blank; [now apply sound_addOn|]. intros l2 Hl2.
  apply sound_bind with blank; [now apply sound_addOn|]. intros l3 Hl3.
  apply sound_then; [apply sound_get|]. intros v.
  apply sound_bind with blank; [now apply sound_addOn|]. intros l4 Hl4.
  apply sound_bind with blank; [now apply sound_addOn|]. intros l5 Hl5.
  now apply sound_ret.
Qed.

Lemma sound_stateinf residues indices resdata nums :
  sound blank anything anything (stateinf residues indices resdata nums).
Proof.
  unfold stateinf.
  apply sound_bind with blank; [|intros; now apply sound_print_blank].
  assert (blank " ") as Hline by reflexivity. revert Hline.
  generalize 0 at 1. generalize " ". generalize (@None (Z * Z)).
  induction nums as [|n nums IH]; intros sizes line x Hline; simpl.
  - now apply sound_ret.
  - apply sound_bind with (fun r : string * option (Z * Z) => blank (fst r));
      [now apply sound_stateinf_entry|].
    intros r Hr. now apply IH.
Qed.

(** *** The whole run *)

Lemma verdict_inside_bind {A} (P : A -> Prop) (m : W A) (f : A -> W unit) :
  sound blank anything P m ->
  (forall a, P a -> verdict_inside (f a)) ->
  verdict_inside (bind m f).
Proof.
  intros [Hout Hm] Hf. destruct m as [o e a | o e why]; simpl in *.
  - specialize (Hf a Hm). destruct (f a) as [o' e' [] | o' e' why]; simpl in *.
    + destruct Hf as (e0 & ->). exists (e ++ e0). now rewrite app_assoc.
    + destruct why as [site| |]; auto.
      destruct Hf as [[Hr | Hr] Hblank]; (split; [|now apply Forall_app]).
      * now left.
      * right. apply Exists_app. now right.
  - destruct why as [site| |]; auto. now split.
Qed.

Lemma verdict_inside_then {A} (m : W A) (f : A -> W unit) :
  sound blank anything anything m ->
  (forall a, verdict_inside (f a)) ->
  verdict_inside (bind m f).
Proof. intros Hm Hf. apply verdict_inside_bind with anything; auto. Qed.

Lemma not_blank_slash : ~ blank "/".
Proof. intros H. discriminate H. Qed.

(** From the first line of the namelist on. *)
Lemma verdict_namelist w igb residues indices nums names states :
  verdict (namelist w igb residues indices nums names states).
Proof.
  unfold namelist.
  assert (verdict_inside
            (resdata <- chrgdat (map (fun name => (name, getData w name igb)) names) ;;
             protcnt resdata ;;
             resname residues nums ;;
             resstate residues (combine nums states) resdata ;;
             stateinf residues indices resdata nums ;;
             statene resdata ;;
             print_stdout (" TRESCNT=" +++ Py.str (Py.len nums) +++ ",") ;;
             print_stdout "/" ;;
             print_stderr "CPin created!")) as Hinside.
  { apply verdict_inside_then; [apply sound_chrgdat|]. intros resdata.
    apply verdict_inside_then; [apply sound_protcnt|]. intros _.
    apply verdict_inside_then; [apply sound_resname|]. intros _.
    apply verdict_inside_then; [apply sound_resstate|]. intros _.
    apply verdict_inside_then; [apply sound_stateinf|]. intros _.
    apply verdict_inside_then; [apply sound_statene|]. intros _.
    now exists []. }
  destruct (_ <- chrgdat _ ;; _) as [o e [] | o e why]; simpl in *.
  - exact Hinside.
  - destruct why as [site| |]; auto.
    destruct Hinside as [Hr Hblank]. split; [exact Hr|].
    intros _. split; [now exists o|].
    intros [H | H]; [discriminate H|].
    rewrite Forall_forall in Hblank. now apply not_blank_slash, Hblank.
Qed.

Lemma verdict_bind {A} (m : W A) (f : A -> W unit) :
  sound nothing early anything m ->
  (forall a, verdict (f a)) ->
  verdict (bind m f).
Proof.
  intros [Hout Hm] Hf. destruct m as [o e a | o e why]; simpl in *.
  - assert (o = []) as -> by (destruct o as [|l o]; [reflexivity | now inversion Hout]).
    specialize (Hf a). destruct (f a) as [o' e' [] | o' e' why]; simpl in *.
    + destruct Hf as (e0 & ->). exists (e ++ e0). now rewrite app_assoc.
    + destruct why as [site| |]; auto.
      destruct Hf as [[Hr | Hr] Hpartial]; (split; [|exact Hpartial]).
      * now left.
      * right. apply Exists_app. now right.
  - destruct why as [site| |]; auto. destruct Hm as [[H1 H2] Hr].
    split; [exact Hr|]. now intros [-> | ->].
Qed.

Lemma verdict_body w s : verdict (body w s).
Proof.
  unfold body.
  apply verdict_bind.
  { destruct (fileexists w (prmtop s) =? -1); [|auto with sound].
    split; simpl; [constructor|]. split; [auto with sound | now left]. }
  intros _. apply verdict_bind; [apply sound_default_igb|]. intros igb.
  apply verdict_bind; [apply sound_check_radii|]. intros _.
  apply verdict_bind; [apply sound_check_labels|]. intros _.
  apply verdict_bind; [apply sound_convert|]. intros n.
  apply verdict_bind; [apply sound_pKa_filter|]. intros titrate.
  apply verdict_bind; [apply sound_selector|]. intros nums.
  apply verdict_bind; [apply sound_residue_names|]. intros names.
  apply verdict_bind; [apply sound_initial_states|]. intros states.
  apply verdict_namelist.
Qed.

Lemma verdict_cpinutil w argv : verdict (cpinutil w argv).
Proof.
  unfold cpinutil.
  apply verdict_bind; [apply sound_check_usage|]. intros _.
  apply verdict_bind; [apply sound_read_arguments|]. intros s.
  apply verdict_body.
Qed.

(** ** Failures and partial output *)

(** C2, as amended.  A run that stops on a lookup error or on a state
    index out of range has by then written the first line of the record,
    "&CNSTPH" (and the field lines printed before the failure), and has
    not written the closing line "/": what is on stdout is the beginning of
    a record, not a whole one and not nothing. *)
Theorem failure_inside_the_namelist w argv out err site :
  cpinutil w argv = Abort out err (SysExit site) ->
  site = ExitLookup \/ site = ExitStateRange ->
  (exists rest, out = "&CNSTPH" :: rest) /\ ~ In "/" out.
Proof.
  intros Hrun Hsite. pose proof (verdict_cpinutil w argv) as H.
  rewrite Hrun in H. simpl in H. now apply H.
Qed.

Lemma failure_inside_the_namelist_witness :
  (exists rest, ["&CNSTPH"] = "&CNSTPH" :: rest) /\ ~ In "/" ["&CNSTPH"].
Proof.
  apply (failure_inside_the_namelist Sample.no_tyr (Sample.command [])
           _ ["Error: Couldn't get data from cpin_data.py!"] ExitLookup).
  - reflexivity.
  - now left.
Defined.

(** C2 as stated fails: when the tables have nothing for TYR the run stops
    with the first line of the record already on stdout, and a state index
    2 for TYR, which has two states, stops it after four lines. *)
Lemma failures_leave_partial_output :
  cpinutil Sample.no_tyr (Sample.command [])
  = Abort ["&CNSTPH"] ["Error: Couldn't get data from cpin_data.py!"]
          (SysExit ExitLookup) /\
  cpinutil Sample.full (Sample.command ["-states"; "0,2"])
  = Abort ["&CNSTPH";
           " CHRGDAT=-0.1,0.2,0.3,-0.1,0.2,0.4,-0.1,0.2,0.4,0.5,0.6,0.7,0.8,";
           " PROTCNT=0,1,1,1,0,";
           " RESNAME='System: Unknown','Residue: AS4 3','Residue: TYR 4',"]
          ["Error: Residue states must range from 0 to num_states - 1 for each residue!"]
          (SysExit ExitStateRange).
Proof. split; reflexivity. Qed.

(** ** The system name *)

Lemma body_forgets_system w s : body w (forget_system s) = body w s.
Proof. destruct s. reflexivity. Qed.

Lemma forget_set_system v s :
  forget_system (set_system_name v s) = forget_system s.
Proof. destruct s. reflexivity. Qed.

Lemma bind_body_forget w (m : W settings) :
  bind m (body w) = bind (W_map forget_system m) (body w).
Proof.
  destruct m as [o e s|]; simpl; [|reflexivity].
  now rewrite body_forgets_system.
Qed.

(** One turn of the loop does the same to two settings that differ in the
    system name only. *)
Lemma argument_forget a rest s s' :
  forget_system s = forget_system s' ->
  W_map forget_system (argument a rest s) =
  W_map forget_system (argument a rest s').
Proof.
  destruct s, s'. unfold forget_system, set_system_name. simpl.
  intros H. injection H as -> -> -> -> -> -> -> -> -> -> -> -> ->.
  unfold argument.
  repeat match goal with
         | |- context [if String.eqb a ?flag then _ else _] =>
             destruct (String.eqb a flag);
             [ try reflexivity;
               try (destruct rest; reflexivity);
               try (simpl;
                    match goal with
                    | |- context [if ?b then _ else _] => destruct b; reflexivity
                    end) | ]
         end.
  reflexivity.
Qed.

Lemma W_map_bind_related {A B C} (g : A -> C) (h : B -> C)
  (m m' : W A) (f f' : A -> W B) :
  W_map g m = W_map g m' ->
  (forall a a', g a = g a' -> W_map h (f a) = W_map h (f' a')) ->
  W_map h (bind m f) = W_map h (bind m' f').
Proof.
  intros Hm Hf.
  destruct m as [o e a|], m' as [o' e' a'|]; simpl in Hm; try discriminate.
  - injection Hm as -> -> Hg. specialize (Hf a a' Hg). simpl.
    destruct (f a), (f' a'); simpl in *; try discriminate; congruence.
  - simpl. congruence.
Qed.

Lemma read_arguments_forget args :
  forall s s',
    forget_system s = forget_system s' ->
    W_map forget_system (read_arguments args s) =
    W_map forget_system (read_arguments args s').
Proof.
  induction args as [|a rest IH]; intros s s' H; simpl.
  - now rewrite H.
  - apply W_map_bind_related with forget_system.
    + now apply argument_forget.
    + exact IH.
Qed.

(** A flag reads what follows it through [next_arg] and [values] only. *)
Lemma values_up_to_system before after after' :
  values (before ++ "-system" :: after) = values (before ++ "-system" :: after').
Proof.
  induction before as [|a before IH]; simpl; [reflexivity|].
  now rewrite IH.
Qed.

Lemma next_arg_up_to_system before after after' :
  next_arg (before ++ "-system" :: after) =
  next_arg (before ++ "-system" :: after').
Proof. now destruct before. Qed.

Lemma argument_rest a rest rest' s :
  next_arg rest = next_arg rest' -> values rest = values rest' ->
  argument a rest s = argument a rest' s.
Proof. intros H1 H2. unfold argument. now rewrite H1, H2. Qed.

(** An argument that is none of the flags leaves everything as it is. *)
Lemma argument_not_flag a rest s :
  is_flag a = false -> argument a rest s = ret s.
Proof.
  unfold is_flag, argument. intros H.
  repeat (apply orb_false_elim in H; destruct H as [H ?]).
  repeat match goal with
         | E : String.eqb a _ = false |- _ => rewrite E; clear E
         end.
  reflexivity.
Qed.

Lemma read_arguments_system before v v' after :
  is_flag v = false -> is_flag v' = false ->
  forall s,
    W_map forget_system (read_arguments (before ++ "-system" :: v :: after) s) =
    W_map forget_system (read_arguments (before ++ "-system" :: v' :: after) s).
Proof.
  intros Hv Hv'. induction before as [|a before IH]; intros s.
  - cbn [app read_arguments].
    change (argument "-system" (v :: after) s) with (ret (set_system_name v s)).
    change (argument "-system" (v' :: after) s) with (ret (set_system_name v' s)).
    rewrite !bind_ret. cbn [read_arguments].
    rewrite (argument_not_flag v _ _ Hv), (argument_not_flag v' _ _ Hv').
    rewrite !bind_ret.
    apply read_arguments_forget. now rewrite !forget_set_system.
  - cbn [app read_arguments].
    rewrite (argument_rest a _ (before ++ "-system" :: v' :: after) s
               (next_arg_up_to_system before _ _)
               (values_up_to_system before _ _)).
    apply W_map_bind_related with (fun s => s); [reflexivity|].
    intros s1 s2 <-. apply IH.
Qed.

Lemma check_usage_system prog before v v' after :
  check_usage (prog :: before ++ "-system" :: v :: after) =
  check_usage (prog :: before ++ "-system" :: v' :: after).
Proof.
  unfold check_usage, Py.len. simpl List.length. rewrite !length_app.
  simpl List.length.
  destruct before as [|b before]; simpl app; now rewrite !index_1.
Qed.

Lemma prefix_append p line toadd :
  String.prefix p line = true -> String.prefix p (line +++ toadd) = true.
Proof.
  revert line. induction p as [|c p IH]; intros line.
  - intros _. now destruct (line +++ toadd).
  - destruct line as [|d line]; [intros H; discriminate H|].
    cbn [String.append String.prefix].
    destruct (Ascii.ascii_dec c d); [apply IH | intros H; discriminate H].
Qed.

(** The first line of the RESNAME field begins with the header. *)
Lemma resname_loop_head residues nums :
  forall line,
    Py.startswith line resname_header = true ->
    match first_line (foldM (resname_token residues) nums line) with
    | Some l => Py.startswith l resname_header = true
    | None => True
    end.
Proof.
  induction nums as [|n nums IH]; intros line Hline; [exact Hline|].
  cbn [foldM]. unfold resname_token at 1.
  destruct (Py.index residues (n - 1)) as [name|]; [|exact I].
  cbn [get]. rewrite bind_ret.
  set (toadd := "'Residue: " +++ name +++ " " +++ Py.str n +++ "',").
  destruct (Nat.le_gt_cases (String.length line + String.length toadd) 80)
    as [Hfit | Hfit].
  - rewrite (addOn_fits _ _ Hfit), bind_ret.
    apply IH. now apply prefix_append.
  - rewrite (addOn_wraps _ _ Hfit), bind_Done.
    destruct (foldM _ nums (" " +++ toadd)); exact Hline.
Qed.

(** C10, as amended.  Two command lines that differ only in the value
    given to [-system], where neither value is itself one of the strings
    the argument loop reacts to, give the same run: the same lines on both
    streams and the same end.  And the RESNAME field always opens with the
    token 'System: Unknown'. *)
Theorem system_name_is_ignored w prog before v v' after residues nums :
  is_flag v = false -> is_flag v' = false ->
  cpinutil w (prog :: before ++ "-system" :: v :: after) =
  cpinutil w (prog :: before ++ "-system" :: v' :: after) /\
  match stdout (resname residues nums) with
  | l :: _ => Py.startswith l " RESNAME='System: Unknown'," = true
  | [] => True
  end.
Proof.
  intros Hv Hv'. change " RESNAME='System: Unknown'," with resname_header.
  split.
  - unfold cpinutil.
    rewrite (check_usage_system prog before v v' after).
    apply bind_ext. intros _. cbn [tl].
    rewrite bind_body_forget, (bind_body_forget w (read_arguments _ _)).
    now rewrite (read_arguments_system before v v' after Hv Hv').
  - pose proof (resname_loop_head residues nums resname_header eq_refl) as H.
    unfold resname, first_line in *.
    destruct (foldM _ nums _) as [o e line | o e why]; simpl in *.
    + destruct o as [|l o]; exact H.
    + destruct o as [|l o]; [exact I | exact H].
Qed.

Lemma system_name_is_ignored_witness :
  cpinutil Sample.full ("cpinutil.py" :: ["-p"; "prmtop"] ++
                        "-system" :: "Lysozyme" :: ["-igb"; "5"]) =
  cpinutil Sample.full ("cpinutil.py" :: ["-p"; "prmtop"] ++
                        "-system" :: "Unknown" :: ["-igb"; "5"]) /\
  match stdout (resname Sample.labels [3; 4]) with
  | l :: _ => Py.startswith l " RESNAME='System: Unknown'," = true
  | [] => True
  end.
Proof.
  apply (system_name_is_ignored Sample.full "cpinutil.py" ["-p"; "prmtop"]
           "Lysozyme" "Unknown" ["-igb"; "5"] Sample.labels [3; 4]);
    reflexivity.
Defined.

(** C10 as stated fails when the value given to [-system] is itself a
    flag: the loop reads "-notresnum" once as the system name and once
    more as the flag, with the 3 behind it as its value, and residue 3 is
    left out of the record. *)
Lemma system_value_read_as_flag :
  In " TRESCNT=2,"
     (stdout (cpinutil Sample.full
                (Sample.command ["-system"; "Lysozyme"; "3"]))) /\
  In " TRESCNT=1,"
     (stdout (cpinutil Sample.full
                (Sample.command ["-system"; "-notresnum"; "3"]))) /\
  stdout (cpinutil Sample.full (Sample.command ["-system"; "Lysozyme"; "3"]))
  <>
  stdout (cpinutil Sample.full (Sample.command ["-system"; "-notresnum"; "3"])).
Proof.
  split; [|split].
  - simpl. tauto.
  - simpl. tauto.
  - intros H. discriminate H.
Qed.

(** * Further properties of the script *)

(** ** The argument loop *)

Lemma argument_exclusive a rest s out err s' :
  exclusive s ->
  argument a rest s = Done out err s' ->
  exclusive s' /\ out = [] /\ err = [].
Proof.
  unfold argument. intros (E1 & E2 & E3 & E4) H.
  repeat match type of H with
         | context [if String.eqb a ?flag then _ else _] =>
             destruct (String.eqb a flag)
         end;
    try (destruct rest as [|v rest]; [discriminate H|];
         injection H as <- <- <-; destruct s; now repeat split);
    try (injection H as <- <- <-; destruct s; now repeat split).
  - destruct (nresname_spec s) eqn:Hn; [discriminate H|].
    injection H as <- <- <-. destruct s; simpl in *. subst.
    now repeat split.
  - destruct (resname_spec s) eqn:Hn; [discriminate H|].
    injection H as <- <- <-. destruct s; simpl in *. subst.
    repeat split; auto.
  - destruct (nresnum_spec s) eqn:Hn; [discriminate H|].
    injection H as <- <- <-. destruct s; simpl in *. subst.
    repeat split; auto. intros H; discriminate H.
  - destruct (resnum_spec s) eqn:Hn; [discriminate H|].
    injection H as <- <- <-. destruct s; simpl in *. subst.
    repeat split; auto. intros H; discriminate H.
Qed.

Lemma read_arguments_exclusive args :
  forall s out err s',
    exclusive s ->
    read_arguments args s = Done out err s' ->
    exclusive s' /\ out = [] /\ err = [].
Proof.
  induction args as [|a rest IH]; intros s out err s' Hs H; simpl in H.
  - injection H as <- <- <-. split; [exact Hs | split; reflexivity].
  - apply bind_Done_inv in H.
    destruct H as (o1 & e1 & s1 & o2 & e2 & Hstep & Hrest & -> & ->).
    destruct (argument_exclusive _ _ _ _ _ _ Hs Hstep) as (Hs1 & -> & ->).
    destruct (IH _ _ _ _ Hs1 Hrest) as (Hs' & -> & ->).
    split; [exact Hs' | split; reflexivity].
Qed.

(** X1.  When the argument loop comes to its end it has printed nothing, it
    has not seen both [-resname] and [-notresname], nor both [-resnum] and
    [-notresnum], in whatever order and however often the flags were
    given, and so at most one of the two lists of residue numbers has
    entries. *)
Theorem opposite_flags_never_both args out err s :
  read_arguments args defaults = Done out err s ->
  out = [] /\ err = [] /\
  resname_spec s && nresname_spec s = false /\
  resnum_spec s && nresnum_spec s = false /\
  (resnums s = [] \/ notresnums s = []).
Proof.
  intros H.
  assert (exclusive defaults) as Hd by (repeat split; reflexivity).
  destruct (read_arguments_exclusive _ _ _ _ _ Hd H)
    as ((E1 & E2 & E3 & E4) & -> & ->).
  repeat split; auto.
  destruct (resnum_spec s) eqn:Hr.
  - right. apply E4. now destruct (nresnum_spec s).
  - left. now apply E3.
Qed.

Lemma opposite_flags_never_both_witness :
  @nil string = [] /\ @nil string = [] /\
  resname_spec (set_resnum ["3"; "4"] (set_resname "AS4 " defaults)) &&
  nresname_spec (set_resnum ["3"; "4"] (set_resname "AS4 " defaults)) = false /\
  resnum_spec (set_resnum ["3"; "4"] (set_resname "AS4 " defaults)) &&
  nresnum_spec (set_resnum ["3"; "4"] (set_resname "AS4 " defaults)) = false /\
  (resnums (set_resnum ["3"; "4"] (set_resname "AS4 " defaults)) = [] \/
   notresnums (set_resnum ["3"; "4"] (set_resname "AS4 " defaults)) = []).
Proof.
  apply (opposite_flags_never_both ["-resname"; "AS4"; "-resnum"; "3,4"] [] []).
  reflexivity.
Defined.

(** With something behind it, an argument is taken in silently or stops
    the run at one of the four conflicts. *)
Lemma argument_with_rest a rest s :
  rest <> [] ->
  (exists s', argument a rest s = Done [] [] s') \/
  (exists line site, argument a rest s = Abort [] [line] (SysExit site)).
Proof.
  intros Hrest. destruct rest as [|v rest]; [now elim Hrest|].
  unfold argument.
  repeat match goal with
         | |- context [if String.eqb a ?flag then _ else _] =>
             destruct (String.eqb a flag)
         end;
    try (left; eexists; reflexivity).
  - destruct (nresname_spec s); [right; now do 2 eexists | left; now eexists].
  - destruct (resname_spec s); [right; now do 2 eexists | left; now eexists].
  - destruct (nresnum_spec s); [right; now do 2 eexists | left; now eexists].
  - destruct (resnum_spec s); [right; now do 2 eexists | left; now eexists].
Qed.

(** X2.  A command line that ends with [-p], [-igb], [-system], [-minpKa]
    or [-maxpKa], with no value behind it, never gets through the argument
    loop: unless an earlier conflict of flags has stopped the run, the loop
    ends in the handler of lines 148-150, with "Error: Command line error!"
    on stderr and the usage message.  Nothing is on stdout. *)
Theorem value_flag_at_the_end args flag :
  takes_value flag = true ->
  forall s,
  exists err why,
    read_arguments (args ++ [flag]) s = Abort [] err why /\
    ((why = Usage /\ err = ["Error: Command line error!"]) \/
     exists site, why = SysExit site).
Proof.
  intros Hflag. induction args as [|a args IH]; intros s.
  - exists ["Error: Command line error!"], Usage. split; [|now left].
    unfold takes_value in Hflag.
    repeat (apply orb_true_iff in Hflag; destruct Hflag as [Hflag | Hflag]);
      apply String.eqb_eq in Hflag; subst flag; reflexivity.
  - cbn [app read_arguments].
    destruct (argument_with_rest a (args ++ [flag]) s) as [(s' & ->) | (line & site & ->)].
    + now destruct args.
    + change (Done [] [] s') with (ret s'). rewrite bind_ret. apply IH.
    + exists [line], (SysExit site). split; [reflexivity | right; now exists site].
Qed.

Lemma value_flag_at_the_end_witness :
  exists err why,
    read_arguments (["-p"; "prmtop"] ++ ["-igb"]) defaults = Abort [] err why /\
    ((why = Usage /\ err = ["Error: Command line error!"]) \/
     exists site, why = SysExit site).
Proof.
  apply (value_flag_at_the_end ["-p"; "prmtop"] "-igb"). reflexivity.
Defined.

(** ** Conversions *)

Lemma ints_None l :
  (exists a, In a l /\ Py.int a = None) -> ints l = None.
Proof.
  intros (a & Hin & Ha). induction l as [|b l IH]; [now elim Hin|].
  simpl. destruct Hin as [-> | Hin].
  - now rewrite Ha.
  - rewrite (IH Hin). now destruct (Py.int b).
Qed.

(** X3.  A value that is not a number where the script wants one (a
    residue number, a state, igb, a pKa bound) does not end the run with
    the usage message: the handler of line 196 calls [utils.printusage()],
    no [utils] exists, and the run ends with an uncaught NameError after
    the message of line 195.  Nothing is on stdout. *)
Theorem not_a_number_is_a_NameError w s igb :
  (exists a, In a (resnums s) /\ Py.int a = None) \/
  (resnums s = [] /\ exists a, In a (notresnums s) /\ Py.int a = None) \/
  (exists a, In a (residue_states s) /\ Py.int a = None) \/
  Py.int igb = None \/
  (exists a, maxpKa s = Some a /\ py_float w a = None) \/
  (exists a, minpKa s = Some a /\ py_float w a = None) ->
  convert w s igb =
  Abort []
        ["Error: Make sure you have the right data types for the right arguments!"]
        (Uncaught Py.NameError).
Proof.
  intros H.
  assert (conversions w s igb = None) as Hnone.
  { unfold conversions.
    destruct H as [H | [[Hr H] | [H | [H | [(a & Ha & H) | (a & Ha & H)]]]]].
    - now rewrite (ints_None _ H).
    - rewrite (ints_None _ H), Hr. simpl.
      now repeat match goal with
                 | |- context [match ?x with _ => _ end] => destruct x
                 end.
    - rewrite (ints_None _ H).
      now repeat match goal with
                 | |- context [match ?x with _ => _ end] => destruct x
                 end.
    - rewrite H.
      now repeat match goal with
                 | |- context [match ?x with _ => _ end] => destruct x
                 end.
    - rewrite Ha. simpl. rewrite H.
      now repeat match goal with
                 | |- context [match ?x with _ => _ end] => destruct x
                 end.
    - rewrite Ha. simpl. rewrite H.
      now repeat match goal with
                 | |- context [match ?x with _ => _ end] => destruct x
                 end. }
  unfold convert. now rewrite Hnone.
Qed.

Lemma not_a_number_is_a_NameError_witness :
  convert Sample.full (set_resnum ["x"] defaults) "5" =
  Abort []
        ["Error: Make sure you have the right data types for the right arguments!"]
        (Uncaught Py.NameError).
Proof.
  apply (not_a_number_is_a_NameError Sample.full (set_resnum ["x"] defaults) "5").
  left. exists "x". split; [now left | reflexivity].
Defined.

(** ** The pKa filter, for any bounds *)

(** X4.  Whatever the bounds, the pKa filter removes no name.  When every
    built-in pKa lies within the bounds the string of names comes back
    untouched; as soon as one lies outside, the run ends with the TypeError
    of line 208. *)
Theorem pKa_filter_keeps_all_or_raises pkas minpKa maxpKa titrate_residues :
  pKa_filter pkas minpKa maxpKa titrate_residues =
  if forallb (within minpKa maxpKa) pkas
  then ret titrate_residues
  else raise Py.TypeError.
Proof.
  induction pkas as [|pka pkas IH]; simpl; [reflexivity|].
  unfold within at 1.
  destruct ((pka <? minpKa)%float || (maxpKa <? pka)%float); simpl;
    [reflexivity | exact IH].
Qed.

(** ** Residue numbers out of range or not titratable *)

Lemma select_number_stops prmtop residues titrate acc n :
  Py.len residues < n ->
  exists err,
    select_number prmtop residues titrate acc n
    = Abort [] err (SysExit ExitTooLarge).
Proof.
  intros Hn. unfold select_number.
  destruct (Z.ltb_spec (Py.len residues) n); [|lia].
  now eexists.
Qed.

Lemma select_number_cases prmtop residues titrate acc n :
  select_number prmtop residues titrate acc n = ret (acc ++ [n]) \/
  exists err why,
    select_number prmtop residues titrate acc n = Abort [] err why /\
    (why = SysExit ExitTooLarge \/ why = SysExit ExitNotTitratable \/
     why = Uncaught Py.IndexError).
Proof.
  unfold select_number.
  destruct (Py.len residues <? n).
  { right. do 2 eexists. split; [reflexivity | now left]. }
  destruct (Py.index residues (n - 1)) as [name|].
  - cbn [get]. rewrite bind_ret.
    destruct (Py.contains name titrate).
    + now left.
    + right. do 2 eexists. split; [reflexivity | right; now left].
  - right. do 2 eexists. split; [reflexivity | right; now right].
Qed.

(** X5.  When one of the numbers given with [-resnum] is above the number
    of residues in the topology, the selector returns no selection at all:
    the run stops at that number with the exit of line 224, unless an
    earlier number has already stopped it (too large as well, not
    titratable, or too far below 1 to index the topology).  Nothing is on
    stdout. *)
Theorem resnum_above_topology prmtop residues titrate resnums notresnums n :
  In n resnums ->
  Py.len residues < n ->
  exists err why,
    selector prmtop residues titrate resnums notresnums = Abort [] err why /\
    (why = SysExit ExitTooLarge \/ why = SysExit ExitNotTitratable \/
     why = Uncaught Py.IndexError).
Proof.
  intros Hin Hn.
  assert (forall acc, exists err why,
            foldM (select_number prmtop residues titrate) resnums acc
            = Abort [] err why /\
            (why = SysExit ExitTooLarge \/ why = SysExit ExitNotTitratable \/
             why = Uncaught Py.IndexError)) as Hloop.
  { induction resnums as [|m resnums IH]; [now elim Hin|]. intros acc.
    cbn [foldM].
    destruct Hin as [-> | Hin].
    - destruct (select_number_stops prmtop residues titrate acc n Hn) as (err & ->).
      exists err, (SysExit ExitTooLarge). split; [reflexivity | now left].
    - destruct (select_number_cases prmtop residues titrate acc m)
        as [-> | (err & why & -> & Hwhy)].
      + rewrite bind_ret. now apply IH.
      + now exists err, why. }
  unfold selector, select_listed.
  assert (negb (Py.len resnums =? 0) = true) as ->.
  { destruct resnums as [|m rest]; [now elim Hin|]. rewrite len_cons.
    pose proof (len_nonneg rest).
    apply negb_true_iff, Z.eqb_neq. lia. }
  destruct (Hloop []) as (err & why & -> & Hwhy).
  now exists err, why.
Qed.

Lemma resnum_above_topology_witness :
  exists err why,
    selector "prmtop" Sample.labels titratable [3; 5] [] = Abort [] err why /\
    (why = SysExit ExitTooLarge \/ why = SysExit ExitNotTitratable \/
     why = Uncaught Py.IndexError).
Proof.
  apply (resnum_above_topology "prmtop" Sample.labels titratable [3; 5] [] 5).
  - right. now left.
  - reflexivity.
Defined.

(** ** The scan of the topology and the excluded numbers *)

Lemma select_matching_complete titrate residues :
  forall x i name,
    nth_error residues i = Some name ->
    Py.contains name titrate = true ->
    In (x + Z.of_nat i + 1) (select_matching residues x titrate).
Proof.
  induction residues as [|r residues IH]; intros x i name Hnth Hname.
  - now destruct i.
  - destruct i as [|i]; simpl in Hnth.
    + injection Hnth as ->. simpl. rewrite Hname. left. lia.
    + specialize (IH (x + 1) i name Hnth Hname).
      replace (x + Z.of_nat (S i) + 1) with (x + 1 + Z.of_nat i + 1) by lia.
      cbn [select_matching].
      destruct (Py.contains r titrate); [now right | exact IH].
Qed.

Lemma pop_first_keeps m l n : n <> m -> In n l -> In n (pop_first m l).
Proof.
  intros Hnm. induction l as [|a l IH]; simpl; [tauto|].
  destruct (Z.eqb_spec m a) as [-> | Hma].
  - intros [-> | H]; [now elim Hnm | exact H].
  - intros [-> | H]; [now left | right; auto].
Qed.

Lemma pop_first_gone n l : StronglySorted Z.lt l -> ~ In n (pop_first n l).
Proof.
  induction 1 as [|a l Hl IH Ha]; simpl; [tauto|].
  destruct (Z.eqb_spec n a) as [-> | Hna].
  - intros Hin. rewrite Forall_forall in Ha. specialize (Ha a Hin). lia.
  - intros [-> | Hin]; [now elim Hna | now apply IH].
Qed.

Lemma pop_all_keeps notresnums : forall l n,
  ~ In n notresnums -> In n l ->
  In n (fold_left (fun l n => pop_first n l) notresnums l).
Proof.
  induction notresnums as [|m ms IH]; simpl; [tauto|].
  intros l n Hn Hin. apply IH; [tauto|].
  apply pop_first_keeps; [|exact Hin]. intros ->. apply Hn. now left.
Qed.

Lemma pop_all_gone notresnums : forall l n,
  StronglySorted Z.lt l -> In n notresnums ->
  ~ In n (fold_left (fun l n => pop_first n l) notresnums l).
Proof.
  induction notresnums as [|m ms IH]; simpl; [tauto|].
  intros l n Hl [-> | Hn].
  - intros Hin. apply pop_all_incl in Hin. now apply (pop_first_gone n l).
  - apply IH; [now apply pop_first_sorted | exact Hn].
Qed.

(** X6.  Without [-resnum], what the selector returns is exactly the
    residues whose name passes the [in] test, less the numbers given with
    [-notresnum]: a number is returned if and only if it is the position
    (counted from 1) of such a residue and is not among the excluded
    numbers. *)
Theorem scan_selects_exactly prmtop residues titrate notresnums out err nums :
  selector prmtop residues titrate [] notresnums = Done out err nums ->
  forall n,
    In n nums <->
    (1 <= n /\
     (exists name, nth_error residues (Z.to_nat (n - 1)) = Some name /\
                   Py.contains name titrate = true) /\
     ~ In n notresnums).
Proof.
  unfold selector. intros H.
  apply bind_Done_inv in H.
  destruct H as (o1 & e1 & chosen & o2 & e2 & Hsel & H & _ & _).
  apply bind_Done_inv in H.
  destruct H as (o3 & e3 & [] & o4 & e4 & _ & H & _ & _).
  injection H as _ _ <-. simpl in Hsel. injection Hsel as _ _ <-.
  destruct (select_matching_spec titrate residues 0) as [Hsorted Hin].
  intros n. split.
  - intros Hn. pose proof (pop_all_incl _ _ _ Hn) as Hn0.
    destruct (Hin n Hn0) as [Hrange (name & Hnth & Hname)].
    split; [lia|]. split.
    + exists name. split; [|exact Hname].
      now replace (n - 1) with (n - 1 - 0) by lia.
    + intros Hex. now apply (pop_all_gone notresnums _ n Hsorted Hex).
  - intros (Hpos & (name & Hnth & Hname) & Hex).
    apply pop_all_keeps; [exact Hex|].
    pose proof (select_matching_complete titrate residues 0 _ _ Hnth Hname) as Hc.
    now replace (0 + Z.of_nat (Z.to_nat (n - 1)) + 1) with n in Hc by lia.
Qed.

Lemma scan_selects_exactly_witness :
  In 3 [3] <->
  (1 <= 3 /\
   (exists name, nth_error Sample.labels (Z.to_nat (3 - 1)) = Some name /\
                 Py.contains name titratable = true) /\
   ~ In 3 [4]).
Proof.
  apply (scan_selects_exactly "prmtop" Sample.labels titratable [4] [] [] [3]).
  reflexivity.
Defined.

(** ** The deduplicated names *)

Lemma add_name_In names name m :
  In m (add_name names name) <-> In m names \/ m = name.
Proof.
  unfold add_name. destruct names as [|n names].
  - simpl. split; [intros [<- | []]; now right | intros [[] | ->]; now left].
  - destruct (existsb (fun n0 => String.eqb n0 name) (n :: names)) eqn:Hex.
    + split; [now left|]. intros [H | ->]; [exact H|].
      apply existsb_exists in Hex. destruct Hex as (k & Hk & Heq).
      apply String.eqb_eq in Heq. now subst k.
    + rewrite in_app_iff. simpl. split.
      * intros [H | [<- | []]]; [now left | now right].
      * intros [H | ->]; [now left | right; now left].
Qed.

Lemma name_loop_spec residues nums :
  forall acc out err names,
    foldM (name_of residues) nums acc = Done out err names ->
    out = [] /\ err = [] /\
    (forall n, In n nums ->
       exists name, Py.index residues (n - 1) = Some name /\ In name names) /\
    (forall name, In name names ->
       In name acc \/
       exists n, In n nums /\ Py.index residues (n - 1) = Some name) /\
    (forall name, In name acc -> In name names).
Proof.
  induction nums as [|n nums IH]; intros acc out err names H; simpl in H.
  - injection H as <- <- <-.
    repeat split; auto. intros n [].
  - apply bind_Done_inv in H.
    destruct H as (o1 & e1 & acc' & o2 & e2 & Hstep & Hrest & -> & ->).
    unfold name_of in Hstep.
    destruct (Py.index residues (n - 1)) as [name|] eqn:Hname; [|discriminate].
    cbn [get] in Hstep. rewrite bind_ret in Hstep.
    injection Hstep as <- <- <-.
    destruct (IH _ _ _ _ Hrest) as (-> & -> & Hall & Hfrom & Hkeep).
    split; [reflexivity|]. split; [reflexivity|]. split; [|split].
    + intros m [<- | Hm]; [|now apply Hall].
      exists name. split; [exact Hname|].
      apply Hkeep, add_name_In. now right.
    + intros m Hm. destruct (Hfrom m Hm) as [Hacc | (k & Hk & Hidx)].
      * apply add_name_In in Hacc. destruct Hacc as [Hacc | ->]; [now left|].
        right. exists n. split; [now left | exact Hname].
      * right. exists k. split; [now right | exact Hidx].
    + intros m Hm. apply Hkeep, add_name_In. now left.
Qed.

(** X7.  The list of names built in lines 258-269 holds each name once, and
    holds exactly the names of the selected residues: the name of every
    selected residue is in it, and every name in it is the name of a
    selected residue.  Building it prints nothing. *)
Theorem names_of_the_selection residues nums out err names :
  residue_names residues nums = Done out err names ->
  out = [] /\ err = [] /\
  NoDup names /\
  (forall n, In n nums ->
     exists name, Py.index residues (n - 1) = Some name /\ In name names) /\
  (forall name, In name names ->
     exists n, In n nums /\ Py.index residues (n - 1) = Some name).
Proof.
  intros H. unfold residue_names in H.
  destruct (name_loop_spec residues nums [] out err names H)
    as (-> & -> & Hall & Hfrom & _).
  split; [reflexivity|]. split; [reflexivity|]. split; [|split].
  - apply (residue_names_NoDup residues nums [] [] [] names); [constructor | exact H].
  - exact Hall.
  - intros name Hname. now destruct (Hfrom name Hname) as [[] | Hn].
Qed.

Lemma names_of_the_selection_witness :
  @nil string = [] /\ @nil string = [] /\
  NoDup ["AS4"; "TYR"] /\
  (forall n, In n [3; 4; 3] ->
     exists name, Py.index Sample.labels (n - 1) = Some name /\
                  In name ["AS4"; "TYR"]) /\
  (forall name, In name ["AS4"; "TYR"] ->
     exists n, In n [3; 4; 3] /\ Py.index Sample.labels (n - 1) = Some name).
Proof.
  apply (names_of_the_selection Sample.labels [3; 4; 3] [] [] ["AS4"; "TYR"]).
  reflexivity.
Defined.

(** ** The range of a state index *)

Lemma check_state_absent name state resdata :
  ~ In name (map fst resdata) -> check_state name state resdata = ret tt.
Proof.
  induction resdata as [|[n d] resdata IH]; simpl; [reflexivity|].
  intros Hnot. destruct (String.eqb_spec name n) as [-> | _].
  - elim Hnot. now left.
  - cbn [andb]. rewrite bind_ret. apply IH. tauto.
Qed.

(** X8.  For a residue whose name has the block [d] in [resdata], the test
    of lines 344-349 lets a state index through exactly when it lies in
    [0 .. len(d) - 1]: an index equal to the number of states stops the
    run with the exit of line 349 and its message, the number of states
    less one passes. *)
Theorem state_index_in_range name state resdata d :
  NoDup (map fst resdata) ->
  In (name, d) resdata ->
  check_state name state resdata =
  if (0 <=? state) && (state <? Py.len d) then ret tt
  else Abort []
             ["Error: Residue states must range from 0 to num_states - 1 for each residue!"]
             (SysExit ExitStateRange).
Proof.
  induction resdata as [|[n cur] resdata IH]; intros Hnodup Hin;
    [now elim Hin|].
  simpl in Hnodup. inversion Hnodup as [|? ? Hhead Htail]. subst.
  cbn [check_state].
  destruct (String.eqb_spec name n) as [-> | Hneq].
  - assert (d = cur) as ->.
    { destruct Hin as [H | H]; [now injection H|].
      elim Hhead. now apply (in_map fst) in H. }
    cbn [andb].
    destruct (Z.ltb_spec state 0), (Z.leb_spec (Py.len cur) state),
      (Z.leb_spec 0 state), (Z.ltb_spec state (Py.len cur));
      try lia; cbn [orb andb]; try reflexivity.
    rewrite bind_ret. now apply check_state_absent.
  - cbn [andb]. rewrite bind_ret. apply IH; [exact Htail|].
    destruct Hin as [H | H]; [|exact H].
    injection H as -> _. now elim Hneq.
Qed.

Lemma state_index_in_range_witness :
  check_state "TYR" 2 [("AS4", Sample.as4); ("TYR", Sample.tyr)] =
  if (0 <=? 2) && (2 <? Py.len Sample.tyr) then ret tt
  else Abort []
             ["Error: Residue states must range from 0 to num_states - 1 for each residue!"]
             (SysExit ExitStateRange).
Proof.
  apply (state_index_in_range "TYR" 2 [("AS4", Sample.as4); ("TYR", Sample.tyr)]).
  - simpl. constructor; [intros [H | []]; discriminate H|].
    constructor; [intros [] | constructor].
  - right. now left.
Defined.

(** ** What a run leaves on stdout *)

Lemma tidy_ret {A} (I : A -> Prop) a : I a -> tidy I (ret a).
Proof. intros H. simpl. auto. Qed.

Lemma tidy_bind {A B} (P : A -> Prop) (Q : B -> Prop) m (f : A -> W B) :
  tidy P m -> (forall a, P a -> tidy Q (f a)) -> tidy Q (bind m f).
Proof.
  destruct m as [o e a | o e why]; simpl; [|auto].
  intros (Ho & -> & Ha) Hf. specialize (Hf a Ha).
  destruct (f a) as [o' e' b | o' e' why]; simpl in *; [|exact Hf].
  destruct Hf as (Ho' & -> & Hb). split; [now apply Forall_app | auto].
Qed.

Lemma tidy_then {A B} (Q : B -> Prop) (m : W A) (f : A -> W B) :
  tidy anything m -> (forall a, tidy Q (f a)) -> tidy Q (bind m f).
Proof. intros Hm Hf. apply tidy_bind with anything; auto. Qed.

Lemma tidy_foldM {A B} (I : B -> Prop) (f : B -> A -> W B) l :
  forall b,
    I b -> (forall b a, I b -> tidy I (f b a)) -> tidy I (foldM f l b).
Proof.
  induction l as [|a l IH]; intros b Hb Hf; simpl foldM.
  - now apply tidy_ret.
  - apply tidy_bind with I; [now apply Hf|].
    intros b' Hb'. now apply IH.
Qed.

Lemma tidy_get {A} e (o : option A) : tidy anything (get e o).
Proof.
  destruct o; simpl; [repeat split; auto; exact I|].
  right. right. now exists e.
Qed.

Lemma tidy_addOn line toadd : blank line -> tidy blank (addOn line toadd).
Proof.
  intros Hline. unfold addOn.
  destruct (80 <? String.length line + String.length toadd)%nat; simpl.
  - repeat split; [now constructor | apply blank_continuation].
  - repeat split; [constructor | now apply blank_append].
Qed.

Lemma tidy_print line : blank line -> tidy anything (print_stdout line).
Proof.
  intros H. simpl. split; [now constructor | split; [reflexivity | exact I]].
Qed.

Lemma tidy_add_tokens line tokens :
  blank line -> tidy blank (add_tokens line tokens).
Proof.
  intros Hline. unfold add_tokens. apply tidy_foldM; [exact Hline|].
  intros. now apply tidy_addOn.
Qed.

Lemma tidy_chrgdat resdata : tidy anything (chrgdat resdata).
Proof.
  unfold chrgdat.
  apply tidy_bind with (fun r : string * list block => blank (fst r)).
  - apply tidy_foldM; [reflexivity|].
    intros [line acc] [name d] Hline. unfold chrgdat_block. simpl in *.
    destruct d as [|curdata]; [now left|].
    apply tidy_bind with blank; [now apply tidy_add_tokens|].
    intros l Hl. now apply tidy_ret.
  - intros r Hr. apply tidy_then; [now apply tidy_print|].
    intros _. now apply tidy_ret.
Qed.

Lemma tidy_token_loop {A} (step : string -> A -> W string) items header :
  blank header ->
  (forall line a, blank line -> tidy blank (step line a)) ->
  tidy anything (line <- foldM step items header ;; print_stdout line).
Proof.
  intros Hheader Hstep.
  apply tidy_bind with blank; [now apply tidy_foldM|].
  intros line Hline. now apply tidy_print.
Qed.

Lemma tidy_get_addOn {A} e (o : option A) (token : A -> string) line :
  blank line -> tidy blank (a <- get e o ;; addOn line (token a)).
Proof.
  intros Hline. apply tidy_then; [apply tidy_get|].
  intros a. now apply tidy_addOn.
Qed.

Lemma tidy_protcnt resdata : tidy anything (protcnt resdata).
Proof.
  apply tidy_token_loop; [reflexivity|]. intros line rec Hline.
  now apply (tidy_get_addOn Py.IndexError (Py.index rec 1) (fun p => p +++ ",")).
Qed.

Lemma tidy_statene resdata : tidy anything (statene resdata).
Proof.
  apply tidy_token_loop; [reflexivity|]. intros line rec Hline.
  now apply (tidy_get_addOn Py.IndexError (Py.index rec 0) (fun p => p +++ ",")).
Qed.

Lemma tidy_resname residues nums : tidy anything (resname residues nums).
Proof.
  apply tidy_token_loop; [reflexivity|]. intros line n Hline.
  now apply (tidy_get_addOn Py.IndexError (Py.index residues (n - 1))
               (fun name => "'Residue: " +++ name +++ " " +++ Py.str n +++ "',")).
Qed.

Lemma tidy_check_state name state resdata :
  tidy anything (check_state name state resdata).
Proof.
  induction resdata as [|[n curdata] resdata IH]; cbn [check_state];
    [now apply tidy_ret|].
  apply tidy_then; [|intros; exact IH].
  destruct (String.eqb name n && ((state <? 0) || (Py.len curdata <=? state))).
  - right. now left.
  - now apply tidy_ret.
Qed.

Lemma tidy_resstate residues occurrences resdata :
  tidy anything (resstate residues occurrences resdata).
Proof.
  apply tidy_token_loop; [reflexivity|]. intros line o Hline.
  apply tidy_then; [apply tidy_get|]. intros name.
  apply tidy_then; [apply tidy_check_state|]. intros _.
  now apply tidy_addOn.
Qed.

Lemma tidy_locate name resdata :
  forall startchrg startst,
    tidy anything (locate name resdata startchrg startst).
Proof.
  induction resdata as [|[n curdata] resdata IH]; intros c s; cbn [locate];
    [now apply tidy_ret|].
  apply tidy_then; [apply tidy_get|]. intros rec0.
  destruct (String.eqb name n); [now apply tidy_ret | apply IH].
Qed.

Lemma tidy_stateinf_entry residues indices resdata x n line sizes :
  blank line ->
  tidy (fun r => blank (fst r))
       (stateinf_entry residues indices resdata x n line sizes).
Proof.
  intros Hline. unfold stateinf_entry.
  apply tidy_then; [apply tidy_get|]. intros holder.
  apply tidy_bind with blank; [now apply tidy_addOn|]. intros l1 Hl1.
  apply tidy_then; [apply tidy_get|]. intros name.
  apply tidy_then; [apply tidy_locate|]. intros [[startchrg startst] set].
  apply tidy_bind with blank; [now apply tidy_addOn|]. intros l2 Hl2.
  apply tidy_bind with blank; [now apply tidy_addOn|]. intros l3 Hl3.
  apply tidy_then; [apply tidy_get|]. intros v.
  apply tidy_bind with blank; [now apply tidy_addOn|]. intros l4 Hl4.
  apply tidy_bind with blank; [now apply tidy_addOn|]. intros l5 Hl5.
  now apply tidy_ret.
Qed.

Lemma tidy_stateinf residues indices resdata nums :
  tidy anything (stateinf residues indices resdata nums).
Proof.
  unfold stateinf.
  apply tidy_bind with blank; [|intros; now apply tidy_print].
  assert (blank " ") as Hline by reflexivity. revert Hline.
  generalize 0 at 1. generalize " ". generalize (@None (Z * Z)).
  induction nums as [|n nums IH]; intros sizes line x Hline; cbn [stateinf_loop].
  - now apply tidy_ret.
  - apply tidy_bind with (fun r : string * option (Z * Z) => blank (fst r));
      [now apply tidy_stateinf_entry|].
    intros r Hr. now apply IH.
Qed.

Lemma closes_bind {A} count (m : W A) (f : A -> W unit) :
  tidy anything m -> (forall a, closes count (f a)) ->
  closes count (bind m f).
Proof.
  destruct m as [o e a | o e why]; simpl; [|auto].
  intros (Ho & -> & _) Hf. specialize (Hf a).
  destruct (f a) as [o' e' [] | o' e' why]; simpl in *; [|exact Hf].
  destruct Hf as (mid & -> & Hmid & ->).
  exists (o ++ mid). split; [now rewrite app_assoc|].
  split; [now apply Forall_app | reflexivity].
Qed.

(** X10.  A namelist that is written to its end is the line "&CNSTPH",
    then lines that all start with a blank, then the TRESCNT line, which
    carries the number of selected residues, then the line "/"; and the
    only line on stderr is "CPin created!". *)
Theorem namelist_frame w igb residues indices nums names states out err :
  namelist w igb residues indices nums names states = Done out err tt ->
  exists mid,
    out = "&CNSTPH" :: mid ++ [" TRESCNT=" +++ Py.str (Py.len nums) +++ ","; "/"] /\
    Forall blank mid /\
    err = ["CPin created!"].
Proof.
  unfold namelist.
  assert (closes (Py.len nums)
            (resdata <- chrgdat (map (fun name => (name, getData w name igb)) names) ;;
             protcnt resdata ;;
             resname residues nums ;;
             resstate residues (combine nums states) resdata ;;
             stateinf residues indices resdata nums ;;
             statene resdata ;;
             print_stdout (" TRESCNT=" +++ Py.str (Py.len nums) +++ ",") ;;
             print_stdout "/" ;;
             print_stderr "CPin created!")) as Hrest.
  { apply closes_bind; [apply tidy_chrgdat|]. intros resdata.
    apply closes_bind; [apply tidy_protcnt|]. intros _.
    apply closes_bind; [apply tidy_resname|]. intros _.
    apply closes_bind; [apply tidy_resstate|]. intros _.
    apply closes_bind; [apply tidy_stateinf|]. intros _.
    apply closes_bind; [apply tidy_statene|]. intros _.
    exists []. repeat split. constructor. }
  destruct (_ <- chrgdat _ ;; _) as [o e [] | o e why]; simpl in *;
    [|discriminate].
  intros H. injection H as <- <-.
  destruct Hrest as (mid & -> & Hmid & ->). now exists mid.
Qed.

Lemma namelist_frame_witness :
  exists mid,
    stdout (cpinutil Sample.full (Sample.command []))
    = "&CNSTPH" :: mid ++ [" TRESCNT=" +++ Py.str (Py.len [3; 4]) +++ ","; "/"] /\
    Forall blank mid /\
    ["CPin created!"] = ["CPin created!"].
Proof.
  apply (namelist_frame Sample.full 5 Sample.labels Sample.pointers [3; 4]
           ["AS4"; "TYR"] [0; 0] _ ["CPin created!"]).
  reflexivity.
Defined.

Lemma nothing_printed out : Forall nothing out -> out = [].
Proof. destruct out as [|l out]; [reflexivity | intros H; now inversion H]. Qed.

Lemma stdout_shape_bind {A} (m : W A) (f : A -> W unit) :
  sound nothing early anything m ->
  (forall a, stdout_shape (f a)) ->
  stdout_shape (bind m f).
Proof.
  intros [Hout Hm] Hf. apply nothing_printed in Hout.
  destruct m as [o e a | o e why]; simpl in *; subst o.
  - specialize (Hf a).
    destruct (f a) as [o' e' [] | o' e' [site| |]]; simpl in *; exact Hf.
  - destruct why as [site| |]; [|reflexivity | now left].
    destruct Hm as [[Hl Hr] _].
    destruct site; try reflexivity; [now elim Hl | now elim Hr].
Qed.

Lemma stdout_shape_namelist w igb residues indices nums names states :
  stdout_shape (namelist w igb residues indices nums names states).
Proof.
  unfold namelist.
  assert (closes (Py.len nums)
            (resdata <- chrgdat (map (fun name => (name, getData w name igb)) names) ;;
             protcnt resdata ;;
             resname residues nums ;;
             resstate residues (combine nums states) resdata ;;
             stateinf residues indices resdata nums ;;
             statene resdata ;;
             print_stdout (" TRESCNT=" +++ Py.str (Py.len nums) +++ ",") ;;
             print_stdout "/" ;;
             print_stderr "CPin created!")) as Hrest.
  { apply closes_bind; [apply tidy_chrgdat|]. intros resdata.
    apply closes_bind; [apply tidy_protcnt|]. intros _.
    apply closes_bind; [apply tidy_resname|]. intros _.
    apply closes_bind; [apply tidy_resstate|]. intros _.
    apply closes_bind; [apply tidy_stateinf|]. intros _.
    apply closes_bind; [apply tidy_statene|]. intros _.
    exists []. repeat split. constructor. }
  destruct (_ <- chrgdat _ ;; _) as [o e [] | o e why]; simpl in *.
  - destruct Hrest as (mid & -> & Hmid & _).
    exists mid, (Py.len nums). split; [reflexivity|].
    split; [exact Hmid | apply len_nonneg].
  - destruct Hrest as [-> | [-> | (e0 & ->)]].
    + now exists o.
    + now exists o.
    + right. now exists o.
Qed.

(** X9.  What a run leaves on stdout depends on how it ends.  A run that
    goes through leaves a whole record: "&CNSTPH", blank-led lines, the
    TRESCNT line and "/".  A run stopped by a lookup error or a state
    index out of range leaves lines that begin with "&CNSTPH".  A run
    stopped by any other [sys.exit()] or in the usage message leaves
    nothing, and an uncaught exception leaves nothing or lines that begin
    with "&CNSTPH". *)
Theorem stdout_of_a_run w argv : stdout_shape (cpinutil w argv).
Proof.
  unfold cpinutil.
  apply stdout_shape_bind; [apply sound_check_usage|]. intros _.
  apply stdout_shape_bind; [apply sound_read_arguments|]. intros s.
  unfold body.
  apply stdout_shape_bind.
  { destruct (fileexists w (prmtop s) =? -1); [|auto with sound].
    split; simpl; [constructor|]. split; [auto with sound | now left]. }
  intros _. apply stdout_shape_bind; [apply sound_default_igb|]. intros igb.
  apply stdout_shape_bind; [apply sound_check_radii|]. intros _.
  apply stdout_shape_bind; [apply sound_check_labels|]. intros _.
  apply stdout_shape_bind; [apply sound_convert|]. intros n.
  apply stdout_shape_bind; [apply sound_pKa_filter|]. intros titrate.
  apply stdout_shape_bind; [apply sound_selector|]. intros nums.
  apply stdout_shape_bind; [apply sound_residue_names|]. intros names.
  apply stdout_shape_bind; [apply sound_initial_states|]. intros states.
  apply stdout_shape_namelist.
Qed.

(** ** The length of the lines of the data fields *)

Lemma sound_foldM_In {A B} L S (I : B -> Prop) (f : B -> A -> W B) l :
  forall b,
    I b -> (forall b a, In a l -> I b -> sound L S I (f b a)) ->
    sound L S I (foldM f l b).
Proof.
  induction l as [|a l IH]; intros b Hb Hf; simpl.
  - now apply sound_ret.
  - apply sound_bind with I; [apply Hf; [now left | exact Hb]|].
    intros b' Hb'. apply IH; [exact Hb'|].
    intros b0 a0 Hin. apply Hf. now right.
Qed.

Lemma short_addOn S line toadd :
  short line -> (String.length toadd <= 79)%nat ->
  sound short S short (addOn line toadd).
Proof.
  unfold short. intros Hline Htoadd. unfold addOn.
  destruct (Nat.ltb_spec 80 (String.length line + String.length toadd)).
  - split; simpl; [now constructor | lia].
  - apply sound_ret. rewrite length_append. lia.
Qed.

Lemma short_entry (c : string) :
  (String.length c <= 78)%nat -> (String.length (c +++ ",") <= 79)%nat.
Proof. intros H. rewrite length_append. simpl. lia. Qed.

Lemma short_charges curdata line :
  short_data curdata -> short line ->
  sound short anything short (add_tokens line (charges curdata)).
Proof.
  intros Hdata Hline. unfold add_tokens.
  apply sound_foldM_In; [exact Hline|].
  intros l t Hin Hl. apply short_addOn; [exact Hl|].
  unfold charges in Hin. apply in_flat_map in Hin.
  destruct Hin as (rec & Hrec & Hin). apply in_map_iff in Hin.
  destruct Hin as (c & <- & Hc). apply short_entry.
  unfold short_data in Hdata. rewrite Forall_forall in Hdata.
  specialize (Hdata rec Hrec). rewrite Forall_forall in Hdata.
  apply Hdata. rewrite <- (firstn_skipn 2 rec). apply in_or_app. now right.
Qed.

Lemma short_record_entry blocks rec i c :
  Forall (fun b : block => short_data (snd b)) blocks ->
  In rec (flat_map snd blocks) ->
  Py.index rec i = Some c ->
  (String.length c <= 78)%nat.
Proof.
  intros Hblocks Hrec Hc. apply in_flat_map in Hrec.
  destruct Hrec as (b & Hb & Hrec). rewrite Forall_forall in Hblocks.
  specialize (Hblocks b Hb). unfold short_data in Hblocks.
  rewrite Forall_forall in Hblocks. specialize (Hblocks rec Hrec).
  rewrite Forall_forall in Hblocks. apply Hblocks.
  unfold Py.index in Hc.
  destruct ((0 <=? i) && (i <? Py.len rec));
    [now apply nth_error_In in Hc|].
  destruct ((- Py.len rec <=? i) && (i <? 0)); [|discriminate].
  now apply nth_error_In in Hc.
Qed.

(** X11.  As long as every entry of the reference data prints in at most
    78 characters, no line of the CHRGDAT, PROTCNT and STATENE fields has
    more than 80 characters, whether the field is written to its end or
    the run stops in the middle of it. *)
Theorem data_fields_within_80 resdata blocks :
  (forall name d, In (name, States d) resdata -> short_data d) ->
  Forall (fun b : block => short_data (snd b)) blocks ->
  Forall short (stdout (chrgdat resdata)) /\
  Forall short (stdout (protcnt blocks)) /\
  Forall short (stdout (statene blocks)).
Proof.
  intros Hresdata Hblocks. split; [|split].
  - enough (sound short anything anything (chrgdat resdata)) as H by apply H.
    unfold chrgdat.
    apply sound_bind with (fun r : string * list block => short (fst r)).
    + apply sound_foldM_In; [unfold short; simpl; lia|].
      intros [line acc] [name d] Hin Hline. unfold chrgdat_block. simpl in *.
      destruct d as [|curdata].
      * apply sound_exit; [reflexivity | exact I].
      * apply sound_bind with short;
          [apply short_charges; [now apply (Hresdata name) | exact Hline]|].
        intros l Hl. now apply sound_ret.
    + intros r Hr. apply sound_then.
      * split; simpl; [now constructor | exact I].
      * intros _. now apply sound_ret.
  - enough (sound short anything anything (protcnt blocks)) as H by apply H.
    unfold protcnt. apply sound_bind with short.
    + apply sound_foldM_In; [unfold short; simpl; lia|].
      intros line rec Hin Hline.
      destruct (Py.index rec 1) as [p|] eqn:Hp; cbn [get].
      * rewrite bind_ret. apply short_addOn; [exact Hline|].
        apply short_entry. now apply (short_record_entry blocks rec 1).
      * split; simpl; [constructor | exact I].
    + intros line Hline. split; simpl; [now constructor | exact I].
  - enough (sound short anything anything (statene blocks)) as H by apply H.
    unfold statene. apply sound_bind with short.
    + apply sound_foldM_In; [unfold short; simpl; lia|].
      intros line rec Hin Hline.
      destruct (Py.index rec 0) as [p|] eqn:Hp; cbn [get].
      * rewrite bind_ret. apply short_addOn; [exact Hline|].
        apply short_entry. now apply (short_record_entry blocks rec 0).
      * split; simpl; [constructor | exact I].
    + intros line Hline. split; simpl; [now constructor | exact I].
Qed.

Lemma data_fields_within_80_witness :
  Forall short (stdout (chrgdat [("AS4", States Sample.as4); ("LYS", MinusOne)])) /\
  Forall short (stdout (protcnt [("AS4", Sample.as4); ("TYR", Sample.tyr)])) /\
  Forall short (stdout (statene [("AS4", Sample.as4); ("TYR", Sample.tyr)])).
Proof.
  apply (data_fields_within_80
           [("AS4", States Sample.as4); ("LYS", MinusOne)]
           [("AS4", Sample.as4); ("TYR", Sample.tyr)]).
  - intros name d [H | [H | []]]; [|discriminate H].
    injection H as _ <-. repeat constructor.
  - repeat constructor.
Defined.

(** ** The names given with -resname *)

Lemma prefix_self a b : String.prefix a (a +++ b) = true.
Proof.
  induction a as [|c a IH]; [now destruct b|].
  cbn [String.append String.prefix].
  destruct (Ascii.ascii_dec c c) as [_ | Hc]; [exact IH | now elim Hc].
Qed.

Lemma contains_inside pre a post :
  Py.contains a (pre +++ a +++ post) = true.
Proof.
  induction pre as [|c pre IH].
  - cbn [String.append]. destruct (a +++ post) eqn:E; cbn [Py.contains];
      rewrite <- E, prefix_self; reflexivity.
  - cbn [String.append Py.contains]. rewrite IH. apply orb_true_r.
Qed.

Lemma names_after acc vs :
  fold_left (fun t p => t +++ p +++ " ") vs acc =
  acc +++ fold_left (fun t p => t +++ p +++ " ") vs "".
Proof.
  revert acc. induction vs as [|v vs IH]; intros acc; simpl.
  - now rewrite append_empty_r.
  - rewrite (IH (acc +++ v +++ " ")), (IH (v +++ " ")).
    now rewrite !append_assoc.
Qed.

Lemma names_contain vs :
  forall acc p,
    In p vs ->
    Py.contains p (fold_left (fun t p => t +++ p +++ " ") vs acc) = true.
Proof.
  induction vs as [|v vs IH]; intros acc p Hin; [now elim Hin|].
  simpl. destruct Hin as [-> | Hin]; [|now apply IH].
  rewrite names_after, !append_assoc. apply contains_inside.
Qed.

(** X12.  After [-resname], every name that was given with the flag (each
    piece between commas of the arguments up to the next flag, stripped)
    passes the [in] test against the new [titrate_residues]; so a residue
    of the topology that bears one of these names is selected by the
    scan.  The built-in names are no longer consulted. *)
Theorem resname_values_are_titrated rest s out err s' residues i name :
  argument "-resname" rest s = Done out err s' ->
  In name (values rest) ->
  nth_error residues i = Some name ->
  resname_spec s' = true /\
  Py.contains name (titrate_residues s') = true /\
  In (Z.of_nat i + 1) (select_matching residues 0 (titrate_residues s')).
Proof.
  intros H Hname Hnth.
  change (argument "-resname" rest s) with
    (if nresname_spec s
     then print_stderr conflict_names ;; sys_exit ExitResname
     else ret (set_resname
                 (fold_left (fun t p => t +++ p +++ " ") (values rest) "") s))
    in H.
  destruct (nresname_spec s); [discriminate H|].
  injection H as _ _ <-.
  assert (Py.contains name
            (titrate_residues
               (set_resname
                  (fold_left (fun t p => t +++ p +++ " ") (values rest) "") s))
          = true) as Hin.
  { destruct s. simpl. now apply names_contain. }
  split; [now destruct s|]. split; [exact Hin|].
  now apply (select_matching_complete _ residues 0 i name).
Qed.

Lemma resname_values_are_titrated_witness :
  resname_spec (set_resname "TYR LYS " defaults) = true /\
  Py.contains "TYR" (titrate_residues (set_resname "TYR LYS " defaults)) = true /\
  In (Z.of_nat 3 + 1)
     (select_matching Sample.labels 0
        (titrate_residues (set_resname "TYR LYS " defaults))).
Proof.
  apply (resname_values_are_titrated ["TYR, LYS"; "-igb"; "5"] defaults [] []
           (set_resname "TYR LYS " defaults) Sample.labels 3 "TYR").
  - reflexivity.
  - now left.
  - reflexivity.
Defined.

(** * Properties of the reader of pH statistics files *)

Module TitrationFacts.
Import Titration.

Lemma next_residue_from re f :
  forall at_loop res rest,
    next_residue re at_loop f = (res, rest) ->
    match res with
    | Some residue =>
        exists before line,
          f = before ++ line :: rest /\
          reslinere re line = Some residue /\
          is_line line /\ Forall is_line before
    | None => exists before, f = before ++ rest
    end.
Proof.
  induction f as [|rawline f IH]; intros at_loop res rest H; simpl in H.
  - injection H as <- <-. now exists [].
  - destruct (String.eqb_spec rawline "") as [-> | Hline].
    { injection H as <- <-. now exists [""]. }
    assert (forall at_loop',
              next_residue re at_loop' f = (res, rest) ->
              match res with
              | Some residue =>
                  exists before line,
                    rawline :: f = before ++ line :: rest /\
                    reslinere re line = Some residue /\
                    is_line line /\ Forall is_line before
              | None => exists before, rawline :: f = before ++ rest
              end) as Hnext.
    { intros at_loop' H'. specialize (IH _ _ _ H').
      destruct res as [residue|].
      - destruct IH as (before & line & -> & Hre & Hl & Hb).
        exists (rawline :: before), line.
        split; [reflexivity|]. split; [exact Hre|]. split; [exact Hl|].
        now constructor.
      - destruct IH as (before & ->). now exists (rawline :: before). }
    destruct at_loop.
    + destruct (reslinere re rawline) as [residue|] eqn:Hre.
      * injection H as <- <-. exists [], rawline.
        split; [reflexivity|]. split; [exact Hre|]. split; [exact Hline|].
        constructor.
      * destruct (String.eqb (Py.strip rawline) "");
          [destruct (cumulativere re rawline)|]; now apply Hnext in H.
    + destruct (cumulativere re rawline); now apply Hnext in H.
Qed.

(** X13.  A residue that [get_next_residue] returns is read off a line of
    the file that [reslinere] matches, and the file is left right behind
    that line; no line before it is the empty string. *)
Theorem get_next_residue_returns re f residue rest :
  get_next_residue re f = (Some residue, rest) ->
  exists before line,
    f = before ++ line :: rest /\
    reslinere re line = Some residue /\
    is_line line /\ Forall is_line before.
Proof. intros H. exact (next_residue_from re f Outer _ _ H). Qed.

Lemma get_next_residue_returns_witness :
  exists before line,
    ["pH"; "R1"; "R2"] = before ++ line :: ["R2"] /\
    reslinere toy line = Some ("R", 1, 0.5%float) /\
    is_line line /\ Forall is_line before.
Proof.
  apply (get_next_residue_returns toy ["pH"; "R1"; "R2"]). reflexivity.
Defined.

Lemma inner_loop_skips re mid :
  forall h rest,
    Forall (fun l => is_line l /\ cumulativere re l = false) mid ->
    is_line h -> cumulativere re h = true ->
    next_residue re Inner (mid ++ h :: rest) = next_residue re Outer rest.
Proof.
  induction mid as [|l mid IH]; intros h rest Hmid Hh Hc; simpl.
  - destruct (String.eqb_spec h ""); [now elim Hh|]. now rewrite Hc.
  - inversion Hmid as [|? ? [Hl Hlc] Hrest]. subst.
    destruct (String.eqb_spec l ""); [now elim Hl|].
    rewrite Hlc. now apply IH.
Qed.

(** X14.  After a blank line that is not itself a CUMULATIVE header,
    [get_next_residue] passes over everything up to and including the
    next CUMULATIVE header: the lines in between are not looked at, even
    those that [reslinere] would match. *)
Theorem blank_line_skips_to_header re blank mid header rest :
  is_line blank -> Py.strip blank = "" ->
  reslinere re blank = None -> cumulativere re blank = false ->
  Forall (fun l => is_line l /\ cumulativere re l = false) mid ->
  is_line header -> cumulativere re header = true ->
  get_next_residue re (blank :: mid ++ header :: rest) =
  get_next_residue re rest.
Proof.
  intros Hb Hstrip Hre Hc Hmid Hh Hhc.
  unfold get_next_residue. cbn [next_residue].
  destruct (String.eqb_spec blank ""); [now elim Hb|].
  rewrite Hre, Hstrip, Hc. cbn [String.eqb].
  now apply inner_loop_skips.
Qed.

Lemma blank_line_skips_to_header_witness :
  get_next_residue toy (newline :: ["R1"; "R2"] ++ "== CUMULATIVE" :: ["R3"]) =
  get_next_residue toy ["R3"].
Proof.
  apply (blank_line_skips_to_header toy newline ["R1"; "R2"] "== CUMULATIVE" ["R3"]).
  - discriminate.
  - reflexivity.
  - reflexivity.
  - reflexivity.
  - repeat constructor; discriminate.
  - discriminate.
  - reflexivity.
Defined.

Lemma next_residue_shorter re f :
  forall at_loop res rest,
    next_residue re at_loop f = (res, rest) ->
    match res with
    | Some _ => (List.length rest < List.length f)%nat
    | None => (List.length rest <= List.length f)%nat
    end.
Proof.
  intros at_loop res rest H. apply next_residue_from in H.
  destruct res as [residue|].
  - destruct H as (before & line & -> & _). rewrite length_app. simpl. lia.
  - destruct H as (before & ->). rewrite length_app. lia.
Qed.

Lemma titrating_loop_ends re fuel :
  forall acc residue f,
    NoDup acc ->
    (match residue with
     | Some _ => 2 + List.length f
     | None => 1
     end <= fuel)%nat ->
    exists res,
      titrating_loop re fuel acc residue f = Some res /\
      match res with
      | inl e => e = Py.TypeError
      | inr l => NoDup l /\ l <> []
      end.
Proof.
  induction fuel as [|fuel IH]; intros acc residue f Hacc Hfuel.
  - destruct residue; lia.
  - cbn [titrating_loop].
    destruct residue as [[[resname resnum] frac]|]; cbn [label].
    + destruct (existsb (String.eqb (resname +++ "_" +++ Py.str resnum)) acc)
        eqn:Hseen.
      * exists (inr acc). split; [reflexivity|]. split; [exact Hacc|].
        apply existsb_exists in Hseen. destruct Hseen as (k & Hk & _).
        intros ->. exact Hk.
      * destruct (get_next_residue re f) as [residue' f'] eqn:Hnext.
        apply IH.
        -- apply NoDup_app; [exact Hacc | constructor; [intros [] | constructor]|].
           intros k Hk [<- | []].
           assert (existsb (String.eqb (resname +++ "_" +++ Py.str resnum)) acc
                   = true) as Hyes.
           { apply existsb_exists. eexists. split; [exact Hk|].
             apply String.eqb_refl. }
           congruence.
        -- pose proof (next_residue_shorter re f Outer _ _ Hnext) as Hlen.
           destruct residue'; lia.
    + exists (inl Py.TypeError). now split.
Qed.

(** X15.  [titrating_residues] always comes to an end.  When it returns a
    list, the list is not empty and holds no label twice; the only other
    outcome is the TypeError raised, when the file runs out before a
    label comes a second time, by formatting (None, None) with [%d]. *)
Theorem titrating_residues_ends re f :
  exists res,
    titrating_residues re f = Some res /\
    match res with
    | inl e => e = Py.TypeError
    | inr l => NoDup l /\ l <> []
    end.
Proof.
  unfold titrating_residues.
  destruct (get_next_residue re f) as [residue f'] eqn:Hnext.
  apply titrating_loop_ends; [constructor|].
  pose proof (next_residue_shorter re f Outer _ _ Hnext) as Hlen.
  destruct residue; lia.
Qed.

Lemma no_residue_lines re f :
  forall at_loop,
    Forall (fun l => reslinere re l = None) f ->
    fst (next_residue re at_loop f) = None.
Proof.
  induction f as [|l f IH]; intros at_loop Hf; simpl; [reflexivity|].
  inversion Hf as [|? ? Hl Hrest]. subst.
  destruct (String.eqb l ""); [reflexivity|].
  destruct at_loop.
  - rewrite Hl.
    destruct (String.eqb (Py.strip l) ""); [destruct (cumulativere re l)|];
      now apply IH.
  - destruct (cumulativere re l); now apply IH.
Qed.

(** X16.  On a file without a single residue line, the empty file among
    them, [titrating_residues] does not return the empty list: it raises
    TypeError. *)
Theorem titrating_residues_without_residues re f :
  Forall (fun l => reslinere re l = None) f ->
  titrating_residues re f = Some (inl Py.TypeError).
Proof.
  intros Hf. unfold titrating_residues, get_next_residue.
  pose proof (no_residue_lines re f Outer Hf) as Hnone.
  destruct (next_residue re Outer f) as [residue f']. simpl in Hnone.
  now subst residue.
Qed.

Lemma titrating_residues_without_residues_witness :
  titrating_residues toy ["pH 7.0"; "== CUMULATIVE"] = Some (inl Py.TypeError).
Proof.
  apply (titrating_residues_without_residues toy ["pH 7.0"; "== CUMULATIVE"]).
  repeat constructor.
Defined.

(** X17.  [get_pH] returns the pH of the first line that [solvphre]
    matches and leaves the file right behind that line. *)
Theorem get_pH_first_match re f pH rest :
  get_pH re f = (Some pH, rest) ->
  exists before line,
    f = before ++ line :: rest /\
    solvphre re line = Some pH /\
    Forall (fun l => solvphre re l = None) before.
Proof.
  revert pH rest. induction f as [|l f IH]; intros pH rest H; simpl in H.
  - discriminate H.
  - destruct (String.eqb l ""); [discriminate H|].
    destruct (solvphre re l) as [p|] eqn:Hl.
    + injection H as <- <-. exists [], l. now repeat split.
    + destruct (IH _ _ H) as (before & line & -> & Hline & Hbefore).
      exists (l :: before), line. repeat split; auto.
Qed.

Lemma get_pH_first_match_witness :
  exists before line,
    ["x"; "pH 7.0"; "R1"] = before ++ line :: ["R1"] /\
    solvphre toy line = Some 7.0%float /\
    Forall (fun l => solvphre toy l = None) before.
Proof.
  apply (get_pH_first_match toy ["x"; "pH 7.0"; "R1"]). reflexivity.
Defined.

End TitrationFacts.

(** ** Residue numbers that can be selected, and those that cannot *)

Lemma select_number_takes prmtop residues titrate acc n :
  selectable residues titrate n ->
  select_number prmtop residues titrate acc n = ret (acc ++ [n]).
Proof.
  intros [Hrange (name & Hnth & Hname)]. unfold select_number.
  destruct (Z.ltb_spec (Py.len residues) n); [lia|].
  rewrite (index_in_range residues n Hrange), Hnth. cbn [get].
  rewrite bind_ret. now rewrite Hname.
Qed.

Lemma select_listed_takes prmtop residues titrate resnums :
  forall acc,
    Forall (selectable residues titrate) resnums ->
    foldM (select_number prmtop residues titrate) resnums acc
    = ret (acc ++ resnums).
Proof.
  induction resnums as [|n resnums IH]; intros acc Hall; simpl.
  - now rewrite app_nil_r.
  - inversion Hall as [|? ? Hn Hrest]. subst.
    rewrite (select_number_takes _ _ _ _ _ Hn), bind_ret, (IH _ Hrest).
    now rewrite <- app_assoc.
Qed.

Lemma len_zero_iff {A} (l : list A) : (Py.len l =? 0) = true <-> l = [].
Proof.
  destruct l as [|a l]; [now split|].
  rewrite len_cons. pose proof (len_nonneg l) as Hl. split; [|discriminate].
  intros H. apply Z.eqb_eq in H. lia.
Qed.

(** X18.  When every number given with [-resnum] lies within the topology
    and names a residue whose name passes the [in] test, the selector
    prints nothing and returns the numbers as they were given, in their
    order and with their repetitions. *)
Theorem listed_numbers_are_selected prmtop residues titrate resnums :
  resnums <> [] ->
  Forall (selectable residues titrate) resnums ->
  selector prmtop residues titrate resnums [] = Done [] [] resnums.
Proof.
  intros Hne Hall. unfold selector, select_listed.
  assert ((Py.len resnums =? 0) = false) as Hlen.
  { destruct (Py.len resnums =? 0) eqn:E; [|reflexivity].
    apply len_zero_iff in E. now elim Hne. }
  rewrite Hlen. cbn [negb].
  rewrite (select_listed_takes _ _ _ _ [] Hall). cbn [app].
  rewrite bind_ret, Hlen. now rewrite bind_ret.
Qed.

Lemma listed_numbers_are_selected_witness :
  selector "prmtop" Sample.labels titratable [4; 3; 4] [] = Done [] [] [4; 3; 4].
Proof.
  apply (listed_numbers_are_selected "prmtop" Sample.labels titratable [4; 3; 4]).
  - discriminate.
  - repeat (apply Forall_cons;
            [unfold selectable, Py.len; simpl; split;
             [lia | eexists; split; reflexivity]|]).
    apply Forall_nil.
Defined.

(** X19.  When the first number given with [-resnum] that cannot be
    selected lies within the topology but names a residue whose name does
    not pass the [in] test, the run stops at line 229 with a message that
    gives the number and the name; nothing is selected and nothing is on
    stdout. *)
Theorem not_titratable_is_reported prmtop residues titrate before n after
  notresnums name :
  Forall (selectable residues titrate) before ->
  1 <= n <= Py.len residues ->
  nth_error residues (Z.to_nat (n - 1)) = Some name ->
  Py.contains name titrate = false ->
  selector prmtop residues titrate (before ++ n :: after) notresnums =
  Abort []
        ["Error: Residue " +++ Py.str n +++ " is a " +++ name +++
         ". This is not in the list of titratable residues!"]
        (SysExit ExitNotTitratable).
Proof.
  intros Hbefore Hrange Hnth Hname. unfold selector, select_listed.
  assert ((Py.len (before ++ n :: after) =? 0) = false) as ->.
  { destruct (Py.len (before ++ n :: after) =? 0) eqn:E; [|reflexivity].
    apply len_zero_iff in E. now destruct before. }
  cbn [negb].
  assert (forall acc,
            foldM (select_number prmtop residues titrate)
                  (before ++ n :: after) acc
            = Abort []
                ["Error: Residue " +++ Py.str n +++ " is a " +++ name +++
                 ". This is not in the list of titratable residues!"]
                (SysExit ExitNotTitratable)) as ->; [|reflexivity].
  induction before as [|m before IH]; intros acc; cbn [app foldM].
  - unfold select_number.
    destruct (Z.ltb_spec (Py.len residues) n); [lia|].
    rewrite (index_in_range residues n Hrange), Hnth. cbn [get].
    rewrite bind_ret, Hname. reflexivity.
  - inversion Hbefore as [|? ? Hm Hrest]. subst.
    rewrite (select_number_takes _ _ _ _ _ Hm), bind_ret. now apply IH.
Qed.

Lemma not_titratable_is_reported_witness :
  selector "prmtop" Sample.labels titratable ([3] ++ 2 :: [4]) [] =
  Abort []
        ["Error: Residue " +++ Py.str 2 +++ " is a " +++ "GLU" +++
         ". This is not in the list of titratable residues!"]
        (SysExit ExitNotTitratable).
Proof.
  apply (not_titratable_is_reported "prmtop" Sample.labels titratable
           [3] 2 [4] [] "GLU").
  - repeat (apply Forall_cons;
            [unfold selectable, Py.len; simpl; split;
             [lia | eexists; split; reflexivity]|]).
    apply Forall_nil.
  - unfold Py.len. simpl. lia.
  - reflexivity.
  - reflexivity.
Defined.

Lemma select_matching_none titrate residues :
  forall x,
    Forall (fun name => Py.contains name titrate = false) residues ->
    select_matching residues x titrate = [].
Proof.
  induction residues as [|r residues IH]; intros x Hall; [reflexivity|].
  inversion Hall as [|? ? Hr Hrest]. subst. simpl. rewrite Hr. now apply IH.
Qed.

(** X20.  Without [-resnum], a topology in which no residue name passes
    the [in] test (the empty topology among them) ends the run at line 244
    with "Error: No titratable residues conform to your criteria!",
    whatever [-notresnum] says; nothing is on stdout. *)
Theorem nothing_to_titrate prmtop residues titrate notresnums :
  Forall (fun name => Py.contains name titrate = false) residues ->
  selector prmtop residues titrate [] notresnums =
  Abort [] ["Error: No titratable residues conform to your criteria!"]
        (SysExit ExitNoneSelected).
Proof.
  intros Hall. unfold selector. cbn [Py.len List.length Z.of_nat Z.eqb negb].
  rewrite bind_ret, (select_matching_none _ _ _ Hall). reflexivity.
Qed.

Lemma nothing_to_titrate_witness :
  selector "prmtop" ["ALA"; "GLU"] titratable [] [1] =
  Abort [] ["Error: No titratable residues conform to your criteria!"]
        (SysExit ExitNoneSelected).
Proof.
  apply (nothing_to_titrate "prmtop" ["ALA"; "GLU"] titratable [1]).
  repeat constructor.
Defined.

(** ** The RESNAME field *)

(** X21.  When every selected number lies within the topology, the
    RESNAME field is the field with the header [" RESNAME='System:
    Unknown',"] and one token ['Residue: <name> <number>',] per selected
    residue, in the order of the selection: repeated numbers give repeated
    tokens. *)
Theorem resname_is_a_field residues nums :
  Forall (fun n => 1 <= n <= Py.len residues) nums ->
  resname residues nums =
  field " RESNAME='System: Unknown'," (map (residue_token residues) nums).
Proof.
  intros Hnums. unfold resname, field, resname_token.
  rewrite (token_loop_is_field Py.IndexError
             (fun n => Py.index residues (n - 1))
             (fun n => nth (Z.to_nat (n - 1)) residues "")
             (fun n name => "'Residue: " +++ name +++ " " +++ Py.str n +++ "',"));
    [reflexivity|].
  intros n Hn. rewrite Forall_forall in Hnums. specialize (Hnums n Hn).
  rewrite (index_in_range residues n Hnums).
  apply nth_error_nth'. unfold Py.len in Hnums. lia.
Qed.

Lemma resname_is_a_field_witness :
  resname Sample.labels [3; 4; 3] =
  field " RESNAME='System: Unknown',"
        (map (residue_token Sample.labels) [3; 4; 3]).
Proof.
  apply (resname_is_a_field Sample.labels [3; 4; 3]).
  repeat (apply Forall_cons; [unfold Py.len; simpl; lia|]). apply Forall_nil.
Defined.

(** ** The STATEINF field of a run *)

Lemma add_tokens_app line a b :
  add_tokens line (a ++ b) = (l <- add_tokens line a ;; add_tokens l b).
Proof.
  unfold add_tokens. revert line.
  induction a as [|t a IH]; intros line; cbn [app foldM].
  - now rewrite bind_ret.
  - rewrite bind_assoc. apply bind_ext. intros l. apply IH.
Qed.

Lemma locate_found name resdata :
  forall startchrg startst out err found,
    locate name resdata startchrg startst = Done out err found ->
    In name (map fst resdata) ->
    exists earlier b later,
      resdata = earlier ++ b :: later /\ fst b = name /\
      ~ In name (map fst earlier) /\
      Forall (fun b => snd b <> []) (earlier ++ [b]).
Proof.
  induction resdata as [|[n d] resdata IH]; intros c s out err found H Hin;
    [now elim Hin|].
  cbn [locate] in H.
  destruct d as [|rec0 d]; [discriminate H|].
  rewrite index_0 in H. cbn [get] in H. rewrite bind_ret in H.
  destruct (String.eqb_spec name n) as [-> | Hneq].
  - exists [], (n, rec0 :: d), resdata.
    repeat split; auto. constructor; [discriminate | constructor].
  - destruct Hin as [Heq | Hin]; [simpl in Heq; now elim Hneq|].
    destruct (IH _ _ _ _ _ H Hin) as (earlier & b & later & -> & Hb & Hnew & Hdata).
    exists ((n, rec0 :: d) :: earlier), b, later.
    split; [reflexivity|]. split; [exact Hb|]. split.
    + simpl. intros [Heq | Hin']; [now elim Hneq | now apply Hnew].
    + constructor; [discriminate | exact Hdata].
Qed.

Lemma stateinf_entry_tokens residues indices resdata x n line sizes
  first_atom name earlier b later :
  Py.index indices (n - 1) = Some first_atom ->
  Py.index residues (n - 1) = Some name ->
  resdata = earlier ++ b :: later ->
  fst b = name ->
  ~ In name (map fst earlier) ->
  Forall (fun b => snd b <> []) (earlier ++ [b]) ->
  stateinf_entry residues indices resdata x n line sizes =
  (line' <- add_tokens line (stateinf_record x first_atom earlier b) ;;
   ret (line', Some (num_atoms b, num_states b))).
Proof.
  intros Hholder Hname -> Hb Hnew Hdata.
  unfold stateinf_entry, add_tokens, stateinf_record.
  rewrite Hholder. cbn [get foldM]. rewrite bind_ret.
  rewrite bind_assoc. apply bind_ext. intros l1.
  rewrite Hname. cbn [get]. rewrite bind_ret.
  rewrite (locate_spec name b later earlier 0 0 Hb Hnew Hdata), bind_ret.
  rewrite !Z.add_0_l.
  rewrite bind_assoc. apply bind_ext. intros l2.
  rewrite bind_assoc. apply bind_ext. intros l3.
  cbn [get]. rewrite bind_ret. cbn [fst snd].
  rewrite bind_assoc. apply bind_ext. intros l4.
  rewrite bind_assoc. apply bind_ext. intros l5.
  now rewrite bind_ret.
Qed.

Lemma nth_error_split {A} (earlier : list A) b later :
  nth_error (earlier ++ b :: later) (List.length earlier) = Some b /\
  firstn (List.length earlier) (earlier ++ b :: later) = earlier.
Proof.
  split.
  - rewrite nth_error_app2 by lia. now rewrite Nat.sub_diag.
  - rewrite firstn_app, Nat.sub_diag, firstn_all. simpl. apply app_nil_r.
Qed.

Lemma stateinf_loop_table residues indices resdata nums :
  (forall n, In n nums ->
     exists name, Py.index residues (n - 1) = Some name /\
                  In name (map fst resdata)) ->
  forall x line sizes out err line',
    stateinf_loop residues indices resdata x nums line sizes
      = Done out err line' ->
    exists records,
      stateinf_table residues indices (map fst resdata) resdata x nums records /\
      stateinf_loop residues indices resdata x nums line sizes
        = add_tokens line (List.concat records).
Proof.
  induction nums as [|n nums IH]; intros Hnames x line sizes out err line' H.
  - exists []. split; [constructor | reflexivity].
  - cbn [stateinf_loop] in H. apply bind_Done_inv in H.
    destruct H as (o1 & e1 & r & o2 & e2 & Hentry & Hrest & _ & _).
    destruct (Hnames n (or_introl eq_refl)) as (name & Hname & Hin).
    assert (exists first_atom earlier b later,
              Py.index indices (n - 1) = Some first_atom /\
              resdata = earlier ++ b :: later /\ fst b = name /\
              ~ In name (map fst earlier) /\
              Forall (fun b => snd b <> []) (earlier ++ [b]))
      as (first_atom & earlier & b & later & Hatom & Hsplit & Hb & Hnew & Hdata).
    { unfold stateinf_entry in Hentry.
      destruct (Py.index indices (n - 1)) as [first_atom|]; [|discriminate Hentry].
      cbn [get] in Hentry. rewrite bind_ret in Hentry.
      apply bind_Done_inv in Hentry.
      destruct Hentry as (o3 & e3 & l1 & o4 & e4 & _ & Hentry & _ & _).
      rewrite Hname in Hentry. cbn [get] in Hentry. rewrite bind_ret in Hentry.
      apply bind_Done_inv in Hentry.
      destruct Hentry as (o5 & e5 & found & o6 & e6 & Hlocate & _ & _ & _).
      destruct (locate_found _ _ _ _ _ _ _ Hlocate Hin)
        as (earlier & b & later & Hsplit & Hb & Hnew & Hdata).
      now exists first_atom, earlier, b, later. }
    pose proof (stateinf_entry_tokens residues indices resdata x n line sizes
                  first_atom name earlier b later Hatom Hname Hsplit Hb Hnew Hdata)
      as Htokens.
    rewrite Htokens in Hentry. apply bind_Done_inv in Hentry.
    destruct Hentry as (o3 & e3 & l1 & o4 & e4 & Hadd & Hret & _ & _).
    injection Hret as _ _ <-. cbn [fst snd] in Hrest.
    destruct (IH (fun m Hm => Hnames m (or_intror Hm)) _ _ _ _ _ _ Hrest)
      as (records & Htable & Hloop).
    exists (stateinf_record x first_atom earlier b :: records). split.
    + destruct (nth_error_split earlier b later) as [Hnth Hfirst].
      rewrite <- Hfirst at 1. rewrite <- Hsplit.
      apply table_entry with name; auto.
      * rewrite nth_error_map, Hsplit, Hnth. simpl. now rewrite Hb.
      * now rewrite Hsplit.
    + cbn [stateinf_loop List.concat]. rewrite Htokens, add_tokens_app, bind_assoc.
      rewrite Hadd. cbn [bind]. rewrite bind_ret. cbn [fst snd].
      now rewrite Hloop.
Qed.

Lemma chrgdat_blocks resdata out err blocks :
  chrgdat resdata = Done out err blocks ->
  map (fun b : block => (fst b, States (snd b))) blocks = resdata.
Proof.
  unfold chrgdat. intros H. apply bind_Done_inv in H.
  destruct H as (o1 & e1 & r & o2 & e2 & Hloop & Hprint & _ & _).
  apply bind_Done_inv in Hprint.
  destruct Hprint as (o3 & e3 & [] & o4 & e4 & _ & Hret & _ & _).
  injection Hret as _ _ <-.
  enough (forall line acc,
            foldM chrgdat_block resdata (line, acc) = Done o1 e1 r ->
            map (fun b : block => (fst b, States (snd b))) (snd r) =
            map (fun b : block => (fst b, States (snd b))) acc ++ resdata) as Hall
    by apply (Hall _ _ Hloop).
  clear Hloop. revert o1 e1.
  induction resdata as [|[name d] resdata IH]; intros o1 e1 line acc; simpl.
  - intros H. injection H as _ _ <-. simpl. now rewrite app_nil_r.
  - intros H. apply bind_Done_inv in H.
    destruct H as (o5 & e5 & [l acc'] & o6 & e6 & Hstep & Hrest & _ & _).
    unfold chrgdat_block in Hstep. simpl in Hstep.
    destruct d as [|curdata]; [discriminate Hstep|].
    apply bind_Done_inv in Hstep.
    destruct Hstep as (o7 & e7 & l' & o8 & e8 & _ & Hret & _ & _).
    injection Hret as _ _ <- <-.
    rewrite (IH _ _ _ _ Hrest). rewrite map_app. simpl.
    now rewrite <- app_assoc.
Qed.

Lemma silent {A} S (I : A -> Prop) (m : W A) o e a :
  sound nothing S I m -> m = Done o e a -> o = [].
Proof.
  intros [Hout _] ->. simpl in Hout. now apply nothing_printed.
Qed.

(** A run that goes through has come to line 286 with a selection, the
    names that lines 258-269 make of it, and a state for every selected
    residue; what it has on stdout is what lines 286-409 print. *)
Lemma run_reaches_namelist w argv out err :
  cpinutil w argv = Done out err tt ->
  exists s igb nums names states o e err',
    residue_names (getallresinfo w (prmtop s) "RESIDUE_LABEL") nums
      = Done o e names /\
    namelist w igb (getallresinfo w (prmtop s) "RESIDUE_LABEL")
             (getallresinfo w (prmtop s) "RESIDUE_POINTER")
             nums names states = Done out err' tt.
Proof.
  unfold cpinutil. intros H.
  apply bind_Done_inv in H.
  destruct H as (o1 & e1 & [] & o1' & e1' & H1 & H & -> & _).
  rewrite (silent _ _ _ _ _ _ (sound_check_usage argv) H1). clear H1.
  apply bind_Done_inv in H.
  destruct H as (o2 & e2 & s & o2' & e2' & H2 & H & -> & _).
  rewrite (silent _ _ _ _ _ _ (sound_read_arguments _ _) H2). clear H2.
  unfold body in H.
  apply bind_Done_inv in H.
  destruct H as (o3 & e3 & [] & o3' & e3' & H3 & H & -> & _).
  assert (o3 = []) as ->.
  { destruct (fileexists w (prmtop s) =? -1); [discriminate H3|].
    now injection H3. }
  clear H3.
  apply bind_Done_inv in H.
  destruct H as (o4 & e4 & igb & o4' & e4' & H4 & H & -> & _).
  rewrite (silent _ _ _ _ _ _ (sound_default_igb s) H4). clear H4.
  apply bind_Done_inv in H.
  destruct H as (o5 & e5 & [] & o5' & e5' & H5 & H & -> & _).
  rewrite (silent _ _ _ _ _ _ (sound_check_radii _ _) H5). clear H5.
  apply bind_Done_inv in H.
  destruct H as (o6 & e6 & [] & o6' & e6' & H6 & H & -> & _).
  rewrite (silent _ _ _ _ _ _ (sound_check_labels _ _ _) H6). clear H6.
  apply bind_Done_inv in H.
  destruct H as (o7 & e7 & n & o7' & e7' & H7 & H & -> & _).
  rewrite (silent _ _ _ _ _ _ (sound_convert _ _ _) H7). clear H7.
  apply bind_Done_inv in H.
  destruct H as (o8 & e8 & titrate & o8' & e8' & H8 & H & -> & _).
  rewrite (silent _ _ _ _ _ _ (sound_pKa_filter _ _ _ _) H8). clear H8.
  apply bind_Done_inv in H.
  destruct H as (o9 & e9 & nums & o9' & e9' & H9 & H & -> & _).
  rewrite (silent _ _ _ _ _ _ (sound_selector _ _ _ _ _) H9). clear H9.
  apply bind_Done_inv in H.
  destruct H as (o10 & e10 & names & o10' & e10' & H10 & H & -> & _).
  rewrite (silent _ _ _ _ _ _ (sound_residue_names _ _) H10).
  apply bind_Done_inv in H.
  destruct H as (o11 & e11 & states & o11' & e11' & H11 & H & -> & _).
  rewrite (silent _ _ _ _ _ _ (sound_initial_states _ _) H11). clear H11.
  cbn [app]. now exists s, (igb_int n), nums, names, states, o10, e10, e11'.
Qed.



(** The sample run on the residues 3, 4 and 3 again.  AS4 has three states
    of three atoms, so TYR starts at charge 9 and at state 3; the two AS4
    residues both start at 0. *)
Lemma stateinf_of_the_sample :
  stateinf Sample.labels Sample.pointers
           [("AS4", Sample.as4); ("TYR", Sample.tyr)] [3; 4; 3] =
  Done [" STATEINF(0)%FIRST_ATOM=26, STATEINF(0)%FIRST_CHARGE=0, ";
        " STATEINF(0)%FIRST_STATE=0, STATEINF(0)%NUM_ATOMS=3, STATEINF(0)%NUM_STATES=3, ";
        " STATEINF(1)%FIRST_ATOM=38, STATEINF(1)%FIRST_CHARGE=9, ";
        " STATEINF(1)%FIRST_STATE=3, STATEINF(1)%NUM_ATOMS=2, STATEINF(1)%NUM_STATES=2, ";
        " STATEINF(2)%FIRST_ATOM=26, STATEINF(2)%FIRST_CHARGE=0, ";
        " STATEINF(2)%FIRST_STATE=0, STATEINF(2)%NUM_ATOMS=3, STATEINF(2)%NUM_STATES=3, "]
       [] tt.
Proof. reflexivity. Qed.

(** ** Validation failures and the exit status *)

Lemma stops_now {A B} site lines (m : W A) (f : A -> W B) :
  stops site lines m -> stops site lines (bind m f).
Proof. intros (out & e & ->). now exists out, e. Qed.

Lemma stops_later {A B} site lines (m : W A) (f : A -> W B) o e a :
  m = Done o e a -> stops site lines (f a) -> stops site lines (bind m f).
Proof.
  intros -> (out & e' & Hf). exists (o ++ out), (e ++ e').
  simpl. rewrite Hf. now rewrite app_assoc.
Qed.

Lemma stops_after_returns {A B} site lines (P : A -> Prop) (m : W A)
  (f : A -> W B) :
  returns P m -> (forall a, P a -> stops site lines (f a)) ->
  stops site lines (bind m f).
Proof.
  intros (o & a & Hm & Ha) Hf. apply (stops_later _ _ _ _ _ _ _ Hm). auto.
Qed.

Lemma stops_exit {A} site line :
  stops site [line] (print_stderr line ;; @sys_exit A site).
Proof. now exists [], []. Qed.

Lemma stops_exit2 {A} site line1 line2 :
  stops site [line1; line2]
        (print_stderr line1 ;; print_stderr line2 ;; @sys_exit A site).
Proof. now exists [], []. Qed.

(** A loop that goes through the entries [before] and stops at [x]. *)
Lemma stops_foldM {A B} site lines (I : B -> Prop) (f : B -> A -> W B)
  before x after :
  (forall b a, In a before -> I b ->
     exists o e b', f b a = Done o e b' /\ I b') ->
  (forall b, I b -> stops site lines (f b x)) ->
  forall b, I b -> stops site lines (foldM f (before ++ x :: after) b).
Proof.
  intros Hbefore Hx. induction before as [|a before IH]; intros b Hb.
  - cbn [app foldM]. apply stops_now. now apply Hx.
  - cbn [app foldM].
    destruct (Hbefore b a (or_introl eq_refl) Hb) as (o & e & b' & Hf & Hb').
    apply (stops_later _ _ _ _ _ _ _ Hf). apply IH; [|exact Hb'].
    intros b0 a0 Hin. apply Hbefore. now right.
Qed.

(** *** The command line *)

Lemma seen_In flag args : seen flag args = true <-> In flag args.
Proof.
  unfold seen. rewrite existsb_exists. split.
  - intros (a & Ha & Heq). apply String.eqb_eq in Heq. now subst.
  - intros H. exists flag. split; [exact H | apply String.eqb_refl].
Qed.

Lemma seen_false flag args : seen flag args = false <-> ~ In flag args.
Proof.
  rewrite <- seen_In. destruct (seen flag args); split; congruence.
Qed.

Lemma seen_cons flag a args :
  seen flag (a :: args) = String.eqb flag a || seen flag args.
Proof. reflexivity. Qed.

Ltac taken s :=
  eexists; split; [reflexivity|]; destruct s; simpl;
  rewrite ?orb_false_r, ?orb_true_r; repeat split; reflexivity.

(** With an argument behind it and no opposite flag met before, an
    argument is read in silence, and leaves its mark if it is one of the
    four flags. *)
Lemma argument_marks a rest s :
  rest <> [] ->
  (a = "-resname" -> nresname_spec s = false) ->
  (a = "-notresname" -> resname_spec s = false) ->
  (a = "-resnum" -> nresnum_spec s = false) ->
  (a = "-notresnum" -> resnum_spec s = false) ->
  exists s1,
    argument a rest s = ret s1 /\
    resname_spec s1 = resname_spec s || String.eqb "-resname" a /\
    nresname_spec s1 = nresname_spec s || String.eqb "-notresname" a /\
    resnum_spec s1 = resnum_spec s || String.eqb "-resnum" a /\
    nresnum_spec s1 = nresnum_spec s || String.eqb "-notresnum" a.
Proof.
  intros Hrest H1 H2 H3 H4. destruct rest as [|v rest]; [now elim Hrest|].
  unfold argument.
  destruct (String.eqb_spec a "-p") as [-> | N1]; [taken s|].
  destruct (String.eqb_spec a "-igb") as [-> | N2]; [taken s|].
  destruct (String.eqb_spec a "-system") as [-> | N3]; [taken s|].
  destruct (String.eqb_spec a "-minpKa") as [-> | N4]; [taken s|].
  destruct (String.eqb_spec a "-maxpKa") as [-> | N5]; [taken s|].
  destruct (String.eqb_spec a "--ignore-warnings") as [-> | N6]; [taken s|].
  destruct (String.eqb_spec a "-resname") as [-> | N7].
  { pose proof (H1 eq_refl) as E. clear H1 H2 H3 H4. rewrite E.
    eexists. split; [reflexivity|]. destruct s; simpl in *. subst.
    now rewrite ?orb_false_r, ?orb_true_r. }
  destruct (String.eqb_spec a "-notresname") as [-> | N8].
  { pose proof (H2 eq_refl) as E. clear H1 H2 H3 H4. rewrite E.
    eexists. split; [reflexivity|]. destruct s; simpl in *. subst.
    now rewrite ?orb_false_r, ?orb_true_r. }
  destruct (String.eqb_spec a "-resnum") as [-> | N9].
  { pose proof (H3 eq_refl) as E. clear H1 H2 H3 H4. rewrite E.
    eexists. split; [reflexivity|]. destruct s; simpl in *. subst.
    now rewrite ?orb_false_r, ?orb_true_r. }
  destruct (String.eqb_spec a "-notresnum") as [-> | N10].
  { pose proof (H4 eq_refl) as E. clear H1 H2 H3 H4. rewrite E.
    eexists. split; [reflexivity|]. destruct s; simpl in *. subst.
    now rewrite ?orb_false_r, ?orb_true_r. }
  assert (String.eqb "-resname" a = false) as -> by (apply String.eqb_neq; congruence).
  assert (String.eqb "-notresname" a = false) as -> by (apply String.eqb_neq; congruence).
  assert (String.eqb "-resnum" a = false) as -> by (apply String.eqb_neq; congruence).
  assert (String.eqb "-notresnum" a = false) as -> by (apply String.eqb_neq; congruence).
  destruct (String.eqb_spec a "-states") as [-> | N11];
    eexists; (split; [reflexivity|]); destruct s; simpl;
    now rewrite ?orb_false_r.
Qed.

Lemma read_unopposed before : forall s tail,
  tail <> [] ->
  unopposed s before ->
  exists s',
    read_arguments (before ++ tail) s = read_arguments tail s' /\
    resname_spec s' = resname_spec s || seen "-resname" before /\
    nresname_spec s' = nresname_spec s || seen "-notresname" before /\
    resnum_spec s' = resnum_spec s || seen "-resnum" before /\
    nresnum_spec s' = nresnum_spec s || seen "-notresnum" before.
Proof.
  induction before as [|a before IH]; intros s tail Htail Hs.
  - exists s. split; [reflexivity|]. unfold seen. simpl.
    now rewrite !orb_false_r.
  - cbn [app read_arguments].
    destruct Hs as (H1 & H2 & H3 & H4). rewrite !seen_cons in H1, H2, H3, H4.
    destruct (argument_marks a (before ++ tail) s)
      as (s1 & Harg & M1 & M2 & M3 & M4).
    { now destruct before. }
    { intros ->. apply H1. now rewrite String.eqb_refl. }
    { intros ->. apply H2. now rewrite String.eqb_refl. }
    { intros ->. apply H3. now rewrite String.eqb_refl. }
    { intros ->. apply H4. now rewrite String.eqb_refl. }
    rewrite Harg, bind_ret.
    destruct (IH s1 tail Htail) as (s' & Hread & R1 & R2 & R3 & R4).
    { unfold unopposed. rewrite M1, M2, M3, M4.
      split; [|split; [|split]]; intros Hseen; split.
      - rewrite Hseen, orb_true_r in H1. destruct (H1 eq_refl) as [-> Hn].
        apply orb_false_iff in Hn. now destruct Hn as [-> _].
      - rewrite Hseen, orb_true_r in H1. destruct (H1 eq_refl) as [_ Hn].
        apply orb_false_iff in Hn. now destruct Hn.
      - rewrite Hseen, orb_true_r in H2. destruct (H2 eq_refl) as [-> Hn].
        apply orb_false_iff in Hn. now destruct Hn as [-> _].
      - rewrite Hseen, orb_true_r in H2. destruct (H2 eq_refl) as [_ Hn].
        apply orb_false_iff in Hn. now destruct Hn.
      - rewrite Hseen, orb_true_r in H3. destruct (H3 eq_refl) as [-> Hn].
        apply orb_false_iff in Hn. now destruct Hn as [-> _].
      - rewrite Hseen, orb_true_r in H3. destruct (H3 eq_refl) as [_ Hn].
        apply orb_false_iff in Hn. now destruct Hn.
      - rewrite Hseen, orb_true_r in H4. destruct (H4 eq_refl) as [-> Hn].
        apply orb_false_iff in Hn. now destruct Hn as [-> _].
      - rewrite Hseen, orb_true_r in H4. destruct (H4 eq_refl) as [_ Hn].
        apply orb_false_iff in Hn. now destruct Hn. }
    exists s'. split; [exact Hread|]. rewrite R1, R2, R3, R4, M1, M2, M3, M4.
    rewrite !seen_cons. now rewrite !orb_assoc.
Qed.

Lemma unopposed_defaults before :
  ~ (In "-resname" before /\ In "-notresname" before) ->
  ~ (In "-resnum" before /\ In "-notresnum" before) ->
  unopposed defaults before.
Proof.
  intros Hnames Hnums. unfold unopposed. rewrite !seen_In, !seen_false.
  cbn [resname_spec nresname_spec resnum_spec nresnum_spec defaults].
  tauto.
Qed.

Lemma resname_conflict before after :
  In "-notresname" before -> ~ In "-resname" before ->
  ~ (In "-resnum" before /\ In "-notresnum" before) ->
  read_arguments (before ++ "-resname" :: after) defaults =
  Abort [] ["Error: You cannot specify -notresname and -resname simultaneously!"]
        (SysExit ExitResname).
Proof.
  intros Hin Hnot Hnums.
  destruct (read_unopposed before defaults ("-resname" :: after))
    as (s & -> & _ & Hmark & _ & _); [discriminate | |].
  { apply unopposed_defaults; tauto. }
  apply seen_In in Hin. rewrite Hin, orb_true_r in Hmark.
  cbn [read_arguments]. unfold argument. cbn [String.eqb Ascii.eqb Bool.eqb].
  now rewrite Hmark.
Qed.

Lemma notresname_conflict before after :
  In "-resname" before -> ~ In "-notresname" before ->
  ~ (In "-resnum" before /\ In "-notresnum" before) ->
  read_arguments (before ++ "-notresname" :: after) defaults =
  Abort [] ["Error: You cannot specify -notresname and -resname simultaneously!"]
        (SysExit ExitNotresname).
Proof.
  intros Hin Hnot Hnums.
  destruct (read_unopposed before defaults ("-notresname" :: after))
    as (s & -> & Hmark & _ & _ & _); [discriminate | |].
  { apply unopposed_defaults; tauto. }
  apply seen_In in Hin. rewrite Hin, orb_true_r in Hmark.
  cbn [read_arguments]. unfold argument. cbn [String.eqb Ascii.eqb Bool.eqb].
  now rewrite Hmark.
Qed.

Lemma resnum_conflict before after :
  In "-notresnum" before -> ~ In "-resnum" before ->
  ~ (In "-resname" before /\ In "-notresname" before) ->
  read_arguments (before ++ "-resnum" :: after) defaults =
  Abort [] ["Error: You cannot specify -notresnum and -resnum simultaneously!"]
        (SysExit ExitResnum).
Proof.
  intros Hin Hnot Hnames.
  destruct (read_unopposed before defaults ("-resnum" :: after))
    as (s & -> & _ & _ & _ & Hmark); [discriminate | |].
  { apply unopposed_defaults; tauto. }
  apply seen_In in Hin. rewrite Hin, orb_true_r in Hmark.
  cbn [read_arguments]. unfold argument. cbn [String.eqb Ascii.eqb Bool.eqb].
  now rewrite Hmark.
Qed.

Lemma notresnum_conflict before after :
  In "-resnum" before -> ~ In "-notresnum" before ->
  ~ (In "-resname" before /\ In "-notresname" before) ->
  read_arguments (before ++ "-notresnum" :: after) defaults =
  Abort [] ["Error: You cannot specify -notresnum and -resnum simultaneously!"]
        (SysExit ExitNotresnum).
Proof.
  intros Hin Hnot Hnames.
  destruct (read_unopposed before defaults ("-notresnum" :: after))
    as (s & -> & _ & _ & Hmark & _); [discriminate | |].
  { apply unopposed_defaults; tauto. }
  apply seen_In in Hin. rewrite Hin, orb_true_r in Hmark.
  cbn [read_arguments]. unfold argument. cbn [String.eqb Ascii.eqb Bool.eqb].
  now rewrite Hmark.
Qed.

(** *** The checks of lines 152-209 *)

Lemma cpinutil_reads w argv s : reads argv s -> cpinutil w argv = body w s.
Proof.
  intros [Husage Hread]. unfold cpinutil.
  now rewrite Husage, bind_ret, Hread, bind_ret.
Qed.

Lemma default_igb_Done s : exists e, default_igb s = Done [] e (igb_of s).
Proof.
  unfold default_igb, igb_of. destruct (String.eqb (igb s) " ").
  - destruct (ignore_warn s); now eexists.
  - now eexists.
Qed.

Lemma check_radii_passes s radius_set :
  ignore_warn s = true \/ radius_set = mbondi2 ->
  check_radii s radius_set = ret tt.
Proof.
  intros H. unfold check_radii. destruct (ignore_warn s); [reflexivity|].
  destruct H as [H | ->]; [discriminate H | reflexivity].
Qed.

Lemma check_labels_passes s residues indices :
  residues <> [] -> indices <> [] -> check_labels s residues indices = ret tt.
Proof.
  intros Hr Hi. unfold check_labels.
  destruct (Py.len residues =? 0) eqn:E1;
    [apply len_zero_iff in E1; now elim Hr|].
  destruct (Py.len indices =? 0) eqn:E2;
    [apply len_zero_iff in E2; now elim Hi|].
  reflexivity.
Qed.

Lemma pKa_filter_within pkas lo hi titrate :
  forallb (within lo hi) pkas = true ->
  pKa_filter pkas lo hi titrate = ret titrate.
Proof.
  induction pkas as [|pka pkas IH]; simpl; [reflexivity|].
  intros H. apply andb_true_iff in H. destruct H as [Hpka Hrest].
  unfold within in Hpka. apply negb_true_iff in Hpka. rewrite Hpka.
  now apply IH.
Qed.

(** What is left of the run once the topology is admitted, once the
    values are converted, once the residues are chosen. *)
Lemma body_admitted w argv s site lines :
  admitted w argv s ->
  stops site lines
    (n <- convert w s (igb_of s) ;;
     titrate_residues <- pKa_filter titrate_pka_holder (minpKa_float n)
                                    (maxpKa_float n) (titrate_residues s) ;;
     titrated_residue_nums <- selector (prmtop s) (residue_labels w s)
                                       titrate_residues
                                       (resnums_int n) (notresnums_int n) ;;
     titrated_residue_names <- residue_names (residue_labels w s)
                                             titrated_residue_nums ;;
     residue_states <- initial_states (residue_states_int n)
                                      titrated_residue_nums ;;
     namelist w (igb_int n) (residue_labels w s) (residue_pointers w s)
              titrated_residue_nums titrated_residue_names residue_states) ->
  stops site lines (cpinutil w argv).
Proof.
  intros (Hreads & Hfile & Hradii & Hlabels & Hpointers) Hrest.
  rewrite (cpinutil_reads w argv s Hreads). unfold body.
  apply Z.eqb_neq in Hfile. rewrite Hfile, bind_ret.
  destruct (default_igb_Done s) as (e & Higb).
  apply (stops_later _ _ _ _ _ _ _ Higb).
  rewrite (check_radii_passes _ _ Hradii), bind_ret.
  fold (residue_labels w s). fold (residue_pointers w s).
  rewrite (check_labels_passes _ _ _ Hlabels Hpointers), bind_ret.
  exact Hrest.
Qed.

Lemma body_prepared w argv s n site lines :
  prepared w argv s n ->
  stops site lines
    (titrated_residue_nums <- selector (prmtop s) (residue_labels w s)
                                       (titrate_residues s)
                                       (resnums_int n) (notresnums_int n) ;;
     titrated_residue_names <- residue_names (residue_labels w s)
                                             titrated_residue_nums ;;
     residue_states <- initial_states (residue_states_int n)
                                      titrated_residue_nums ;;
     namelist w (igb_int n) (residue_labels w s) (residue_pointers w s)
              titrated_residue_nums titrated_residue_names residue_states) ->
  stops site lines (cpinutil w argv).
Proof.
  intros (Hadmitted & Hnumbers & Hwithin) Hrest.
  apply (body_admitted w argv s site lines Hadmitted).
  unfold convert. rewrite Hnumbers, bind_ret.
  now rewrite (pKa_filter_within _ _ _ _ Hwithin), bind_ret.
Qed.

Lemma body_chosen w argv s n nums names site lines :
  chosen w argv s n nums names ->
  stops site lines
    (residue_states <- initial_states (residue_states_int n) nums ;;
     namelist w (igb_int n) (residue_labels w s) (residue_pointers w s)
              nums names residue_states) ->
  stops site lines (cpinutil w argv).
Proof.
  intros (Hprepared & Hnums & Hnames) Hrest.
  apply (body_prepared w argv s n site lines Hprepared).
  now rewrite Hnums, bind_ret, Hnames, bind_ret.
Qed.

(** *** The selection *)

Lemma listed_not_empty {A} (before : list A) m after :
  negb (Py.len (before ++ m :: after) =? 0) = true.
Proof.
  destruct (Py.len (before ++ m :: after) =? 0) eqn:E; [|reflexivity].
  apply len_zero_iff in E. now destruct before.
Qed.

Lemma selector_stops prmtop residues titrate before m after notresnums site lines :
  Forall (selectable residues titrate) before ->
  (forall acc, stops site lines (select_number prmtop residues titrate acc m)) ->
  stops site lines
        (selector prmtop residues titrate (before ++ m :: after) notresnums).
Proof.
  intros Hbefore Hm. unfold selector. rewrite listed_not_empty.
  apply stops_now. unfold select_listed.
  apply stops_foldM with (I := fun _ => True); auto.
  intros acc a Hin _. rewrite Forall_forall in Hbefore.
  rewrite (select_number_takes _ _ _ _ _ (Hbefore a Hin)).
  now exists [], [], (acc ++ [a]).
Qed.

(** *** The states *)

Lemma initial_states_stops states nums :
  states <> [] -> List.length states <> List.length nums ->
  stops ExitStateCount
        ["Error: You specified " +++ Py.str (Py.len states) +++
         " states for " +++ Py.str (Py.len nums) +++ " titrated residues!"]
        (initial_states states nums).
Proof.
  intros Hne Hlen. unfold initial_states.
  destruct (Py.len states =? 0) eqn:E1;
    [apply len_zero_iff in E1; now elim Hne|].
  destruct (Z.eqb_spec (Py.len states) (Py.len nums)) as [E2 | _].
  - unfold Py.len in E2. lia.
  - now exists [], [].
Qed.

(** *** Inside the namelist *)

Lemma chrgdat_block_passes acc (b : block) :
  exists o e r, chrgdat_block acc (fst b, States (snd b)) = Done o e r.
Proof.
  unfold chrgdat_block. cbn [fst snd].
  destruct (returns_add_tokens (fst acc) (charges (snd b))) as (o & l & -> & _).
  simpl. now do 3 eexists.
Qed.

Lemma chrgdat_stops w igb before name after (blocks : list block) :
  map (fun name => (name, getData w name igb)) before =
    map (fun b : block => (fst b, States (snd b))) blocks ->
  getData w name igb = MinusOne ->
  stops ExitLookup ["Error: Couldn't get data from cpin_data.py!"]
        (chrgdat (map (fun name => (name, getData w name igb))
                      (before ++ name :: after))).
Proof.
  intros Hbefore Hname. unfold chrgdat. apply stops_now.
  rewrite map_app, Hbefore. cbn [map]. rewrite Hname.
  apply stops_foldM with (I := fun _ => True); auto.
  - intros acc d Hin _. apply in_map_iff in Hin. destruct Hin as (b & <- & _).
    destruct (chrgdat_block_passes acc b) as (o & e & r & ->).
    now exists o, e, r.
  - intros acc _. apply stops_exit.
Qed.

Lemma check_state_in_block name state resdata d :
  NoDup (map fst resdata) ->
  In (name, d) resdata ->
  check_state name state resdata =
  if (0 <=? state) && (state <? Py.len d) then ret tt
  else Abort []
             ["Error: Residue states must range from 0 to num_states - 1 for each residue!"]
             (SysExit ExitStateRange).
Proof.
  induction resdata as [|[n cur] resdata IH]; intros Hnodup Hin;
    [now elim Hin|].
  simpl in Hnodup. inversion Hnodup as [|? ? Hhead Htail]. subst.
  cbn [check_state].
  destruct (String.eqb_spec name n) as [-> | Hneq].
  - assert (d = cur) as ->.
    { destruct Hin as [H | H]; [now injection H|].
      elim Hhead. now apply (in_map fst) in H. }
    cbn [andb].
    destruct (Z.ltb_spec state 0), (Z.leb_spec (Py.len cur) state),
      (Z.leb_spec 0 state), (Z.ltb_spec state (Py.len cur));
      try lia; cbn [orb andb]; try reflexivity.
    rewrite bind_ret. now apply check_state_absent.
  - cbn [andb]. rewrite bind_ret. apply IH; [exact Htail|].
    destruct Hin as [H | H]; [|exact H].
    injection H as -> _. now elim Hneq.
Qed.

Lemma resstate_stops residues resdata before m st after name d :
  NoDup (map fst resdata) ->
  Forall (fun o : Z * Z =>
            exists name d,
              Py.index residues (fst o - 1) = Some name /\
              In (name, d) resdata /\ 0 <= snd o < Py.len d) before ->
  Py.index residues (m - 1) = Some name ->
  In (name, d) resdata ->
  st < 0 \/ Py.len d <= st ->
  stops ExitStateRange
        ["Error: Residue states must range from 0 to num_states - 1 for each residue!"]
        (resstate residues (before ++ (m, st) :: after) resdata).
Proof.
  intros Hnodup Hbefore Hname Hd Hst. unfold resstate. apply stops_now.
  apply stops_foldM with (I := fun _ => True); auto.
  - intros line o Hin _. rewrite Forall_forall in Hbefore.
    destruct (Hbefore o Hin) as (name' & d' & Hname' & Hd' & Hrange).
    rewrite Hname'. cbn [get]. rewrite bind_ret.
    rewrite (check_state_in_block _ _ _ _ Hnodup Hd').
    destruct (Z.leb_spec 0 (snd o)), (Z.ltb_spec (snd o) (Py.len d')); try lia.
    cbn [andb]. rewrite bind_ret.
    destruct (returns_addOn line (Py.str (snd o) +++ ",")) as (out & l & -> & _).
    now exists out, [], l.
  - intros line _. cbn [fst snd]. rewrite Hname. cbn [get]. rewrite bind_ret.
    apply stops_now. rewrite (check_state_in_block _ _ _ _ Hnodup Hd).
    destruct (Z.leb_spec 0 st), (Z.ltb_spec st (Py.len d)); try lia;
      cbn [andb]; now exists [], [].
Qed.

Lemma failure_stops w argv site lines :
  failure w argv site lines -> stops site lines (cpinutil w argv).
Proof.
  intros Hfail.
  destruct Hfail as
    [ before after Husage Htl Hin Hnot Hother
    | before after Husage Htl Hin Hnot Hother
    | before after Husage Htl Hin Hnot Hother
    | before after Husage Htl Hin Hnot Hother
    | s Hreads Hfile
    | s Hreads Hfile Hwarn Hradii
    | s Hreads Hfile Hradii Hrecords
    | s n before m after Hprepared Hresnums Hbefore Hm
    | s n before m after name Hprepared Hresnums Hbefore Hm Hname Htest
    | s n Hprepared Hresnums Hnone
    | s n nums names Hchosen Hstates Hcount
    | s n nums names states before name after blocks
        Hchosen Hstates Hnames Hbefore Hname
    | s n nums names states resdata before m st after name d
        Hchosen Hstates Hdata Hwf Hcombine Hbefore Hname Hd Hst ].
  - unfold cpinutil. rewrite Husage, bind_ret, Htl.
    rewrite (resname_conflict before after Hin Hnot Hother). now exists [], [].
  - unfold cpinutil. rewrite Husage, bind_ret, Htl.
    rewrite (notresname_conflict before after Hin Hnot Hother). now exists [], [].
  - unfold cpinutil. rewrite Husage, bind_ret, Htl.
    rewrite (resnum_conflict before after Hin Hnot Hother). now exists [], [].
  - unfold cpinutil. rewrite Husage, bind_ret, Htl.
    rewrite (notresnum_conflict before after Hin Hnot Hother). now exists [], [].
  - rewrite (cpinutil_reads w argv s Hreads). unfold body.
    apply Z.eqb_eq in Hfile. rewrite Hfile. now exists [], [].
  - rewrite (cpinutil_reads w argv s Hreads). unfold body.
    apply Z.eqb_neq in Hfile. rewrite Hfile, bind_ret.
    destruct (default_igb_Done s) as (e & Higb).
    apply (stops_later _ _ _ _ _ _ _ Higb). apply stops_now.
    unfold check_radii. rewrite Hwarn.
    apply String.eqb_neq in Hradii. rewrite Hradii. apply stops_exit2.
  - rewrite (cpinutil_reads w argv s Hreads). unfold body.
    apply Z.eqb_neq in Hfile. rewrite Hfile, bind_ret.
    destruct (default_igb_Done s) as (e & Higb).
    apply (stops_later _ _ _ _ _ _ _ Higb).
    rewrite (check_radii_passes _ _ Hradii), bind_ret. apply stops_now.
    unfold check_labels. fold (residue_labels w s). fold (residue_pointers w s).
    assert ((Py.len (residue_labels w s) =? 0) ||
            (Py.len (residue_pointers w s) =? 0) = true) as ->.
    { apply orb_true_iff. destruct Hrecords as [-> | ->]; [now left | now right]. }
    apply stops_exit2.
  - apply (body_prepared w argv s n _ _ Hprepared). apply stops_now.
    rewrite Hresnums. apply selector_stops; [exact Hbefore|].
    intros acc. unfold select_number.
    destruct (Z.ltb_spec (Py.len (residue_labels w s)) m); [|lia].
    apply stops_exit2.
  - apply (body_prepared w argv s n _ _ Hprepared). apply stops_now.
    rewrite Hresnums. apply selector_stops; [exact Hbefore|].
    intros acc. unfold select_number.
    destruct (Z.ltb_spec (Py.len (residue_labels w s)) m); [lia|].
    rewrite Hname. cbn [get]. rewrite bind_ret, Htest. apply stops_exit.
  - apply (body_prepared w argv s n _ _ Hprepared). apply stops_now.
    rewrite Hresnums. unfold selector.
    cbn [Py.len List.length Z.of_nat Z.eqb negb].
    rewrite bind_ret, (select_matching_none _ _ _ Hnone). apply stops_now.
    apply stops_exit.
  - apply (body_chosen w argv s n nums names _ _ Hchosen). apply stops_now.
    now apply initial_states_stops.
  - apply (body_chosen w argv s n nums names _ _ Hchosen).
    rewrite Hstates, bind_ret. unfold namelist.
    apply stops_later with ["&CNSTPH"] [] tt; [reflexivity|].
    apply stops_now. rewrite Hnames. now apply chrgdat_stops with blocks.
  - apply (body_chosen w argv s n nums names _ _ Hchosen).
    rewrite Hstates, bind_ret. unfold namelist.
    apply stops_later with ["&CNSTPH"] [] tt; [reflexivity|].
    rewrite Hdata.
    apply stops_after_returns with (fun r => r = resdata);
      [apply returns_chrgdat|]. intros ? ->.
    destruct Hchosen as (_ & _ & Hnamed).
    assert (forall k, In k nums ->
              exists name, Py.index (residue_labels w s) (k - 1) = Some name)
      as Hlabels.
    { unfold residue_names in Hnamed.
      destruct (name_loop_spec _ _ _ _ _ _ Hnamed) as (_ & _ & Hall & _).
      intros k Hk. destruct (Hall k Hk) as (nm & Hnm & _). now exists nm. }
    assert (NoDup (map fst resdata)) as Hnodup.
    { assert (map fst resdata = names) as ->.
      { apply (f_equal (map fst)) in Hdata. rewrite !map_map in Hdata.
        cbn [fst] in Hdata. now rewrite map_id in Hdata. }
      apply (residue_names_NoDup (residue_labels w s) nums [] [] [] names);
        [constructor | exact Hnamed]. }
    apply stops_after_returns with (fun _ => True);
      [now apply returns_protcnt|]. intros _ _.
    apply stops_after_returns with (fun _ => True);
      [now apply returns_resname|]. intros _ _.
    apply stops_now. rewrite Hcombine.
    now apply resstate_stops with name d.
Qed.

(** C9, as amended.  Each validation failure of the script ends the run:
    when [failure w argv site lines] holds, the run stops at the
    [sys.exit()] of [site], with the message [lines] the last thing on
    stderr.  The call has no argument, so the exit status is 0.  A run
    that goes through ends with "CPin created!" on stderr, and its exit
    status is 0 as well. *)
Theorem exit_statuses w argv :
  (forall site lines,
     failure w argv site lines ->
     exists out e,
       cpinutil w argv = Abort out (e ++ lines) (SysExit site) /\
       exit_status (cpinutil w argv) = Some 0) /\
  (forall out err,
     cpinutil w argv = Done out err tt ->
     (exists e, err = e ++ ["CPin created!"]) /\
     exit_status (cpinutil w argv) = Some 0).
Proof.
  split.
  - intros site lines Hfail.
    destruct (failure_stops w argv site lines Hfail) as (out & e & Hrun).
    exists out, e. split; [exact Hrun | now rewrite Hrun].
  - intros out err Hrun. pose proof (verdict_cpinutil w argv) as H.
    rewrite Hrun in *. simpl in H. now split.
Qed.

(** The settings the samples below are read as, and the steps that show a
    sample run has come through lines 21-209. *)
Ltac read_as := split; reflexivity.

Ltac come_through :=
  split;
  [ split; [read_as|]; split; [discriminate|]; split; [now right|];
    split; discriminate
  | split; reflexivity ].

Lemma exit_statuses_witness :
  (exists out e,
     cpinutil Sample.full
       (Sample.command ["-notresname"; "AS4"; "-resname"; "TYR"])
     = Abort out
         (e ++ ["Error: You cannot specify -notresname and -resname simultaneously!"])
         (SysExit ExitResname) /\
     exit_status
       (cpinutil Sample.full
          (Sample.command ["-notresname"; "AS4"; "-resname"; "TYR"])) = Some 0) /\
  (exists out e,
     cpinutil Sample.full
       (Sample.command ["-resname"; "TYR"; "-notresname"; "AS4"])
     = Abort out
         (e ++ ["Error: You cannot specify -notresname and -resname simultaneously!"])
         (SysExit ExitNotresname) /\
     exit_status
       (cpinutil Sample.full
          (Sample.command ["-resname"; "TYR"; "-notresname"; "AS4"])) = Some 0) /\
  (exists out e,
     cpinutil Sample.full (Sample.command ["-notresnum"; "3"; "-resnum"; "4"])
     = Abort out
         (e ++ ["Error: You cannot specify -notresnum and -resnum simultaneously!"])
         (SysExit ExitResnum) /\
     exit_status
       (cpinutil Sample.full
          (Sample.command ["-notresnum"; "3"; "-resnum"; "4"])) = Some 0) /\
  (exists out e,
     cpinutil Sample.full (Sample.command ["-resnum"; "4"; "-notresnum"; "3"])
     = Abort out
         (e ++ ["Error: You cannot specify -notresnum and -resnum simultaneously!"])
         (SysExit ExitNotresnum) /\
     exit_status
       (cpinutil Sample.full
          (Sample.command ["-resnum"; "4"; "-notresnum"; "3"])) = Some 0) /\
  (exists out e,
     cpinutil Faulty.no_file (Sample.command [])
     = Abort out (e ++ []) (SysExit ExitNoFile) /\
     exit_status (cpinutil Faulty.no_file (Sample.command [])) = Some 0) /\
  (exists out e,
     cpinutil Faulty.bondi (Sample.command [])
     = Abort out
         (e ++ ["Error: mbondi2 radius set should be used for constant pH simulations. All reference energies were calculated";
                "       using these radii! Set --ignore-warnings to ignore this warning."])
         (SysExit ExitRadii) /\
     exit_status (cpinutil Faulty.bondi (Sample.command [])) = Some 0) /\
  (exists out e,
     cpinutil Faulty.no_records (Sample.command [])
     = Abort out
         (e ++ ["Error: Could not find residue labels or pointers in prmtop!";
                "       Check your prmtop file to make sure it is valid."])
         (SysExit ExitNoLabels) /\
     exit_status (cpinutil Faulty.no_records (Sample.command [])) = Some 0) /\
  (exists out e,
     cpinutil Sample.full (Sample.command ["-resnum"; "3,5"])
     = Abort out
         (e ++ ["Error: You specified a residue greater than the number of ";
                "       residues in the topology file prmtop"])
         (SysExit ExitTooLarge) /\
     exit_status (cpinutil Sample.full (Sample.command ["-resnum"; "3,5"]))
     = Some 0) /\
  (exists out e,
     cpinutil Sample.full (Sample.command ["-resnum"; "3,2"])
     = Abort out
         (e ++ ["Error: Residue 2 is a GLU. This is not in the list of titratable residues!"])
         (SysExit ExitNotTitratable) /\
     exit_status (cpinutil Sample.full (Sample.command ["-resnum"; "3,2"]))
     = Some 0) /\
  (exists out e,
     cpinutil Sample.full (Sample.command ["-resname"; "LYS"])
     = Abort out
         (e ++ ["Error: No titratable residues conform to your criteria!"])
         (SysExit ExitNoneSelected) /\
     exit_status (cpinutil Sample.full (Sample.command ["-resname"; "LYS"]))
     = Some 0) /\
  (exists out e,
     cpinutil Sample.full (Sample.command ["-states"; "0"])
     = Abort out
         (e ++ ["Error: You specified 1 states for 2 titrated residues!"])
         (SysExit ExitStateCount) /\
     exit_status (cpinutil Sample.full (Sample.command ["-states"; "0"]))
     = Some 0) /\
  (exists out e,
     cpinutil Sample.no_tyr (Sample.command [])
     = Abort out (e ++ ["Error: Couldn't get data from cpin_data.py!"])
             (SysExit ExitLookup) /\
     exit_status (cpinutil Sample.no_tyr (Sample.command [])) = Some 0) /\
  (exists out e,
     cpinutil Sample.full (Sample.command ["-states"; "0,2"])
     = Abort out
         (e ++ ["Error: Residue states must range from 0 to num_states - 1 for each residue!"])
         (SysExit ExitStateRange) /\
     exit_status (cpinutil Sample.full (Sample.command ["-states"; "0,2"]))
     = Some 0) /\
  ((exists e, ["CPin created!"] = e ++ ["CPin created!"]) /\
   exit_status (cpinutil Sample.full (Sample.command [])) = Some 0).
Proof.
  split.
  { apply (proj1 (exit_statuses Sample.full _)).
    apply (resname_after_notresname _ _
             ["-p"; "prmtop"; "-igb"; "5"; "-notresname"; "AS4"] ["TYR"]);
      [reflexivity | reflexivity | simpl; tauto
      | simpl; intuition discriminate | simpl; intuition discriminate]. }
  split.
  { apply (proj1 (exit_statuses Sample.full _)).
    apply (notresname_after_resname _ _
             ["-p"; "prmtop"; "-igb"; "5"; "-resname"; "TYR"] ["AS4"]);
      [reflexivity | reflexivity | simpl; tauto
      | simpl; intuition discriminate | simpl; intuition discriminate]. }
  split.
  { apply (proj1 (exit_statuses Sample.full _)).
    apply (resnum_after_notresnum _ _
             ["-p"; "prmtop"; "-igb"; "5"; "-notresnum"; "3"] ["4"]);
      [reflexivity | reflexivity | simpl; tauto
      | simpl; intuition discriminate | simpl; intuition discriminate]. }
  split.
  { apply (proj1 (exit_statuses Sample.full _)).
    apply (notresnum_after_resnum _ _
             ["-p"; "prmtop"; "-igb"; "5"; "-resnum"; "4"] ["3"]);
      [reflexivity | reflexivity | simpl; tauto
      | simpl; intuition discriminate | simpl; intuition discriminate]. }
  split.
  { apply (proj1 (exit_statuses Faulty.no_file _)).
    apply (topology_missing _ _ (set_igb "5" (set_prmtop "prmtop" defaults)));
      [read_as | reflexivity]. }
  split.
  { apply (proj1 (exit_statuses Faulty.bondi _)).
    apply (radii_mismatch _ _ (set_igb "5" (set_prmtop "prmtop" defaults)));
      [read_as | discriminate | reflexivity | discriminate]. }
  split.
  { apply (proj1 (exit_statuses Faulty.no_records _)).
    apply (records_missing _ _ (set_igb "5" (set_prmtop "prmtop" defaults)));
      [read_as | discriminate | now right | now left]. }
  split.
  { apply (proj1 (exit_statuses Sample.full _)).
    eapply (number_too_large _ _
              (set_resnum ["3"; "5"] (set_igb "5" (set_prmtop "prmtop" defaults)))
              _ [3] 5 []).
    - come_through.
    - reflexivity.
    - repeat constructor; try (unfold Py.len; simpl; lia).
      eexists; split; reflexivity.
    - reflexivity. }
  split.
  { apply (proj1 (exit_statuses Sample.full _)).
    eapply (name_not_titratable _ _
              (set_resnum ["3"; "2"] (set_igb "5" (set_prmtop "prmtop" defaults)))
              _ [3] 2 [] "GLU").
    - come_through.
    - reflexivity.
    - repeat constructor; try (unfold Py.len; simpl; lia).
      eexists; split; reflexivity.
    - discriminate.
    - reflexivity.
    - reflexivity. }
  split.
  { apply (proj1 (exit_statuses Sample.full _)).
    eapply (nothing_selected _ _
              (set_resname "LYS " (set_igb "5" (set_prmtop "prmtop" defaults)))).
    - come_through.
    - reflexivity.
    - repeat constructor. }
  split.
  { apply (proj1 (exit_statuses Sample.full _)).
    eapply (states_miscounted _ _
              (set_residue_states ["0"]
                 (set_igb "5" (set_prmtop "prmtop" defaults)))
              {| resnums_int := []; notresnums_int := [];
                 residue_states_int := [0]; igb_int := 5;
                 maxpKa_float := 100%float; minpKa_float := (-100)%float |}
              [3; 4] ["AS4"; "TYR"]).
    - split; [come_through|]. split; reflexivity.
    - discriminate.
    - discriminate. }
  split.
  { apply (proj1 (exit_statuses Sample.no_tyr _)).
    eapply (name_unknown _ _ (set_igb "5" (set_prmtop "prmtop" defaults)) _
              [3; 4] ["AS4"; "TYR"] [0; 0] ["AS4"] "TYR" []
              [("AS4", Sample.as4)]).
    - split; [come_through|]. split; reflexivity.
    - reflexivity.
    - reflexivity.
    - reflexivity.
    - reflexivity. }
  split.
  { apply (proj1 (exit_statuses Sample.full _)).
    eapply (state_out_of_range _ _
              (set_residue_states ["0"; "2"]
                 (set_igb "5" (set_prmtop "prmtop" defaults)))
              _ [3; 4] ["AS4"; "TYR"] [0; 2]
              [("AS4", Sample.as4); ("TYR", Sample.tyr)] [(3, 0)] 4 2 []
              "TYR" Sample.tyr).
    - split; [come_through|]. split; reflexivity.
    - reflexivity.
    - reflexivity.
    - repeat constructor; discriminate.
    - reflexivity.
    - constructor; [|constructor].
      exists "AS4", Sample.as4. split; [reflexivity|]. split; [now left|].
      unfold Py.len. simpl. lia.
    - reflexivity.
    - right. now left.
    - right. unfold Py.len. simpl. lia. }
  eapply (proj2 (exit_statuses Sample.full (Sample.command []))
            _ ["CPin created!"]).
  reflexivity.
Defined.

(** C9 as stated fails: [-resname] after [-notresname] is reported on
    stderr and ends the run with exit status 0, as does an empty
    selection. *)
Lemma validation_failures_exit_with_0 :
  (cpinutil Sample.full (Sample.command ["-notresname"; "AS4"; "-resname"; "TYR"])
   = Abort [] [conflict_names] (SysExit ExitResname) /\
   exit_status
     (cpinutil Sample.full (Sample.command ["-notresname"; "AS4"; "-resname"; "TYR"]))
   = Some 0) /\
  (cpinutil Sample.full (Sample.command ["-resname"; "LYS"])
   = Abort [] ["Error: No titratable residues conform to your criteria!"]
           (SysExit ExitNoneSelected) /\
   exit_status (cpinutil Sample.full (Sample.command ["-resname"; "LYS"]))
   = Some 0).
Proof. repeat split. Qed.
